(** * Stock trend reader: the trading-signal engine

    A shallow embedding of the signal derivation of the [TradingSignals]
    component: [calculateTechnicalIndicators], [generateTradingSignal] and
    [generateSignalData].

    JavaScript numbers are IEEE 754 binary64 values, so the embedding
    computes on Rocq's primitive [float], whose operations are specified
    by the [SpecFloat] model of the standard library.  [Math.random] is an
    explicit source of draws that the functions thread through. *)

From Stdlib Require Import Floats ZArith Zpower QArith Qabs Qpower Lqa Lia.
From Stdlib Require Import List Bool String Morphisms.
Import ListNotations.

Set Warnings "-inexact-float".

Local Open Scope float_scope.

(** ** JavaScript number operations *)

(** [a > b] and [a >= b] on numbers: false as soon as one side is NaN. *)
Definition gtb (a b : float) : bool := b <? a.
Definition geb (a b : float) : bool := b <=? a.

Notation "x >? y" := (gtb x y) (at level 70, no associativity) : float_scope.
Notation "x >=? y" := (geb x y) (at level 70, no associativity) : float_scope.

(** [Math.abs]. *)
Definition Math_abs (x : float) : float := abs x.

(** [Math.min] on two arguments: NaN if either is NaN, and -0 is below +0. *)
Definition Math_min (a b : float) : float :=
  if is_nan a || is_nan b then nan
  else if a <? b then a
  else if b <? a then b
  else if is_zero a && get_sign a then a
  else b.

(** ** The source of randomness

    [Math.random()] returns a number in [0, 1) and advances the generator.
    A generator is the sequence of its future draws. *)
Definition Rng := nat -> float.

Definition Math_random (g : Rng) : float * Rng :=
  (g 0%nat, fun n => g (S n)).

(** Every draw lies in [0, 1). *)
Definition unit_draws (g : Rng) : Prop :=
  forall n, (0 <=? g n) = true /\ (g n <? 1) = true.

(** ** Data model *)

Inductive Signal := BUY | SELL | HOLD.

Definition Signal_eqb (a b : Signal) : bool :=
  match a, b with
  | BUY, BUY | SELL, SELL | HOLD, HOLD => true
  | _, _ => false
  end.

Inductive RiskLevel := LOW | MEDIUM | HIGH.

Record TechnicalIndicator := mkIndicator {
  ind_name : string;
  ind_value : float;
  ind_signal : Signal;
  ind_strength : float;
  ind_description : string
}.

(** The entries of [reasoning].  The source builds them with template
    literals; each entry keeps the template it comes from together with
    the number interpolated into it (the decimal rendering done by
    [toFixed] is not part of the model). *)
Inductive Reason :=
| SuggestBuying (buySignals : nat)
| PositiveSentiment
| SuggestSelling (sellSignals : nat)
| NegativeSentiment
| MixedSignals
| NeutralIndicators (holdSignals : nat)
| UpsidePotential (percent : float)
| DownsidePotential (percent : float).

Record TradingSignal := mkSignal {
  action : Signal;
  confidence : float;
  entryPrice : float;
  targetPrice : float;
  stopLoss : float;
  riskReward : float;
  timeframe : string;
  reasoning : list Reason
}.

Record SignalData := mkSignalData {
  currentPrice : float;
  signal : TradingSignal;
  indicators : list TechnicalIndicator;
  marketSentiment : float;
  riskLevel : RiskLevel
}.

(** ** calculateTechnicalIndicators *)

Definition rsiIndicator (rsi : float) : TechnicalIndicator :=
  mkIndicator "RSI (14)"%string rsi
    (if rsi <? 30 then BUY else if rsi >? 70 then SELL else HOLD)
    (Math_abs (rsi - 50) / 50 * 100)
    "Momentum oscillator measuring speed and magnitude of price changes"%string.

Definition macdIndicator (macd : float) : TechnicalIndicator :=
  mkIndicator "MACD"%string macd
    (if macd >? 0 then BUY else if macd <? -1 then SELL else HOLD)
    (Math_abs macd * 20)
    "Trend-following momentum indicator"%string.

Definition maCrossIndicator (ma20 ma50 : float) : TechnicalIndicator :=
  mkIndicator "MA Cross"%string (((ma20 - ma50) / ma50) * 100)
    (if ma20 >? ma50 then BUY else SELL)
    (Math_abs ((ma20 - ma50) / ma50) * 500)
    "20-day vs 50-day moving average crossover"%string.

Definition bollingerPosition (price : float) : float :=
  let upperBand := price * 1.02 in
  let lowerBand := price * 0.98 in
  ((price - lowerBand) / (upperBand - lowerBand)) * 100.

Definition bollingerIndicator (price : float) : TechnicalIndicator :=
  let bbPosition := bollingerPosition price in
  mkIndicator "Bollinger Bands"%string bbPosition
    (if bbPosition <? 20 then BUY else if bbPosition >? 80 then SELL else HOLD)
    (Math_abs (bbPosition - 50) * 2)
    "Volatility indicator using standard deviations"%string.

Definition volumeIndicator (volumeStrength : float) : TechnicalIndicator :=
  mkIndicator "Volume"%string volumeStrength
    (if volumeStrength >? 70 then BUY
     else if volumeStrength <? 30 then SELL else HOLD)
    volumeStrength
    "Trading volume momentum analysis"%string.

Definition calculateTechnicalIndicators (price : float) (g : Rng)
  : list TechnicalIndicator * Rng :=
  let indicators := [] in
  let '(r, g) := Math_random g in
  let rsi := r * 100 in
  let indicators := indicators ++ [rsiIndicator rsi] in
  let '(r, g) := Math_random g in
  let macd := (r - 0.5) * 5 in
  let indicators := indicators ++ [macdIndicator macd] in
  let '(r, g) := Math_random g in
  let ma20 := price * (0.95 + r * 0.1) in
  let '(r, g) := Math_random g in
  let ma50 := price * (0.92 + r * 0.16) in
  let indicators := indicators ++ [maCrossIndicator ma20 ma50] in
  let indicators := indicators ++ [bollingerIndicator price] in
  let '(r, g) := Math_random g in
  let volumeStrength := r * 100 in
  let indicators := indicators ++ [volumeIndicator volumeStrength] in
  (indicators, g).

(** ** generateTradingSignal *)

Definition withSignal (s : Signal) (inds : list TechnicalIndicator)
  : list TechnicalIndicator :=
  filter (fun ind => Signal_eqb (ind_signal ind) s) inds.

(** [inds.filter(...).length] *)
Definition countSignals (s : Signal) (inds : list TechnicalIndicator) : nat :=
  List.length (withSignal s inds).

(** [inds.filter(...).reduce((sum, ind) => sum + ind.strength, 0)] *)
Definition sumStrength (s : Signal) (inds : list TechnicalIndicator) : float :=
  fold_left (fun sum ind => sum + ind_strength ind) (withSignal s inds) 0.

Definition totalBuyStrength (inds : list TechnicalIndicator) (sentiment : float)
  : float :=
  let buyStrength := sumStrength BUY inds in
  let sentimentWeight := sentiment * 20 in
  buyStrength + (if sentiment >? 0 then sentimentWeight else 0).

Definition totalSellStrength (inds : list TechnicalIndicator) (sentiment : float)
  : float :=
  let sellStrength := sumStrength SELL inds in
  let sentimentWeight := sentiment * 20 in
  sellStrength + (if sentiment <? 0 then Math_abs sentimentWeight else 0).

(** The sampled volatility, [0.02 + Math.random() * 0.03]. *)
Definition sampleVolatility (r : float) : float := 0.02 + r * 0.03.

Definition generateTradingSignal (price : float)
    (inds : list TechnicalIndicator) (sentiment : float) (g : Rng)
  : TradingSignal * Rng :=
  let buySignals := countSignals BUY inds in
  let sellSignals := countSignals SELL inds in
  let holdSignals := countSignals HOLD inds in
  let totalBuyStrength := totalBuyStrength inds sentiment in
  let totalSellStrength := totalSellStrength inds sentiment in
  let reasoning := [] in
  let '(action, confidence, reasoning, g) :=
    if (totalBuyStrength >? totalSellStrength) && (2 <=? buySignals)%nat then
      let confidence :=
        Math_min 95 ((totalBuyStrength / (totalBuyStrength + totalSellStrength)) * 100) in
      let reasoning := reasoning ++ [SuggestBuying buySignals] in
      let reasoning :=
        if sentiment >? 0.1 then reasoning ++ [PositiveSentiment] else reasoning in
      (BUY, confidence, reasoning, g)
    else if (totalSellStrength >? totalBuyStrength) && (2 <=? sellSignals)%nat then
      let confidence :=
        Math_min 95 ((totalSellStrength / (totalBuyStrength + totalSellStrength)) * 100) in
      let reasoning := reasoning ++ [SuggestSelling sellSignals] in
      let reasoning :=
        if sentiment <? -0.1 then reasoning ++ [NegativeSentiment] else reasoning in
      (SELL, confidence, reasoning, g)
    else
      let '(r, g) := Math_random g in
      let confidence := 50 + r * 20 in
      let reasoning := reasoning ++ [MixedSignals] in
      let reasoning :=
        if (0 <? holdSignals)%nat then reasoning ++ [NeutralIndicators holdSignals]
        else reasoning in
      (HOLD, confidence, reasoning, g) in
  let '(r, g) := Math_random g in
  let volatility := sampleVolatility r in
  let '(entryPrice, targetPrice, stopLoss, reasoning) :=
    match action with
    | BUY =>
        let entryPrice := price * (1 - 0.005) in
        let targetPrice := price * (1 + volatility * 2) in
        let stopLoss := price * (1 - volatility) in
        (entryPrice, targetPrice, stopLoss,
         reasoning ++ [UpsidePotential ((targetPrice - entryPrice) / entryPrice * 100)])
    | SELL =>
        let entryPrice := price * (1 + 0.005) in
        let targetPrice := price * (1 - volatility * 2) in
        let stopLoss := price * (1 + volatility) in
        (entryPrice, targetPrice, stopLoss,
         reasoning ++ [DownsidePotential ((entryPrice - targetPrice) / entryPrice * 100)])
    | HOLD => (price, price, price, reasoning)
    end in
  let riskReward := Math_abs ((targetPrice - entryPrice) / (entryPrice - stopLoss)) in
  (mkSignal action confidence entryPrice targetPrice stopLoss riskReward
     "1-3 days"%string reasoning, g).

(** ** generateSignalData *)

(** The risk level chosen from the confidence of the signal. *)
Definition riskLevelOf (confidence : float) : RiskLevel :=
  if confidence >? 80 then LOW
  else if confidence >? 60 then MEDIUM
  else HIGH.

Definition generateSignalData (g : Rng) : SignalData * Rng :=
  let '(r, g) := Math_random g in
  let currentPrice := 100 + r * 400 in
  let '(r, g) := Math_random g in
  let marketSentiment := (r - 0.5) * 2 in
  let '(indicators, g) := calculateTechnicalIndicators currentPrice g in
  let '(signal, g) := generateTradingSignal currentPrice indicators marketSentiment g in
  (mkSignalData currentPrice signal indicators marketSentiment
     (riskLevelOf (confidence signal)), g).

(** ** Auxiliary definitions for the statements *)

(** The order of the risk levels, from the safest. *)
Definition riskOrder (r : RiskLevel) : nat :=
  match r with LOW => 0 | MEDIUM => 1 | HIGH => 2 end.

(** The range of realistic prices: normal numbers far from overflow. *)
Definition price_in_range (p : float) : Prop :=
  (1e-300 <=? p) = true /\ (p <=? 1e300) = true.

(** A random source whose every draw is 0.5. *)
Definition halfDraws : Rng := fun _ => 0.5.

(** Indicator lists used as concrete inputs. *)
Definition scenarioIndicators : list TechnicalIndicator :=
  [ mkIndicator "RSI (14)"%string 25 BUY 40 ""%string;
    mkIndicator "MACD"%string 1.5 BUY 30 ""%string;
    mkIndicator "MA Cross"%string (-2) SELL 10 ""%string ].

Definition twoSellIndicators : list TechnicalIndicator :=
  [ mkIndicator "RSI (14)"%string 75 SELL 50 ""%string;
    mkIndicator "MACD"%string (-2) SELL 40 ""%string;
    mkIndicator "MA Cross"%string 1 BUY 10 ""%string ].

Definition oneBuyIndicators : list TechnicalIndicator :=
  [ mkIndicator "RSI (14)"%string 25 BUY 80 ""%string;
    mkIndicator "MACD"%string (-0.5) HOLD 10 ""%string;
    mkIndicator "Volume"%string 50 HOLD 50 ""%string ].

Definition fiveHoldIndicators : list TechnicalIndicator :=
  [ mkIndicator "RSI (14)"%string 50 HOLD 0 ""%string;
    mkIndicator "MACD"%string (-0.5) HOLD 10 ""%string;
    mkIndicator "MA Cross"%string 0 HOLD 0 ""%string;
    mkIndicator "Bollinger Bands"%string 50 HOLD 0 ""%string;
    mkIndicator "Volume"%string 50 HOLD 50 ""%string ].

Definition hugeBuyIndicators : list TechnicalIndicator :=
  [ mkIndicator "RSI (14)"%string 25 BUY 1e308 ""%string;
    mkIndicator "MACD"%string 1.5 BUY 1e308 ""%string ].

(** The opposite signal, and an indicator with its signal exchanged; they
    state the symmetry of the decision rule. *)
Definition flipSignal (s : Signal) : Signal :=
  match s with BUY => SELL | SELL => BUY | HOLD => HOLD end.

Definition mirrorIndicator (ind : TechnicalIndicator) : TechnicalIndicator :=
  mkIndicator (ind_name ind) (ind_value ind) (flipSignal (ind_signal ind))
    (ind_strength ind) (ind_description ind).

(** The indicators that do not signal HOLD. *)
Definition withoutHold (inds : list TechnicalIndicator) : list TechnicalIndicator :=
  filter (fun ind => negb (Signal_eqb (ind_signal ind) HOLD)) inds.

(** The random source after [k] draws. *)
Definition afterDraws (k : nat) (g : Rng) : Rng := fun n => g (k + n)%nat.

(** Further concrete inputs. *)
Definition neutralIndicator : TechnicalIndicator :=
  mkIndicator "Volume"%string 50 HOLD 50 ""%string.

Definition nanStrengthIndicators : list TechnicalIndicator :=
  [ mkIndicator "RSI (14)"%string 25 BUY nan ""%string;
    mkIndicator "MACD"%string 1.5 BUY 30 ""%string;
    mkIndicator "MA Cross"%string (-2) SELL 10 ""%string ].

(** How bullish a recommendation is: SELL below HOLD below BUY. *)
Definition bullishness (s : Signal) : nat :=
  match s with SELL => 0 | HOLD => 1 | BUY => 2 end.

(** Two BUY indicators, one of them with a negative strength. *)
Definition signedBuyIndicators : list TechnicalIndicator :=
  [ mkIndicator "RSI (14)"%string 25 BUY 50 ""%string;
    mkIndicator "MACD"%string 1.5 BUY (-10) ""%string ].

(** The source whose draws are all 0, the smallest draw of [Math.random]. *)
Definition zeroDraws : Rng := fun _ => 0.

(** The smallest price at which the levels of a BUY or SELL decision are
    strictly ordered for every draw: 25 * 2^-1074, about 1.24e-322. *)
Definition minOrderedPrice : float := 0x19p-1074.

(** The largest price whose SELL entry level [price * 1.005] is a finite
    number, about 1.7887e308. *)
Definition maxSellPrice : float := 0x1.fd73e68701461p+1023.

(** * The binary64 model: definitions

    The operations of [float] are specified by the standard library
    through [Prim2SF] and the functions of [SpecFloat].  The definitions
    below give a finite number its rational value and state what it means
    for a number to be the correct rounding of a real. *)

Local Open Scope Q_scope.

(** Powers of two with an integer exponent. *)
Definition pow2 (e : Z) : Q := 2 ^ e.

Arguments pow2 : simpl never.

(** The magnitude [m * 2^e] of a finite number. *)
Definition mag (m : positive) (e : Z) : Q := inject_Z (Zpos m) * pow2 e.

Arguments mag : simpl never.

(** The rational value of a finite number (0 for the others). *)
Definition SF2Q (x : spec_float) : Q :=
  match x with
  | S754_finite s m e => if s then - mag m e else mag m e
  | _ => 0
  end.

(** A rank that orders every number that is not NaN: the infinities sit
    beyond all finite values. *)
Definition SFrank (x : spec_float) : Q :=
  match x with
  | S754_infinity s => if s then - pow2 1024 else pow2 1024
  | _ => SF2Q x
  end.

(** Finite numbers (zeros included). *)
Definition SFfinite (x : spec_float) : bool :=
  match x with
  | S754_zero _ | S754_finite _ _ _ => true
  | _ => false
  end.

(** The numbers that carry the sign [s]: a zero, a finite number or an
    infinity. *)
Definition SFclass (s : bool) (r : spec_float) : Prop :=
  r = S754_zero s \/ (exists m e, r = S754_finite s m e) \/ r = S754_infinity s.

(** [located m e r s x] says where the real [x] lies between the two
    consecutive multiples [m * 2^e] and [(m + 1) * 2^e], as recorded by
    the round bit [r] and the sticky bit [s] of a shifted mantissa. *)
Definition located (m : Z) (e : Z) (r s : bool) (x : Q) : Prop :=
  match r, s with
  | false, false => x == inject_Z m * pow2 e
  | false, true =>
      inject_Z m * pow2 e < x /\ x < inject_Z m * pow2 e + (1 # 2) * pow2 e
  | true, false => x == inject_Z m * pow2 e + (1 # 2) * pow2 e
  | true, true =>
      inject_Z m * pow2 e + (1 # 2) * pow2 e < x /\
      x < inject_Z m * pow2 e + pow2 e
  end.

Definition located_rec (t : shr_record) (e : Z) (x : Q) : Prop :=
  located (shr_m t) e (shr_r t) (shr_s t) x.

(** The location encoded by a [location] value. *)
Definition located_loc (m : Z) (e : Z) (l : location) (x : Q) : Prop :=
  located_rec (shr_record_of_loc m l) e x.

(** [m1 * 2^e] is a multiple of [2^e] nearest to [x]. *)
Record Near (m1 : Z) (e : Z) (x : Q) : Prop := mkNear {
  near_lo : inject_Z m1 * pow2 e - (1 # 2) * pow2 e <= x;
  near_hi : x <= inject_Z m1 * pow2 e + (1 # 2) * pow2 e;
  near_up : forall k : Z, x <= inject_Z k * pow2 e -> (m1 <= k)%Z;
  near_down : forall k : Z, inject_Z k * pow2 e <= x -> (k <= m1)%Z
}.

(** The number encoded from the rounded mantissa [m1] at exponent [e1],
    with sign [s]. *)
Inductive result_is (s : bool) (m1 e1 : Z) : spec_float -> Prop :=
| res_zero : m1 = 0%Z -> result_is s m1 e1 (S754_zero s)
| res_finite p e2 :
    mag p e2 == inject_Z m1 * pow2 e1 -> (0 < m1)%Z ->
    result_is s m1 e1 (S754_finite s p e2)
| res_infinity :
    pow2 1024 <= inject_Z m1 * pow2 e1 -> result_is s m1 e1 (S754_infinity s).

(** The same for a non-negative result, whatever the sign of a zero. *)
Inductive rounded (m1 e1 : Z) : spec_float -> Prop :=
| rounded_zero s : m1 = 0%Z -> rounded m1 e1 (S754_zero s)
| rounded_finite p e2 :
    mag p e2 == inject_Z m1 * pow2 e1 -> (0 < m1)%Z ->
    rounded m1 e1 (S754_finite false p e2)
| rounded_infinity :
    pow2 1024 <= inject_Z m1 * pow2 e1 -> rounded m1 e1 (S754_infinity false).

(** [Rounds x r]: the number [r] is the real [x >= 0] rounded to nearest,
    ties to even, in binary64 (an infinity when [x] is too large).  The
    mantissa [m1] is the nearest multiple at the exponent [e1] that the
    format gives to [x]; it has 53 bits unless [x] is subnormal. *)
Definition Rounds (x : Q) (r : spec_float) : Prop :=
  exists m1 e1 : Z,
    Near m1 e1 x /\ (-1074 <= e1)%Z /\ (0 <= m1 <= 2 ^ 53)%Z /\
    (-1074 < e1 -> 2 ^ 52 <= m1)%Z /\
    ((-1074 < e1)%Z -> pow2 (e1 + 52) <= x) /\ 0 <= x /\
    rounded m1 e1 r.

(** The unit roundoff of binary64. *)
Definition u64 : Q := pow2 (-53).

(** Values, ranks and classes of primitive floats. *)
Definition B2Q (x : float) : Q := SF2Q (Prim2SF x).
Definition rank (x : float) : Q := SFrank (Prim2SF x).
Definition finite (x : float) : Prop := SFfinite (Prim2SF x) = true.
Definition number (x : float) : Prop := Prim2SF x <> S754_nan.

(** Numbers with sign bit 0: +0, the positive numbers and +infinity. *)
Definition posnum (x : float) : Prop := SFclass false (Prim2SF x).

(** * Binary64 arithmetic: rounding in the [SpecFloat] model *)

Lemma pow2_pos e : 0 < pow2 e.
Proof. apply Qpower_0_lt. reflexivity. Qed.

Lemma pow2_add a b : pow2 (a + b) == pow2 a * pow2 b.
Proof. apply Qpower_plus. discriminate. Qed.

Lemma pow2_succ e : pow2 (e + 1) == 2 * pow2 e.
Proof. rewrite pow2_add. unfold pow2 at 2. simpl. ring. Qed.

Lemma pow2_Z n : (0 <= n)%Z -> pow2 n == inject_Z (2 ^ n).
Proof. intros H. unfold pow2. rewrite Zpower_Qpower by exact H. reflexivity. Qed.

Lemma pow2_le a b : (a <= b)%Z -> pow2 a <= pow2 b.
Proof.
  intros H. replace b with (a + (b - a))%Z by lia.
  rewrite pow2_add. rewrite (pow2_Z (b - a)) by lia.
  assert (H0 : (2 ^ 0 <= 2 ^ (b - a))%Z) by (apply Z.pow_le_mono_r; lia).
  change (2 ^ 0)%Z with 1%Z in H0.
  rewrite Zle_Qle in H0. change (inject_Z 1) with 1 in H0.
  generalize (pow2_pos a). set (k := inject_Z _) in *. set (w := pow2 a).
  intros Hw. rewrite <- (Qmult_1_r w) at 1. rewrite (Qmult_comm w 1), (Qmult_comm w k).
  apply Qmult_le_compat_r; lra.
Qed.

Lemma pow2_lt a b : (a < b)%Z -> pow2 a < pow2 b.
Proof.
  intros H. apply Qlt_le_trans with (pow2 (a + 1)).
  - rewrite pow2_succ. generalize (pow2_pos a). lra.
  - apply pow2_le. lia.
Qed.

(** ** Binary digits *)

Lemma digits2_pos_bounds (p : positive) :
  (2 ^ (Zpos (digits2_pos p) - 1) <= Zpos p < 2 ^ Zpos (digits2_pos p))%Z.
Proof.
  induction p as [p IH | p IH | ]; simpl digits2_pos.
  - rewrite Pos2Z.inj_succ.
    replace (Z.succ (Zpos (digits2_pos p)) - 1)%Z with (Zpos (digits2_pos p) - 1 + 1)%Z by lia.
    rewrite Z.pow_succ_r by lia. rewrite Z.pow_add_r by lia.
    change (2 ^ 1)%Z with 2%Z. lia.
  - rewrite Pos2Z.inj_succ.
    replace (Z.succ (Zpos (digits2_pos p)) - 1)%Z with (Zpos (digits2_pos p) - 1 + 1)%Z by lia.
    rewrite Z.pow_succ_r by lia. rewrite Z.pow_add_r by lia.
    change (2 ^ 1)%Z with 2%Z. lia.
  - simpl. lia.
Qed.

Lemma Zdigits2_bounds (m : Z) :
  (0 < m)%Z -> (2 ^ (Zdigits2 m - 1) <= m < 2 ^ Zdigits2 m)%Z.
Proof.
  destruct m as [ | p | p]; try lia. intros _. apply digits2_pos_bounds.
Qed.

Lemma Zdigits2_pos (m : Z) : (0 < m)%Z -> (0 < Zdigits2 m)%Z.
Proof. destruct m; simpl; lia. Qed.

(** The number of digits is characterised by the two bounds. *)
Lemma Zdigits2_unique (m d : Z) :
  (0 < d)%Z -> (2 ^ (d - 1) <= m < 2 ^ d)%Z -> Zdigits2 m = d.
Proof.
  intros Hd [Hl Hu].
  assert (Hm : (0 < m)%Z).
  { assert (0 < 2 ^ (d - 1))%Z by (apply Z.pow_pos_nonneg; lia). lia. }
  destruct (Zdigits2_bounds m Hm) as [Hl' Hu'].
  pose proof (Zdigits2_pos m Hm) as Hp.
  destruct (Z.lt_trichotomy (Zdigits2 m) d) as [Hlt | [Heq | Hgt]]; [ | exact Heq | ].
  - assert (2 ^ Zdigits2 m <= 2 ^ (d - 1))%Z by (apply Z.pow_le_mono_r; lia). lia.
  - assert (2 ^ d <= 2 ^ (Zdigits2 m - 1))%Z by (apply Z.pow_le_mono_r; lia). lia.
Qed.

(** ** Canonical binary64 representations *)

Lemma fexp_eq (e : Z) : fexp prec emax e = Z.max (e - 53) (-1074).
Proof. reflexivity. Qed.

Lemma bounded_inv (m : positive) (e : Z) :
  bounded prec emax m e = true ->
  (Zpos m < 2 ^ 53)%Z /\ ((-1074) <= e <= 971)%Z /\
  ((-1074) < e -> 2 ^ 52 <= Zpos m)%Z.
Proof.
  unfold bounded, canonical_mantissa. rewrite fexp_eq.
  intros H. apply andb_prop in H. destruct H as [H1 H2].
  apply Z.eqb_eq in H1. apply Z.leb_le in H2.
  change (emax - prec)%Z with 971%Z in H2.
  pose proof (digits2_pos_bounds m) as [Hl Hu].
  set (d := Zpos (digits2_pos m)) in *.
  assert (Hd : (d <= 53)%Z) by lia.
  split; [ | split ].
  - assert (2 ^ d <= 2 ^ 53)%Z by (apply Z.pow_le_mono_r; lia). lia.
  - lia.
  - intros He. assert (d = 53%Z) by lia. subst d. rewrite H in Hl. exact Hl.
Qed.

(** ** Real values *)

Lemma mag_pos m e : 0 < mag m e.
Proof.
  unfold mag. apply Qmult_lt_0_compat; [ | apply pow2_pos ].
  unfold Qlt; simpl; lia.
Qed.

Lemma inject_Z_pow2_mul (k n : Z) (e : Z) :
  (0 <= n)%Z -> inject_Z (k * 2 ^ n) * pow2 e == inject_Z k * pow2 (e + n).
Proof.
  intros Hn. rewrite inject_Z_mult, pow2_add, <- (pow2_Z n Hn). ring.
Qed.

Lemma mag_lt_pow2 m e d :
  (Zpos m < 2 ^ d)%Z -> (0 <= d)%Z -> mag m e < pow2 (e + d).
Proof.
  intros H Hd. unfold mag. rewrite pow2_add, (pow2_Z d Hd).
  rewrite Zlt_Qlt in H. rewrite (Qmult_comm (pow2 e)).
  apply Qmult_lt_compat_r; [ apply pow2_pos | exact H ].
Qed.

Lemma mag_ge_pow2 m e d :
  (2 ^ d <= Zpos m)%Z -> (0 <= d)%Z -> pow2 (e + d) <= mag m e.
Proof.
  intros H Hd. unfold mag. rewrite pow2_add, (pow2_Z d Hd).
  rewrite Zle_Qle in H. rewrite (Qmult_comm (pow2 e)).
  apply Qmult_le_compat_r; [ exact H | apply Qlt_le_weak, pow2_pos ].
Qed.

Lemma mag_lt_exp m1 e1 m2 e2 :
  bounded prec emax m1 e1 = true -> bounded prec emax m2 e2 = true ->
  (e1 < e2)%Z -> mag m1 e1 < mag m2 e2.
Proof.
  intros B1 B2 He.
  destruct (bounded_inv _ _ B1) as (U1 & R1 & _).
  destruct (bounded_inv _ _ B2) as (_ & R2 & N2).
  apply Qlt_le_trans with (pow2 (e1 + 53)).
  - apply mag_lt_pow2; [ exact U1 | lia ].
  - apply Qle_trans with (pow2 (e2 + 52)).
    + apply pow2_le. lia.
    + apply mag_ge_pow2; [ apply N2; lia | lia ].
Qed.

Lemma mag_lt_max m e :
  bounded prec emax m e = true -> mag m e < pow2 1024.
Proof.
  intros B. destruct (bounded_inv _ _ B) as (U & R & _).
  apply Qlt_le_trans with (pow2 (e + 53)).
  - apply mag_lt_pow2; [ exact U | lia ].
  - apply pow2_le. lia.
Qed.

Lemma mag_compare_same_exp m1 m2 e :
  (mag m1 e ?= mag m2 e) = Pos.compare m1 m2.
Proof.
  destruct (Pos.compare_spec m1 m2) as [H | H | H].
  - subst. apply (proj1 (Qeq_alt _ _)). reflexivity.
  - apply (proj1 (Qlt_alt _ _)). unfold mag. apply Qmult_lt_compat_r; [ apply pow2_pos | ].
    rewrite <- Zlt_Qlt. lia.
  - apply (proj1 (Qgt_alt _ _)). unfold mag. apply Qmult_lt_compat_r; [ apply pow2_pos | ].
    rewrite <- Zlt_Qlt. lia.
Qed.

Lemma Qcompare_opp (a b : Q) : (- a ?= - b) = CompOpp (a ?= b).
Proof.
  destruct (Qcompare_spec a b) as [H | H | H]; simpl.
  - apply (proj1 (Qeq_alt _ _)). rewrite H. reflexivity.
  - apply (proj1 (Qgt_alt _ _)). lra.
  - apply (proj1 (Qlt_alt _ _)). lra.
Qed.

Ltac rank_cmp :=
  f_equal; symmetry;
  first [ apply (proj1 (Qeq_alt _ _)); reflexivity
        | apply (proj1 (Qlt_alt _ _)); lra
        | apply (proj1 (Qgt_alt _ _)); lra ].

(** On valid numbers the IEEE comparison is the comparison of ranks. *)
Lemma SFcompare_rank (x y : spec_float) :
  valid_binary x = true -> valid_binary y = true ->
  SFcompare x y =
  match x, y with
  | S754_nan, _ | _, S754_nan => None
  | _, _ => Some (SFrank x ?= SFrank y)
  end.
Proof.
  intros Vx Vy.
  assert (P1024 := pow2_pos 1024).
  destruct x as [sx | sx | | sx mx ex], y as [sy | sy | | sy my ey];
    try reflexivity; simpl in Vx, Vy; simpl SFcompare; unfold SFrank, SF2Q;
    try (pose proof (mag_lt_max _ _ Vy)); try (pose proof (mag_pos my ey));
    try (pose proof (mag_lt_max _ _ Vx)); try (pose proof (mag_pos mx ex)).
  - destruct sy; rank_cmp.
  - destruct sy; rank_cmp.
  - destruct sx; rank_cmp.
  - destruct sx, sy; rank_cmp.
  - destruct sx, sy; rank_cmp.
  - destruct sx; rank_cmp.
  - destruct sx, sy; rank_cmp.
  - f_equal.
    destruct sx, sy.
    + rewrite Qcompare_opp.
      destruct (Z.compare_spec ex ey) as [He | He | He].
      * subst ey. rewrite mag_compare_same_exp. reflexivity.
      * pose proof (mag_lt_exp _ _ _ _ Vx Vy He) as L.
        apply (proj1 (Qlt_alt _ _)) in L. rewrite L. reflexivity.
      * pose proof (mag_lt_exp _ _ _ _ Vy Vx He) as L.
        apply (proj1 (Qgt_alt _ _)) in L. rewrite L. reflexivity.
    + symmetry. apply (proj1 (Qlt_alt _ _)). lra.
    + symmetry. apply (proj1 (Qgt_alt _ _)). lra.
    + destruct (Z.compare_spec ex ey) as [He | He | He].
      * subst ey. rewrite mag_compare_same_exp. reflexivity.
      * pose proof (mag_lt_exp _ _ _ _ Vx Vy He) as L.
        apply (proj1 (Qlt_alt _ _)) in L. rewrite L. reflexivity.
      * pose proof (mag_lt_exp _ _ _ _ Vy Vx He) as L.
        apply (proj1 (Qgt_alt _ _)) in L. rewrite L. reflexivity.
Qed.

(** ** Shifting a mantissa right *)

Lemma inject_Z_xI p : inject_Z (Zpos p~1) == 2 * inject_Z (Zpos p) + 1.
Proof.
  change (Zpos p~1) with (2 * Zpos p + 1)%Z.
  rewrite inject_Z_plus, inject_Z_mult. reflexivity.
Qed.

Lemma inject_Z_xO p : inject_Z (Zpos p~0) == 2 * inject_Z (Zpos p).
Proof.
  change (Zpos p~0) with (2 * Zpos p)%Z.
  rewrite inject_Z_mult. reflexivity.
Qed.

Ltac zdiv := first [ reflexivity | Z.to_euclidean_division_equations; lia ].

Lemma shr_1_located (t : shr_record) (e : Z) (x : Q) :
  (0 <= shr_m t)%Z -> located_rec t e x ->
  located_rec (shr_1 t) (e + 1) x /\
  (0 <= shr_m (shr_1 t))%Z /\ shr_m (shr_1 t) = (shr_m t / 2)%Z.
Proof.
  destruct t as [m r s]. unfold located_rec.
  pose proof (pow2_succ e) as E. pose proof (pow2_pos e) as P.
  destruct m as [ | [p | p | ] | p ]; cbn [shr_m]; try lia; intros _ H;
    (split; [ | split; [ cbv [shr_1 shr_m]; lia | cbv [shr_1 shr_m]; zdiv ] ]);
    [ | assert (I : inject_Z (Zpos p~1) * pow2 e ==
                    2 * (inject_Z (Zpos p) * pow2 e) + pow2 e)
          by (rewrite inject_Z_xI; ring)
      | assert (I : inject_Z (Zpos p~0) * pow2 e ==
                    2 * (inject_Z (Zpos p) * pow2 e))
          by (rewrite inject_Z_xO; ring)
      | ];
    try (assert (I' : inject_Z (Zpos p) * pow2 (e + 1) ==
                      2 * (inject_Z (Zpos p) * pow2 e))
           by (rewrite E; ring));
    destruct r, s; unfold located in *; cbn [shr_m shr_r shr_s shr_1 orb] in *;
    change (inject_Z 0) with 0 in *; change (inject_Z 1) with 1 in *;
    lra.
Qed.

Lemma iter_shr_1_located (n : positive) :
  forall (t : shr_record) (e : Z) (x : Q),
    (0 <= shr_m t)%Z -> located_rec t e x ->
    located_rec (SpecFloat.iter_pos shr_1 n t) (e + Zpos n) x /\
    (0 <= shr_m (SpecFloat.iter_pos shr_1 n t))%Z /\
    shr_m (SpecFloat.iter_pos shr_1 n t) = (shr_m t / 2 ^ Zpos n)%Z.
Proof.
  induction n as [n IH | n IH | ]; intros t e x Hm H; simpl SpecFloat.iter_pos.
  - destruct (shr_1_located t e x Hm H) as (L1 & P1 & D1).
    destruct (IH _ _ _ P1 L1) as (L2 & P2 & D2).
    destruct (IH _ _ _ P2 L2) as (L3 & P3 & D3).
    replace (e + Zpos n~1)%Z with (e + 1 + Zpos n + Zpos n)%Z by lia.
    split; [ exact L3 | split; [ exact P3 | ] ].
    rewrite D3, D2, D1.
    rewrite !Z.div_div by (try lia; apply Z.pow_pos_nonneg; lia).
    f_equal. rewrite <- Z.pow_add_r by lia.
    rewrite <- (Z.pow_succ_r 2) by lia. f_equal. lia.
  - destruct (IH _ _ _ Hm H) as (L2 & P2 & D2).
    destruct (IH _ _ _ P2 L2) as (L3 & P3 & D3).
    replace (e + Zpos n~0)%Z with (e + Zpos n + Zpos n)%Z by lia.
    split; [ exact L3 | split; [ exact P3 | ] ].
    rewrite D3, D2.
    rewrite !Z.div_div by (try lia; apply Z.pow_pos_nonneg; lia).
    f_equal. rewrite <- Z.pow_add_r by lia. f_equal. lia.
  - destruct (shr_1_located t e x Hm H) as (L1 & P1 & D1).
    split; [ exact L1 | split; [ exact P1 | exact D1 ] ].
Qed.

Lemma shr_record_of_loc_m m l : shr_m (shr_record_of_loc m l) = m.
Proof. destruct l as [ | [ | | ] ]; reflexivity. Qed.

Lemma shr_located (t : shr_record) (e n : Z) (x : Q) :
  (0 <= shr_m t)%Z -> located_rec t e x ->
  let '(t', e') := shr t e n in
  located_rec t' e' x /\ (0 <= shr_m t')%Z /\
  e' = (e + Z.max n 0)%Z /\ shr_m t' = (shr_m t / 2 ^ Z.max n 0)%Z.
Proof.
  intros Hm H. destruct n as [ | p | p ]; simpl shr.
  - rewrite Z.add_0_r, Z.div_1_r. auto.
  - destruct (iter_shr_1_located p t e x Hm H) as (L & P & D).
    rewrite Z.max_l by lia. auto.
  - rewrite Z.add_0_r, Z.div_1_r. auto.
Qed.

(** ** Rounding to nearest, ties to even *)

Lemma lattice_lt (a b : Z) (e : Z) :
  inject_Z a * pow2 e < inject_Z b * pow2 e -> (a < b)%Z.
Proof.
  intros H. rewrite Zlt_Qlt.
  apply Qmult_lt_r with (z := pow2 e); [ apply pow2_pos | exact H ].
Qed.

Lemma lattice_le (a b : Z) (e : Z) :
  inject_Z a * pow2 e <= inject_Z b * pow2 e -> (a <= b)%Z.
Proof.
  intros H. rewrite Zle_Qle.
  apply Qmult_le_r with (z := pow2 e); [ apply pow2_pos | exact H ].
Qed.

Lemma inject_Z_succ_mul (a : Z) (w : Q) :
  inject_Z (a + 1) * w == inject_Z a * w + w.
Proof. rewrite inject_Z_plus. change (inject_Z 1) with 1. ring. Qed.

Lemma round_nearest_even_near (t : shr_record) (e : Z) (x : Q) :
  located_rec t e x ->
  let m1 := round_nearest_even (shr_m t) (loc_of_shr_record t) in
  Near m1 e x /\ (shr_m t <= m1 <= shr_m t + 1)%Z /\
  inject_Z (shr_m t) * pow2 e <= x.
Proof.
  destruct t as [m r s]. unfold located_rec, located. cbn [shr_m shr_r shr_s].
  pose proof (pow2_pos e) as P.
  pose proof (inject_Z_succ_mul m (pow2 e)) as S1.
  assert (UP : forall k, inject_Z m * pow2 e < inject_Z k * pow2 e -> (m + 1 <= k)%Z).
  { intros k Hk. apply lattice_lt in Hk. lia. }
  assert (DN : forall k, inject_Z k * pow2 e < inject_Z m * pow2 e + pow2 e -> (k <= m)%Z).
  { intros k Hk. rewrite <- S1 in Hk. apply lattice_lt in Hk. lia. }
  destruct r, s; cbn [loc_of_shr_record round_nearest_even]; intros H.
  - (* above the midpoint *)
    split; [ | split; [ lia | lra ] ].
    split; try lra.
    + intros k Hk. apply UP. lra.
    + intros k Hk. assert (k <= m)%Z by (apply DN; lra). lia.
  - (* on the midpoint *)
    assert (C : (round_nearest_even m (loc_Inexact Eq) = m \/
                 round_nearest_even m (loc_Inexact Eq) = m + 1)%Z).
    { cbn [round_nearest_even]. destruct (Z.even m); auto. }
    cbn [round_nearest_even] in C.
    split; [ | split; [ destruct C as [C | C]; rewrite C; lia | lra ] ].
    destruct C as [C | C]; rewrite C; split; try lra.
    + intros k Hk. assert (m + 1 <= k)%Z by (apply UP; lra). lia.
    + intros k Hk. apply DN. lra.
    + intros k Hk. apply UP. lra.
    + intros k Hk. assert (k <= m)%Z by (apply DN; lra). lia.
  - (* below the midpoint *)
    split; [ | split; [ lia | lra ] ].
    split; try lra.
    + intros k Hk. assert (m + 1 <= k)%Z by (apply UP; lra). lia.
    + intros k Hk. apply DN. lra.
  - (* exact *)
    split; [ | split; [ lia | lra ] ].
    split; try lra.
    + intros k Hk. apply lattice_le with e. lra.
    + intros k Hk. apply lattice_le with e. lra.
Qed.

(** ** The rounding step of every operation *)

Lemma shr_nonpos (t : shr_record) (e n : Z) : (n <= 0)%Z -> shr t e n = (t, e).
Proof. destruct n; try reflexivity. lia. Qed.

Lemma Zdigits2_le_53 (m : Z) : (0 < m < 2 ^ 53)%Z -> (Zdigits2 m <= 53)%Z.
Proof.
  intros [H0 H1]. destruct (Zdigits2_bounds m H0) as [Hl _].
  destruct (Z_le_gt_dec (Zdigits2 m) 53) as [ | G ]; [ assumption | ].
  assert (2 ^ 53 <= 2 ^ (Zdigits2 m - 1))%Z by (apply Z.pow_le_mono_r; lia). lia.
Qed.

Lemma encode_result (s : bool) (m1 e1 : Z) :
  (-1074 <= e1)%Z -> (0 <= m1 <= 2 ^ 53)%Z -> (-1074 < e1 -> 2 ^ 52 <= m1)%Z ->
  result_is s m1 e1
    (let '(t2, e2) := shr_fexp prec emax m1 e1 loc_Exact in
     match shr_m t2 with
     | Z0 => S754_zero s
     | Zpos p => if (e2 <=? emax - prec)%Z then S754_finite s p e2
                 else S754_infinity s
     | Zneg _ => S754_nan
     end).
Proof.
  intros He Hm Hn. unfold shr_fexp. rewrite fexp_eq.
  destruct (Z.eq_dec m1 0) as [Z0 | NZ].
  - subst m1. rewrite shr_nonpos by (simpl Zdigits2; lia).
    apply res_zero. reflexivity.
  - destruct (Z.eq_dec m1 (2 ^ 53)) as [T | NT].
    + subst m1. change (Zdigits2 (2 ^ 53)) with 54%Z.
      replace (Z.max (54 + e1 - 53) (-1074) - e1)%Z with 1%Z by lia.
      cbn [shr shr_record_of_loc SpecFloat.iter_pos]. 
      change (shr_m (shr_1 {| shr_m := 2 ^ 53; shr_r := false; shr_s := false |}))
        with (2 ^ 52)%Z.
      change (2 ^ 52)%Z with (Zpos (2 ^ 52)).
      cbv iota.
      assert (V : mag (2 ^ 52) (e1 + 1) == inject_Z (2 ^ 53) * pow2 e1).
      { unfold mag. rewrite pow2_succ. 
        change (inject_Z (2 ^ 53)) with (2 * inject_Z (Zpos (2 ^ 52))). ring. }
      destruct (Z.leb_spec (e1 + 1) (emax - prec)) as [L | G].
      * apply res_finite; [ exact V | reflexivity ].
      * apply res_infinity. change (emax - prec)%Z with 971%Z in G.
        rewrite <- V. apply Qle_trans with (pow2 (e1 + 1 + 52)).
        -- apply pow2_le. lia.
        -- apply mag_ge_pow2; [ reflexivity | lia ].
    + assert (R : (0 < m1 < 2 ^ 53)%Z) by lia.
      pose proof (Zdigits2_le_53 m1 R) as D.
      rewrite shr_nonpos by lia. cbn [shr_record_of_loc shr_m].
      destruct m1 as [ | p | p ]; try lia.
      destruct (Z.leb_spec e1 (emax - prec)) as [L | G].
      * apply res_finite; [ reflexivity | lia ].
      * apply res_infinity. change (emax - prec)%Z with 971%Z in G.
        apply Qle_trans with (pow2 (e1 + 52)).
        -- apply pow2_le. lia.
        -- apply (mag_ge_pow2 p e1 52); [ apply Hn; lia | lia ].
Qed.

Lemma Zdiv_pow2_upper (m d n : Z) :
  (0 <= m < 2 ^ d)%Z -> (0 <= n)%Z -> (d - 53 <= n)%Z -> (0 <= d)%Z ->
  (m / 2 ^ n < 2 ^ 53)%Z.
Proof.
  intros [H0 H1] Hn Hd Hd0.
  assert (P : (0 < 2 ^ n)%Z) by (apply Z.pow_pos_nonneg; lia).
  apply Z.div_lt_upper_bound; [ exact P | ].
  rewrite <- Z.pow_add_r by lia.
  assert (2 ^ d <= 2 ^ (n + 53))%Z by (apply Z.pow_le_mono_r; lia). lia.
Qed.

Lemma Zdiv_pow2_lower (m d : Z) :
  (2 ^ (d - 1) <= m)%Z -> (53 <= d)%Z -> (2 ^ 52 <= m / 2 ^ (d - 53))%Z.
Proof.
  intros H Hd.
  assert (P : (0 < 2 ^ (d - 53))%Z) by (apply Z.pow_pos_nonneg; lia).
  apply Z.div_le_lower_bound; [ exact P | ].
  rewrite <- Z.pow_add_r by lia.
  replace (d - 53 + 52)%Z with (d - 1)%Z by lia. exact H.
Qed.

Theorem binary_round_aux_spec (s : bool) (m e : Z) (l : location) (x : Q) :
  (0 <= m)%Z -> located_loc m e l x ->
  (e <= fexp prec emax (Zdigits2 m + e))%Z ->
  exists m1 e1 : Z,
    Near m1 e1 x /\ (-1074 <= e1)%Z /\ (0 <= m1 <= 2 ^ 53)%Z /\
    (-1074 < e1 -> 2 ^ 52 <= m1)%Z /\
    ((-1074 < e1)%Z -> pow2 (e1 + 52) <= x) /\ 0 <= x /\
    result_is s m1 e1 (binary_round_aux prec emax s m e l).
Proof.
  intros Hm Hl He. unfold binary_round_aux.
  set (e1 := fexp prec emax (Zdigits2 m + e)) in *.
  unfold shr_fexp at 1. fold e1.
  assert (Hm' : (0 <= shr_m (shr_record_of_loc m l))%Z)
    by (rewrite shr_record_of_loc_m; exact Hm).
  pose proof (shr_located _ e (e1 - e) x Hm' Hl) as S.
  destruct (shr (shr_record_of_loc m l) e (e1 - e)) as [t' e'].
  destruct S as (L & P & E' & D).
  rewrite Z.max_l in E', D by lia.
  replace (e + (e1 - e))%Z with e1 in E' by lia. subst e'.
  rewrite shr_record_of_loc_m in D.
  destruct (round_nearest_even_near t' e1 x L) as (N & B & X).
  set (m1 := round_nearest_even (shr_m t') (loc_of_shr_record t')) in *.
  (* bounds on the shifted mantissa *)
  assert (E1 : e1 = Z.max (Zdigits2 m + e - 53) (-1074)) by reflexivity.
  assert (U : (shr_m t' < 2 ^ 53)%Z /\ (-1074 < e1 -> 2 ^ 52 <= shr_m t')%Z).
  { destruct (Z.eq_dec m 0) as [Z0 | NZ].
    - subst m. rewrite D. simpl Zdigits2 in E1. rewrite Z.div_0_l.
      + split; [ reflexivity | intros; lia ].
      + apply Z.pow_nonzero; lia.
    - assert (M : (0 < m)%Z) by lia.
      destruct (Zdigits2_bounds m M) as [Bl Bu].
      pose proof (Zdigits2_pos m M) as Dp.
      split.
      + rewrite D. apply Zdiv_pow2_upper with (d := Zdigits2 m); lia.
      + intros Hn. rewrite D.
        replace (e1 - e)%Z with (Zdigits2 m - 53)%Z by lia.
        apply Zdiv_pow2_lower; [ exact Bl | lia ]. }
  destruct U as [U1 U2].
  exists m1, e1. split; [ exact N | ]. split; [ lia | ]. split; [ lia | ].
  split; [ intros Hn; specialize (U2 Hn); lia | ].
  split; [ | split ].
  - intros Hn. specialize (U2 Hn).
    apply Qle_trans with (inject_Z (shr_m t') * pow2 e1); [ | exact X ].
    rewrite pow2_add, (pow2_Z 52) by lia. rewrite (Qmult_comm (pow2 e1)).
    apply Qmult_le_compat_r; [ | apply Qlt_le_weak, pow2_pos ].
    rewrite <- Zle_Qle. exact U2.
  - apply Qle_trans with (inject_Z (shr_m t') * pow2 e1); [ | exact X ].
    apply Qmult_le_0_compat; [ | apply Qlt_le_weak, pow2_pos ].
    change 0 with (inject_Z 0). rewrite <- Zle_Qle. exact P.
  - apply encode_result; [ lia | lia | ].
    intros Hn. specialize (U2 Hn). lia.
Qed.

(** ** Correct rounding of a non-negative real *)

Lemma result_is_rounded m1 e1 r : result_is false m1 e1 r -> rounded m1 e1 r.
Proof.
  intros [ Z | p e2 V P | I ].
  - apply rounded_zero; assumption.
  - apply rounded_finite; assumption.
  - apply rounded_infinity; assumption.
Qed.

Lemma binary_round_aux_Rounds (m e : Z) (l : location) (x : Q) :
  (0 <= m)%Z -> located_loc m e l x ->
  (e <= fexp prec emax (Zdigits2 m + e))%Z ->
  Rounds x (binary_round_aux prec emax false m e l).
Proof.
  intros Hm Hl He.
  destruct (binary_round_aux_spec false m e l x Hm Hl He)
    as (m1 & e1 & N & E & M & N1 & N2 & X & R).
  exists m1, e1. repeat (split; try assumption).
  apply result_is_rounded. exact R.
Qed.

Lemma Rounds_zero (s : bool) : Rounds 0 (S754_zero s).
Proof.
  exists 0%Z, (-1074)%Z. pose proof (pow2_pos (-1074)) as P.
  split; [ | repeat split; try lia; try lra; try (apply rounded_zero; reflexivity) ].
  split; change (inject_Z 0) with 0; try lra.
  - intros k Hk. apply lattice_le with (-1074)%Z. change (inject_Z 0) with 0. lra.
  - intros k Hk. apply lattice_le with (-1074)%Z. change (inject_Z 0) with 0. lra.
Qed.

Lemma rounded_value m1 e1 r :
  rounded m1 e1 r -> SFfinite r = true -> SF2Q r == inject_Z m1 * pow2 e1.
Proof.
  intros [ s Z | p e2 V P | I ] F; simpl in *.
  - subst m1. change (inject_Z 0) with 0. ring.
  - exact V.
  - discriminate.
Qed.

Lemma rounded_rank_nonneg m1 e1 r : rounded m1 e1 r -> 0 <= SFrank r.
Proof.
  intros [ s Z | p e2 V P | I ]; simpl.
  - lra.
  - apply Qlt_le_weak, mag_pos.
  - apply Qlt_le_weak, pow2_pos.
Qed.

Lemma SFrank_finite x : SFfinite x = true -> SFrank x = SF2Q x.
Proof. destruct x; simpl; intros; try discriminate; reflexivity. Qed.

Lemma SF2Q_lt_max x : valid_binary x = true -> SF2Q x < pow2 1024.
Proof.
  pose proof (pow2_pos 1024).
  destruct x as [ | | | s m e ]; simpl; intros V; try lra.
  pose proof (mag_lt_max _ _ V). pose proof (mag_pos m e). destruct s; lra.
Qed.

(** A multiple of [2^e] that equals a given valid number of exponent at
    least [e]. *)
Lemma mag_as_multiple m ef e :
  (e <= ef)%Z -> mag m ef == inject_Z (Zpos m * 2 ^ (ef - e)) * pow2 e.
Proof.
  intros H. rewrite inject_Z_pow2_mul by lia. unfold mag.
  replace (e + (ef - e))%Z with ef by lia. reflexivity.
Qed.

Theorem Rounds_up (x : Q) (r f : spec_float) :
  Rounds x r -> valid_binary f = true -> SFfinite f = true ->
  x <= SF2Q f -> SFfinite r = true /\ SF2Q r <= SF2Q f.
Proof.
  intros (m1 & e1 & N & E & M & N1 & N2 & X & R) V F H.
  assert (K : inject_Z m1 * pow2 e1 <= SF2Q f).
  { destruct f as [ sf | | | sf mf ef ]; try discriminate; simpl in *.
    - assert (m1 <= 0)%Z by (apply (near_up _ _ _ N); change (inject_Z 0) with 0; lra).
      assert (m1 = 0%Z) by lia. subst m1. change (inject_Z 0) with 0. lra.
    - pose proof (mag_pos mf ef) as Pf. destruct sf; [ lra | ].
      destruct (Z_le_gt_dec e1 ef) as [ L | G ].
      + rewrite (mag_as_multiple mf ef e1 L) in *.
        apply Qmult_le_compat_r; [ | apply Qlt_le_weak, pow2_pos ].
        rewrite <- Zle_Qle. apply (near_up _ _ _ N). exact H.
      + exfalso. destruct (bounded_inv _ _ V) as (U & B & _).
        assert (pow2 (e1 + 52) <= x) by (apply N2; lia).
        assert (mag mf ef < pow2 (ef + 53)) by (apply mag_lt_pow2; [ exact U | lia ]).
        assert (pow2 (ef + 53) <= pow2 (e1 + 52)) by (apply pow2_le; lia).
        lra. }
  pose proof (SF2Q_lt_max f V) as Mx.
  destruct R as [ s Z | p e2 Vp P | I ].
  - split; [ reflexivity | ]. simpl. subst m1. change (inject_Z 0) with 0 in K. lra.
  - split; [ reflexivity | ]. simpl. rewrite Vp. exact K.
  - exfalso. lra.
Qed.

Theorem Rounds_down (x : Q) (r f : spec_float) :
  Rounds x r -> valid_binary f = true -> SFfinite f = true ->
  SF2Q f <= x -> SF2Q f <= SFrank r.
Proof.
  intros (m1 & e1 & N & E & M & N1 & N2 & X & R) V F H.
  pose proof (rounded_rank_nonneg _ _ _ R) as NN.
  destruct f as [ sf | | | sf mf ef ]; try discriminate; simpl SF2Q in *.
  - exact NN.
  - pose proof (mag_pos mf ef) as Pf. destruct sf; [ lra | ].
    assert (K : mag mf ef <= inject_Z m1 * pow2 e1).
    { destruct (Z_le_gt_dec e1 ef) as [ L | G ].
      - rewrite (mag_as_multiple mf ef e1 L) in *.
        apply Qmult_le_compat_r; [ | apply Qlt_le_weak, pow2_pos ].
        rewrite <- Zle_Qle. apply (near_down _ _ _ N). exact H.
      - destruct (bounded_inv _ _ V) as (U & B & _).
        assert (N1' : (2 ^ 52 <= m1)%Z) by (apply N1; lia).
        assert (mag mf ef < pow2 (ef + 53)) by (apply mag_lt_pow2; [ exact U | lia ]).
        assert (pow2 (ef + 53) <= pow2 (e1 + 52)) by (apply pow2_le; lia).
        assert (pow2 (e1 + 52) <= inject_Z m1 * pow2 e1).
        { rewrite pow2_add, (pow2_Z 52) by lia. rewrite (Qmult_comm (pow2 e1)).
          apply Qmult_le_compat_r; [ | apply Qlt_le_weak, pow2_pos ].
          rewrite <- Zle_Qle. exact N1'. }
        lra. }
    destruct R as [ s Z | p e2 Vp P | I ]; simpl SFrank.
    + subst m1. change (inject_Z 0) with 0 in K. lra.
    + rewrite Vp. exact K.
    + pose proof (mag_lt_max _ _ V). lra.
Qed.

Theorem Rounds_rel (x : Q) (r : spec_float) :
  Rounds x r -> pow2 (-1022) <= x -> SFfinite r = true ->
  x - u64 * x <= SF2Q r /\ SF2Q r <= x + u64 * x.
Proof.
  intros (m1 & e1 & N & E & M & N1 & N2 & X & R) H F.
  rewrite (rounded_value _ _ _ R F).
  assert (B : pow2 (e1 + 52) <= x).
  { destruct (Z.eq_dec e1 (-1074)) as [ -> | NE ]; [ exact H | apply N2; lia ]. }
  assert (W : (1 # 2) * pow2 e1 == u64 * pow2 (e1 + 52)).
  { unfold u64. rewrite <- pow2_add.
    replace (-53 + (e1 + 52))%Z with (e1 + -1)%Z by lia.
    rewrite pow2_add. change (pow2 (-1)) with (1 # 2). ring. }
  assert (U : 0 <= u64) by (apply Qlt_le_weak, pow2_pos).
  assert (u64 * pow2 (e1 + 52) <= u64 * x).
  { rewrite !(Qmult_comm u64). apply Qmult_le_compat_r; assumption. }
  destruct N as [Lo Hi _ _]. split; lra.
Qed.

Lemma Rounds_ext (x x' : Q) (r : spec_float) :
  x == x' -> Rounds x r -> Rounds x' r.
Proof.
  intros E (m1 & e1 & [Lo Hi Up Dn] & H).
  exists m1, e1. split.
  - split; try lra.
    + intros k Hk. apply Up. lra.
    + intros k Hk. apply Dn. lra.
  - destruct H as (A & B & C & D & X & R).
    repeat (split; try assumption); try lra.
    intros G. specialize (D G). lra.
Qed.

(** A valid non-negative number is its own rounding. *)
Lemma Rounds_exact (m : positive) (e : Z) :
  bounded prec emax m e = true -> Rounds (mag m e) (S754_finite false m e).
Proof.
  intros V. destruct (bounded_inv _ _ V) as (U & B & N).
  pose proof (pow2_pos e) as P.
  exists (Zpos m), e. split; [ | repeat split; try lia ].
  - unfold mag. split; try lra.
    + intros k Hk. apply lattice_le with e. exact Hk.
    + intros k Hk. apply lattice_le with e. exact Hk.
  - intros G. apply mag_ge_pow2; [ apply N; exact G | lia ].
  - apply Qlt_le_weak, mag_pos.
  - apply rounded_finite; [ reflexivity | lia ].
Qed.

(** ** Digits of products and shifts *)

Lemma Zdigits2_gt (m k : Z) : (0 <= k)%Z -> (2 ^ k <= m)%Z -> (k < Zdigits2 m)%Z.
Proof.
  intros Hk H.
  assert (M : (0 < m)%Z).
  { assert (0 < 2 ^ k)%Z by (apply Z.pow_pos_nonneg; lia). lia. }
  destruct (Zdigits2_bounds m M) as [_ Hu].
  apply (Z.pow_lt_mono_r_iff 2); [ lia | | lia ].
  pose proof (Zdigits2_pos m M). lia.
Qed.

Lemma Zdigits2_shift (m : positive) (k : Z) :
  (0 <= k)%Z -> Zdigits2 (Zpos m * 2 ^ k) = (Zdigits2 (Zpos m) + k)%Z.
Proof.
  intros Hk. destruct (Zdigits2_bounds (Zpos m)) as [Hl Hu]; [ lia | ].
  pose proof (Zdigits2_pos (Zpos m)) as Dp.
  assert (P : (0 < 2 ^ k)%Z) by (apply Z.pow_pos_nonneg; lia).
  apply Zdigits2_unique; [ lia | ].
  replace (Zdigits2 (Zpos m) + k - 1)%Z with (Zdigits2 (Zpos m) - 1 + k)%Z by lia.
  rewrite !Z.pow_add_r by lia. nia.
Qed.

Lemma canonical_digits (m : positive) (e : Z) :
  bounded prec emax m e = true ->
  (Zdigits2 (Zpos m) <= 53)%Z /\ (-1074 <= e)%Z /\
  (-1074 < e -> Zdigits2 (Zpos m) = 53)%Z.
Proof.
  unfold bounded, canonical_mantissa. rewrite fexp_eq. simpl Zdigits2.
  intros H. apply andb_prop in H. destruct H as [H1 _].
  apply Z.eqb_eq in H1. lia.
Qed.

(** ** Multiplication *)

Lemma SFmul_Rounds (mx my : positive) (ex ey : Z) :
  bounded prec emax mx ex = true -> bounded prec emax my ey = true ->
  Rounds (mag mx ex * mag my ey)
         (SFmul prec emax (S754_finite false mx ex) (S754_finite false my ey)).
Proof.
  intros Vx Vy. cbn [SFmul xorb].
  apply binary_round_aux_Rounds.
  - lia.
  - unfold located_loc, located_rec, located. cbn [shr_record_of_loc shr_m shr_r shr_s].
    unfold mag. rewrite Pos2Z.inj_mul, inject_Z_mult, pow2_add. ring.
  - rewrite fexp_eq.
    destruct (canonical_digits _ _ Vx) as (Dx & Ex & Nx).
    destruct (canonical_digits _ _ Vy) as (Dy & Ey & Ny).
    destruct (Zdigits2_bounds (Zpos mx)) as [Lx _]; [ lia | ].
    destruct (Zdigits2_bounds (Zpos my)) as [Ly _]; [ lia | ].
    pose proof (Zdigits2_pos (Zpos mx)) as Px.
    pose proof (Zdigits2_pos (Zpos my)) as Py.
    assert (G : (Zdigits2 (Zpos mx) + Zdigits2 (Zpos my) - 2 <
                 Zdigits2 (Zpos (mx * my)))%Z).
    { apply Zdigits2_gt; [ lia | ].
      replace (Zdigits2 (Zpos mx) + Zdigits2 (Zpos my) - 2)%Z
        with ((Zdigits2 (Zpos mx) - 1) + (Zdigits2 (Zpos my) - 1))%Z by lia.
      rewrite Z.pow_add_r by lia. rewrite Pos2Z.inj_mul.
      apply Z.mul_le_mono_nonneg; try assumption; apply Z.pow_nonneg; lia. }
    destruct (Z_le_gt_dec ex (-1074)), (Z_le_gt_dec ey (-1074)); lia.
Qed.

(** ** Addition and subtraction *)

Lemma shl_align_spec (m : positive) (e t : Z) :
  let '(m', e') := shl_align m e t in
  e' = Z.min e t /\ Zpos m' = (Zpos m * 2 ^ (e - e'))%Z.
Proof.
  unfold shl_align. destruct (t - e)%Z as [ | d | d ] eqn:D.
  - split; [ lia | ]. rewrite Z.sub_diag. simpl. lia.
  - split; [ lia | ]. rewrite Z.sub_diag. simpl. lia.
  - split; [ lia | ].
    replace (e - t)%Z with (Zpos d) by lia.
    change (Pos.iter xO m d) with (shift_pos d m).
    rewrite shift_pos_correct. change (2 ^ Zpos d)%Z with (Z.pow_pos 2 d). lia.
Qed.

Lemma shl_align_mag (m : positive) (e t : Z) :
  mag (fst (shl_align m e t)) (Z.min e t) == mag m e.
Proof.
  pose proof (shl_align_spec m e t) as S.
  destruct (shl_align m e t) as [m' e']. destruct S as [E M]. subst e'.
  cbn [fst]. unfold mag. rewrite M.
  rewrite inject_Z_pow2_mul by lia.
  replace (Z.min e t + (e - Z.min e t))%Z with e by lia. reflexivity.
Qed.

Lemma binary_round_Rounds (m : positive) (e : Z) :
  Rounds (mag m e) (binary_round prec emax false m e).
Proof.
  unfold binary_round.
  set (t := fexp prec emax (Zpos (digits2_pos m) + e)).
  pose proof (shl_align_spec m e t) as S.
  pose proof (shl_align_mag m e t) as V.
  destruct (shl_align m e t) as [mz ez]. destruct S as [E M]. cbn [fst] in V.
  apply binary_round_aux_Rounds.
  - lia.
  - unfold located_loc, located_rec, located. cbn [shr_record_of_loc shr_m shr_r shr_s].
    fold (mag mz ez). rewrite E. symmetry. exact V.
  - rewrite M. rewrite Zdigits2_shift by lia.
    replace (Zdigits2 (Zpos m) + (e - ez) + ez)%Z with (Zpos (digits2_pos m) + e)%Z
      by (simpl Zdigits2; lia).
    fold t. lia.
Qed.

Lemma binary_normalize_Rounds (m e : Z) :
  (0 <= m)%Z ->
  Rounds (inject_Z m * pow2 e) (binary_normalize prec emax m e false).
Proof.
  intros Hm. destruct m as [ | p | p ]; try lia; cbn [binary_normalize].
  - apply Rounds_ext with 0; [ change (inject_Z 0) with 0; ring | apply Rounds_zero ].
  - apply binary_round_Rounds.
Qed.

Lemma SFadd_Rounds (mx my : positive) (ex ey : Z) :
  Rounds (mag mx ex + mag my ey)
         (SFadd prec emax (S754_finite false mx ex) (S754_finite false my ey)).
Proof.
  cbn [SFadd cond_Zopp].
  set (ez := Z.min ex ey).
  pose proof (shl_align_mag mx ex ez) as Vx.
  pose proof (shl_align_mag my ey ez) as Vy.
  replace (Z.min ex ez) with ez in Vx by lia.
  replace (Z.min ey ez) with ez in Vy by lia.
  set (ax := fst (shl_align mx ex ez)) in *.
  set (ay := fst (shl_align my ey ez)) in *.
  eapply Rounds_ext; [ | apply binary_normalize_Rounds; lia ].
  rewrite inject_Z_plus.
  rewrite <- Vx, <- Vy. unfold mag. ring.
Qed.

Lemma SFsub_Rounds (mx my : positive) (ex ey : Z) :
  mag my ey <= mag mx ex ->
  Rounds (mag mx ex - mag my ey)
         (SFsub prec emax (S754_finite false mx ex) (S754_finite false my ey)).
Proof.
  intros H. cbn [SFsub cond_Zopp].
  set (ez := Z.min ex ey).
  pose proof (shl_align_mag mx ex ez) as Vx.
  pose proof (shl_align_mag my ey ez) as Vy.
  replace (Z.min ex ez) with ez in Vx by lia.
  replace (Z.min ey ez) with ez in Vy by lia.
  set (ax := fst (shl_align mx ex ez)) in *.
  set (ay := fst (shl_align my ey ez)) in *.
  assert (L : (Zpos ay <= Zpos ax)%Z).
  { apply lattice_le with ez. fold (mag ay ez). fold (mag ax ez). lra. }
  eapply Rounds_ext; [ | apply binary_normalize_Rounds; lia ].
  unfold Z.sub. rewrite inject_Z_plus, inject_Z_opp.
  rewrite <- Vx, <- Vy. unfold mag. ring.
Qed.

(** ** Division *)

Lemma Zdigits2_nonneg (m : Z) : (0 <= Zdigits2 m)%Z.
Proof. destruct m; simpl; lia. Qed.

(** The position of the fraction [r / d] with respect to one half. *)
Lemma fraction_position (r d : Z) :
  (0 < r < d)%Z ->
  let f := inject_Z r / inject_Z d in
  0 < f /\ f < 1 /\
  ((2 * r < d)%Z -> f < 1 # 2) /\
  ((2 * r = d)%Z -> f == 1 # 2) /\
  ((d < 2 * r)%Z -> 1 # 2 < f).
Proof.
  intros [Hr Hd]. cbv zeta.
  assert (D : 0 < inject_Z d) by (change 0 with (inject_Z 0); rewrite <- Zlt_Qlt; lia).
  assert (R : 0 < inject_Z r) by (change 0 with (inject_Z 0); rewrite <- Zlt_Qlt; lia).
  assert (RD : inject_Z r < inject_Z d) by (rewrite <- Zlt_Qlt; lia).
  assert (T : inject_Z (2 * r) == 2 * inject_Z r) by (rewrite inject_Z_mult; reflexivity).
  split; [ | split; [ | split; [ | split ] ] ].
  - apply Qlt_shift_div_l; [ exact D | lra ].
  - apply Qlt_shift_div_r; [ exact D | lra ].
  - intros H. rewrite Zlt_Qlt, T in H.
    apply Qlt_shift_div_r; [ exact D | lra ].
  - intros H. assert (H' : inject_Z (2 * r) == inject_Z d) by (rewrite H; reflexivity).
    rewrite T in H'. rewrite <- H'. field.
    intros Z. rewrite Z in R. lra.
  - intros H. rewrite Zlt_Qlt, T in H.
    apply Qlt_shift_div_l; [ exact D | lra ].
Qed.

Lemma new_location_located (d r q : Z) (e : Z) :
  (0 < d)%Z -> (0 <= r < d)%Z ->
  located_loc q e (new_location d r)
    ((inject_Z q + inject_Z r / inject_Z d) * pow2 e).
Proof.
  intros Hd Hr. pose proof (pow2_pos e) as P.
  unfold located_loc, located_rec.
  destruct (Z.eq_dec r 0) as [ -> | NZ ].
  - assert (E : new_location d 0 = loc_Exact).
    { unfold new_location, new_location_even, new_location_odd.
      destruct (Z.even d); reflexivity. }
    rewrite E. unfold located. cbn [shr_record_of_loc shr_m shr_r shr_s].
    change (inject_Z 0) with 0. unfold Qdiv. ring.
  - destruct (fraction_position r d) as (F0 & F1 & FL & FE & FG); [ lia | ].
    set (f := inject_Z r / inject_Z d) in *.
    assert (W : (inject_Z q + f) * pow2 e == inject_Z q * pow2 e + f * pow2 e) by ring.
    assert (W0 : 0 < f * pow2 e) by (apply Qmult_lt_0_compat; assumption).
    assert (W1 : f * pow2 e < pow2 e).
    { rewrite <- (Qmult_1_l (pow2 e)) at 2. apply Qmult_lt_compat_r; assumption. }
    assert (WL : f < 1 # 2 -> f * pow2 e < (1 # 2) * pow2 e)
      by (intros; apply Qmult_lt_compat_r; assumption).
    assert (WG : 1 # 2 < f -> (1 # 2) * pow2 e < f * pow2 e)
      by (intros; apply Qmult_lt_compat_r; assumption).
    assert (WE : f == 1 # 2 -> f * pow2 e == (1 # 2) * pow2 e)
      by (intros Q; rewrite Q; reflexivity).
    unfold new_location, new_location_even, new_location_odd.
    destruct (Z.even d) eqn:Ev;
      (destruct (Z.eqb_spec r 0) as [ | _ ]; [ contradiction | ]).
    + destruct (Z.compare_spec (2 * r) d) as [ C | C | C ];
        unfold located; cbn [shr_record_of_loc shr_m shr_r shr_s].
      * specialize (WE (FE C)). lra.
      * specialize (WL (FL C)). lra.
      * specialize (WG (FG C)). lra.
    + assert (Od : (2 * r <> d)%Z).
      { intros Q. rewrite <- Q in Ev. rewrite Z.even_mul in Ev. discriminate. }
      destruct (Z.compare_spec (2 * r + 1) d) as [ C | C | C ];
        unfold located; cbn [shr_record_of_loc shr_m shr_r shr_s].
      * assert (C' : (2 * r < d)%Z) by lia. specialize (WL (FL C')). lra.
      * assert (C' : (2 * r < d)%Z) by lia. specialize (WL (FL C')). lra.
      * assert (C' : (d < 2 * r)%Z) by lia. specialize (WG (FG C')). lra.
Qed.

Lemma SFdiv_core_binary_spec (mx my : positive) (ex ey : Z) :
  let '(q, e', l) := SFdiv_core_binary prec emax (Zpos mx) ex (Zpos my) ey in
  (0 <= q)%Z /\ located_loc q e' l (mag mx ex / mag my ey) /\
  (e' <= fexp prec emax (Zdigits2 q + e'))%Z.
Proof.
  unfold SFdiv_core_binary.
  set (d1 := Zdigits2 (Zpos mx)). set (d2 := Zdigits2 (Zpos my)).
  set (e' := Z.min (fexp prec emax (d1 + ex - (d2 + ey))) (ex - ey)).
  set (s := (ex - ey - e')%Z).
  assert (Hs : (0 <= s)%Z) by (unfold s, e'; lia).
  assert (Es : s = (ex - ey - e')%Z) by reflexivity. clearbody s.
  set (m' := match s with Zpos _ => Z.shiftl (Zpos mx) s | Z0 => Zpos mx | Zneg _ => 0%Z end).
  assert (Hm' : m' = (Zpos mx * 2 ^ s)%Z).
  { unfold m'. destruct s as [ | p | p ]; try lia.
    rewrite Z.shiftl_mul_pow2 by lia. reflexivity. }
  clearbody m'.
  pose proof (Z_div_mod m' (Zpos my)) as DM.
  destruct (Z.div_eucl m' (Zpos my)) as [q r] eqn:DE.
  destruct DM as [EQ RG]; [ lia | ].
  assert (P2 : (0 < 2 ^ s)%Z) by (apply Z.pow_pos_nonneg; lia).
  assert (Hq : (0 <= q)%Z) by nia.
  split; [ exact Hq | split ].
  - pose proof (new_location_located (Zpos my) r q e') as L.
    assert (X : mag mx ex / mag my ey ==
                (inject_Z q + inject_Z r / inject_Z (Zpos my)) * pow2 e').
    { unfold mag. replace ex with (ey + (e' + s))%Z at 1 by lia.
      rewrite !pow2_add. rewrite (pow2_Z s Hs).
      assert (I : inject_Z (Zpos mx) * inject_Z (2 ^ s) ==
                  inject_Z (Zpos my) * inject_Z q + inject_Z r).
      { rewrite <- !inject_Z_mult, <- inject_Z_plus, <- EQ, Hm'. reflexivity. }
      assert (NZ : ~ inject_Z (Zpos my) == 0).
      { intros Z. apply inject_Z_injective in Z. discriminate. }
      assert (NP : ~ pow2 ey == 0) by (pose proof (pow2_pos ey); lra).
      transitivity ((inject_Z (Zpos mx) * inject_Z (2 ^ s)) / inject_Z (Zpos my) * pow2 e').
      - field. split; assumption.
      - rewrite I. field. exact NZ. }
    unfold located_loc, located_rec, located in *.
    destruct (new_location (Zpos my) r) as [ | [ | | ] ];
      cbn [shr_record_of_loc shr_m shr_r shr_s] in *;
      (specialize (L ltac:(lia) ltac:(lia))); lra.
  - rewrite !fexp_eq in *. fold d1 d2 in e'.
    assert (G : (d1 + s - d2 <= Zdigits2 q)%Z).
    { pose proof (Zdigits2_nonneg q) as Q0.
      destruct (Z_le_gt_dec (d1 + s - d2) 0) as [ | G ]; [ lia | ].
      assert (K : (d1 + s - d2 - 1 < Zdigits2 q)%Z); [ | lia ].
      apply Zdigits2_gt; [ lia | ].
      assert (Q : q = (m' / Zpos my)%Z).
      { unfold Z.div. rewrite DE. reflexivity. }
      rewrite Q. apply Z.div_le_lower_bound; [ lia | ].
      destruct (Zdigits2_bounds (Zpos mx)) as [L1 _]; [ lia | ].
      destruct (Zdigits2_bounds (Zpos my)) as [_ U2]; [ lia | ].
      fold d1 in L1. fold d2 in U2.
      pose proof (Zdigits2_pos (Zpos mx)) as P1. fold d1 in P1.
      pose proof (Zdigits2_pos (Zpos my)) as P3. fold d2 in P3.
      assert (T : (2 ^ d2 * 2 ^ (d1 + s - d2 - 1) = 2 ^ (d1 - 1) * 2 ^ s)%Z).
      { rewrite <- !Z.pow_add_r by lia. f_equal. lia. }
      assert (0 < 2 ^ (d1 + s - d2 - 1))%Z by (apply Z.pow_pos_nonneg; lia).
      assert (H0 : (Zpos my * 2 ^ (d1 + s - d2 - 1) <= 2 ^ d2 * 2 ^ (d1 + s - d2 - 1))%Z)
        by (apply Z.mul_le_mono_nonneg_r; lia).
      assert (H1 : (2 ^ (d1 - 1) * 2 ^ s <= Zpos mx * 2 ^ s)%Z)
        by (apply Z.mul_le_mono_nonneg_r; lia).
      rewrite Hm'. rewrite T in H0. exact (Z.le_trans _ _ _ H0 H1). }
    assert (Ee : e' = Z.min (Z.max (d1 + ex - (d2 + ey) - 53) (-1074)) (ex - ey))
      by reflexivity.
    clearbody e' d1 d2. lia.
Qed.

Lemma SFdiv_Rounds (mx my : positive) (ex ey : Z) :
  Rounds (mag mx ex / mag my ey)
         (SFdiv prec emax (S754_finite false mx ex) (S754_finite false my ey)).
Proof.
  cbn [SFdiv xorb].
  pose proof (SFdiv_core_binary_spec mx my ex ey) as S.
  destruct (SFdiv_core_binary prec emax (Zpos mx) ex (Zpos my) ey) as [[q e'] l].
  destruct S as (Hq & L & E).
  apply binary_round_aux_Rounds; assumption.
Qed.

(** ** Signs

    The sign of a rounded result is the sign handed to the rounding step,
    and taking the absolute value commutes with it. *)

Lemma binary_round_aux_sign (s : bool) (m e : Z) (l : location) :
  (0 <= m)%Z ->
  SFclass s (binary_round_aux prec emax s m e l) \/
  binary_round_aux prec emax s m e l = S754_nan.
Proof.
  intros _. unfold binary_round_aux.
  destruct (shr_fexp prec emax m e l) as [t1 e1].
  destruct (shr_fexp prec emax _ e1 loc_Exact) as [t2 e2].
  destruct (shr_m t2) as [ | p | p ].
  - left. left. reflexivity.
  - left. destruct (e2 <=? emax - prec)%Z.
    + right; left. exists p, e2. reflexivity.
    + right; right. reflexivity.
  - right. reflexivity.
Qed.

Lemma SFabs_binary_round_aux (s : bool) (m e : Z) (l : location) :
  SFabs (binary_round_aux prec emax s m e l) = binary_round_aux prec emax false m e l.
Proof.
  unfold binary_round_aux.
  destruct (shr_fexp prec emax m e l) as [t1 e1].
  destruct (shr_fexp prec emax _ e1 loc_Exact) as [t2 e2].
  destruct (shr_m t2) as [ | p | p ]; try reflexivity.
  destruct (e2 <=? emax - prec)%Z; reflexivity.
Qed.

Lemma SFabs_binary_round (s : bool) (m : positive) (e : Z) :
  SFabs (binary_round prec emax s m e) = binary_round prec emax false m e.
Proof.
  unfold binary_round. destruct (shl_align m e _) as [mz ez].
  apply SFabs_binary_round_aux.
Qed.

Lemma Rounds_not_nan (q : Q) (r : spec_float) : Rounds q r -> r <> S754_nan.
Proof.
  intros (m1 & e1 & _ & _ & _ & _ & _ & _ & R) E. subst r. inversion R.
Qed.

Lemma binary_round_aux_class (m e : Z) (l : location) (x : Q) :
  (0 <= m)%Z -> Rounds x (binary_round_aux prec emax false m e l) ->
  SFclass false (binary_round_aux prec emax false m e l).
Proof.
  intros Hm R. destruct (binary_round_aux_sign false m e l Hm) as [ C | N ].
  - exact C.
  - exfalso. exact (Rounds_not_nan _ _ R N).
Qed.

Lemma SFmul_class (mx my : positive) (ex ey : Z) :
  bounded prec emax mx ex = true -> bounded prec emax my ey = true ->
  SFclass false
    (SFmul prec emax (S754_finite false mx ex) (S754_finite false my ey)).
Proof.
  intros Vx Vy. pose proof (SFmul_Rounds mx my ex ey Vx Vy) as R.
  cbn [SFmul xorb] in *. eapply binary_round_aux_class; [ lia | exact R ].
Qed.

Lemma binary_round_class (m : positive) (e : Z) :
  SFclass false (binary_round prec emax false m e).
Proof.
  pose proof (binary_round_Rounds m e) as R. unfold binary_round in *.
  destruct (shl_align m e _) as [mz ez].
  eapply binary_round_aux_class; [ lia | exact R ].
Qed.

Lemma SFadd_class (mx my : positive) (ex ey : Z) :
  SFclass false
    (SFadd prec emax (S754_finite false mx ex) (S754_finite false my ey)).
Proof. cbn [SFadd cond_Zopp]. apply binary_round_class. Qed.

Lemma SFdiv_class (mx my : positive) (ex ey : Z) :
  SFclass false
    (SFdiv prec emax (S754_finite false mx ex) (S754_finite false my ey)).
Proof.
  pose proof (SFdiv_Rounds mx my ex ey) as R. cbn [SFdiv xorb] in *.
  pose proof (SFdiv_core_binary_spec mx my ex ey) as S.
  destruct (SFdiv_core_binary prec emax (Zpos mx) ex (Zpos my) ey) as [[q e'] l].
  destruct S as (Hq & _). eapply binary_round_aux_class; [ exact Hq | exact R ].
Qed.

Lemma SFabs_binary_normalize (m e : Z) :
  SFabs (binary_normalize prec emax m e false) =
  binary_normalize prec emax (Z.abs m) e false.
Proof.
  destruct m as [ | p | p ]; cbn [binary_normalize Z.abs SFabs].
  - reflexivity.
  - apply SFabs_binary_round.
  - apply SFabs_binary_round.
Qed.

(** The absolute value of a difference rounds the distance. *)
Lemma SFabs_sub_Rounds (mx my : positive) (ex ey : Z) :
  Rounds (Qabs (mag mx ex - mag my ey))
    (SFabs (SFsub prec emax (S754_finite false mx ex) (S754_finite false my ey))).
Proof.
  cbn [SFsub cond_Zopp]. rewrite SFabs_binary_normalize.
  set (ez := Z.min ex ey).
  pose proof (shl_align_mag mx ex ez) as Vx.
  pose proof (shl_align_mag my ey ez) as Vy.
  replace (Z.min ex ez) with ez in Vx by lia.
  replace (Z.min ey ez) with ez in Vy by lia.
  set (ax := fst (shl_align mx ex ez)) in *.
  set (ay := fst (shl_align my ey ez)) in *.
  eapply Rounds_ext; [ | apply binary_normalize_Rounds; lia ].
  rewrite <- Vx, <- Vy. unfold mag.
  pose proof (pow2_pos ez) as P.
  assert (D : inject_Z (Zpos ax) * pow2 ez - inject_Z (Zpos ay) * pow2 ez ==
              inject_Z (Zpos ax - Zpos ay) * pow2 ez).
  { unfold Z.sub. rewrite inject_Z_plus, inject_Z_opp. ring. }
  rewrite D.
  destruct (Z_le_gt_dec 0 (Zpos ax - Zpos ay)) as [ G | G ].
  - rewrite Z.abs_eq by lia. rewrite Qabs_pos; [ reflexivity | ].
    apply Qmult_le_0_compat; [ | lra ].
    change 0 with (inject_Z 0). rewrite <- Zle_Qle. exact G.
  - rewrite Z.abs_neq by lia. rewrite Qabs_neg.
    + rewrite inject_Z_opp. ring.
    + assert (inject_Z (Zpos ax - Zpos ay) <= 0).
      { change 0 with (inject_Z 0). rewrite <- Zle_Qle. lia. }
      setoid_replace 0 with (0 * pow2 ez) by ring.
      apply Qmult_le_compat_r; lra.
Qed.

(** * Binary64 arithmetic on primitive floats *)

Local Open Scope float_scope.

Lemma finite_number x : finite x -> number x.
Proof. unfold finite, number. destruct (Prim2SF x); simpl; congruence. Qed.

Lemma rank_finite x : finite x -> rank x = B2Q x.
Proof. apply SFrank_finite. Qed.

Lemma compare_rank (x y : float) :
  SFcompare (Prim2SF x) (Prim2SF y) =
  match Prim2SF x, Prim2SF y with
  | S754_nan, _ | _, S754_nan => None
  | _, _ => Some (rank x ?= rank y)%Q
  end.
Proof. apply SFcompare_rank; apply Prim2SF_valid. Qed.

Lemma ltb_rank (x y : float) :
  (x <? y) = true <-> number x /\ number y /\ (rank x < rank y)%Q.
Proof.
  rewrite FloatAxioms.ltb_spec. unfold SFltb. rewrite compare_rank. unfold number.
  destruct (Qcompare_spec (rank x) (rank y)) as [ H | H | H ];
    destruct (Prim2SF x), (Prim2SF y); split;
    try discriminate; try (intros (A & B & C); try congruence; lra);
    try (intros _; repeat split; try discriminate; exact H).
Qed.

Lemma leb_rank (x y : float) :
  (x <=? y) = true <-> number x /\ number y /\ (rank x <= rank y)%Q.
Proof.
  rewrite FloatAxioms.leb_spec. unfold SFleb. rewrite compare_rank. unfold number.
  destruct (Qcompare_spec (rank x) (rank y)) as [ H | H | H ];
    destruct (Prim2SF x), (Prim2SF y); split;
    try discriminate; try (intros (A & B & C); try congruence; lra);
    try (intros _; repeat split; try discriminate; lra).
Qed.

Lemma eqb_rank (x y : float) :
  (x =? y) = true <-> number x /\ number y /\ (rank x == rank y)%Q.
Proof.
  rewrite FloatAxioms.eqb_spec. unfold SFeqb. rewrite compare_rank. unfold number.
  destruct (Qcompare_spec (rank x) (rank y)) as [ H | H | H ];
    destruct (Prim2SF x), (Prim2SF y); split;
    try discriminate; try (intros (A & B & C); try congruence; lra);
    try (intros _; repeat split; try discriminate; lra).
Qed.

Lemma ltb_asym (x y : float) : (x <? y) = true -> (y <? x) = false.
Proof.
  intros H. apply ltb_rank in H. destruct H as (_ & _ & H).
  destruct (y <? x) eqn:E; [ | reflexivity ].
  apply ltb_rank in E. destruct E as (_ & _ & E). lra.
Qed.

Lemma rank_bounds (x : float) : (- pow2 1024 <= rank x <= pow2 1024)%Q.
Proof.
  unfold rank. pose proof (Prim2SF_valid x) as V. pose proof (pow2_pos 1024).
  destruct (Prim2SF x) as [ s | s | | s m e ]; simpl in *.
  - lra.
  - destruct s; lra.
  - lra.
  - pose proof (mag_lt_max _ _ V). pose proof (mag_pos m e). destruct s; lra.
Qed.

Lemma rank_lt_finite (x : float) :
  number x -> (- pow2 1024 < rank x < pow2 1024)%Q -> finite x.
Proof.
  unfold number, rank, finite. pose proof (pow2_pos 1024).
  destruct (Prim2SF x) as [ s | s | | s m e ]; simpl; intros N R;
    try reflexivity; try congruence.
  destruct s; lra.
Qed.

Lemma ltb_finite (x y : float) :
  finite x -> finite y -> ((x <? y) = true <-> (B2Q x < B2Q y)%Q).
Proof.
  intros Fx Fy. rewrite ltb_rank, !rank_finite by assumption.
  split; [ tauto | ]. intros H. repeat split; auto using finite_number.
Qed.

Lemma leb_finite (x y : float) :
  finite x -> finite y -> ((x <=? y) = true <-> (B2Q x <= B2Q y)%Q).
Proof.
  intros Fx Fy. rewrite leb_rank, !rank_finite by assumption.
  split; [ tauto | ]. intros H. repeat split; auto using finite_number.
Qed.

(** A number between two finite numbers is finite. *)
Lemma between_finite (lo x hi : float) :
  finite lo -> finite hi -> (lo <=? x) = true -> (x <=? hi) = true ->
  finite x /\ (B2Q lo <= B2Q x <= B2Q hi)%Q.
Proof.
  intros Fl Fh L H. apply leb_rank in L, H.
  destruct L as (_ & Nx & L). destruct H as (_ & _ & H).
  rewrite (rank_finite lo Fl) in L. rewrite (rank_finite hi Fh) in H.
  pose proof (SF2Q_lt_max _ (Prim2SF_valid hi)) as Mh. fold (B2Q hi) in Mh.
  assert (Ml : (- pow2 1024 < B2Q lo)%Q).
  { unfold B2Q. pose proof (Prim2SF_valid lo) as V. pose proof (pow2_pos 1024).
    unfold finite in Fl.
    destruct (Prim2SF lo) as [ s | s | | s m e ]; simpl in *; try discriminate; try lra.
    pose proof (mag_lt_max _ _ V). pose proof (mag_pos m e). destruct s; lra. }
  assert (F : finite x) by (apply rank_lt_finite; [ exact Nx | lra ]).
  split; [ exact F | ]. rewrite <- (rank_finite x F). lra.
Qed.

(** The shape of a finite non-negative number. *)
Lemma nonneg_cases (x : float) :
  finite x -> (0 <= B2Q x)%Q ->
  (exists s, Prim2SF x = S754_zero s) \/
  (exists m e, Prim2SF x = S754_finite false m e /\ bounded prec emax m e = true).
Proof.
  unfold finite, B2Q. pose proof (Prim2SF_valid x) as V.
  destruct (Prim2SF x) as [ s | s | | s m e ]; simpl in *; intros F N; try discriminate.
  - left. exists s. reflexivity.
  - right. destruct s.
    + pose proof (mag_pos m e). lra.
    + exists m, e. split; [ reflexivity | exact V ].
Qed.

(** *** The four operations round correctly *)

Theorem mul_Rounds (x y : float) :
  finite x -> finite y -> (0 <= B2Q x)%Q -> (0 <= B2Q y)%Q ->
  Rounds (B2Q x * B2Q y) (Prim2SF (x * y)).
Proof.
  intros Fx Fy Nx Ny. rewrite mul_spec. unfold SF64mul, B2Q.
  destruct (nonneg_cases x Fx Nx) as [ (sx & Ex) | (mx & ex & Ex & Vx) ];
    destruct (nonneg_cases y Fy Ny) as [ (sy & Ey) | (my & ey & Ey & Vy) ];
    rewrite Ex, Ey; cbn [SFmul SF2Q].
  - apply Rounds_ext with 0%Q; [ ring | apply Rounds_zero ].
  - apply Rounds_ext with 0%Q; [ ring | apply Rounds_zero ].
  - apply Rounds_ext with 0%Q; [ ring | apply Rounds_zero ].
  - apply SFmul_Rounds; assumption.
Qed.

Theorem add_Rounds (x y : float) :
  finite x -> finite y -> (0 <= B2Q x)%Q -> (0 <= B2Q y)%Q ->
  Rounds (B2Q x + B2Q y) (Prim2SF (x + y)).
Proof.
  intros Fx Fy Nx Ny. rewrite add_spec. unfold SF64add, B2Q.
  destruct (nonneg_cases x Fx Nx) as [ (sx & Ex) | (mx & ex & Ex & Vx) ];
    destruct (nonneg_cases y Fy Ny) as [ (sy & Ey) | (my & ey & Ey & Vy) ];
    rewrite Ex, Ey; cbn [SFadd SF2Q].
  - apply Rounds_ext with 0%Q; [ ring | ].
    destruct sx, sy; apply Rounds_zero.
  - apply Rounds_ext with (mag my ey); [ ring | apply Rounds_exact; exact Vy ].
  - apply Rounds_ext with (mag mx ex); [ ring | apply Rounds_exact; exact Vx ].
  - apply SFadd_Rounds.
Qed.

Theorem sub_Rounds (x y : float) :
  finite x -> finite y -> (0 <= B2Q y)%Q -> (B2Q y <= B2Q x)%Q ->
  Rounds (B2Q x - B2Q y) (Prim2SF (x - y)).
Proof.
  intros Fx Fy Ny L. assert (Nx : (0 <= B2Q x)%Q) by lra.
  revert L. rewrite sub_spec. unfold SF64sub, B2Q.
  destruct (nonneg_cases x Fx Nx) as [ (sx & Ex) | (mx & ex & Ex & Vx) ];
    destruct (nonneg_cases y Fy Ny) as [ (sy & Ey) | (my & ey & Ey & Vy) ];
    rewrite Ex, Ey; cbn [SFsub SF2Q]; intros L.
  - apply Rounds_ext with 0%Q; [ ring | ].
    destruct sx, sy; apply Rounds_zero.
  - pose proof (mag_pos my ey). lra.
  - apply Rounds_ext with (mag mx ex); [ ring | apply Rounds_exact; exact Vx ].
  - apply SFsub_Rounds. exact L.
Qed.

Theorem div_Rounds (x y : float) :
  finite x -> finite y -> (0 <= B2Q x)%Q -> (0 < B2Q y)%Q ->
  Rounds (B2Q x / B2Q y) (Prim2SF (x / y)).
Proof.
  intros Fx Fy Nx Py. assert (Ny : (0 <= B2Q y)%Q) by lra.
  revert Py. rewrite div_spec. unfold SF64div, B2Q.
  destruct (nonneg_cases x Fx Nx) as [ (sx & Ex) | (mx & ex & Ex & Vx) ];
    destruct (nonneg_cases y Fy Ny) as [ (sy & Ey) | (my & ey & Ey & Vy) ];
    rewrite Ex, Ey; cbn [SFdiv SF2Q]; intros Py; try lra.
  - apply Rounds_ext with 0%Q; [ unfold Qdiv; ring | apply Rounds_zero ].
  - apply SFdiv_Rounds.
Qed.

(** *** Consequences of correct rounding *)

Lemma Rounds_le (q : Q) (x f : float) :
  Rounds q (Prim2SF x) -> finite f -> (q <= B2Q f)%Q ->
  finite x /\ (B2Q x <= B2Q f)%Q.
Proof.
  intros R F H. apply (Rounds_up q _ (Prim2SF f) R (Prim2SF_valid f) F H).
Qed.

Lemma Rounds_ge (q : Q) (x f : float) :
  Rounds q (Prim2SF x) -> finite f -> finite x -> (B2Q f <= q)%Q ->
  (B2Q f <= B2Q x)%Q.
Proof.
  intros R F Fx H. unfold B2Q at 2. rewrite <- (SFrank_finite _ Fx).
  apply (Rounds_down q _ (Prim2SF f) R (Prim2SF_valid f) F H).
Qed.

Lemma Rounds_nonneg (q : Q) (x : float) :
  Rounds q (Prim2SF x) -> finite x -> (0 <= B2Q x)%Q.
Proof.
  intros (m1 & e1 & _ & _ & _ & _ & _ & _ & R) F.
  unfold B2Q. rewrite <- (SFrank_finite _ F).
  apply (rounded_rank_nonneg _ _ _ R).
Qed.

Lemma Rounds_error (q : Q) (x : float) :
  Rounds q (Prim2SF x) -> (pow2 (-1022) <= q)%Q -> finite x ->
  (q - u64 * q <= B2Q x /\ B2Q x <= q + u64 * q)%Q.
Proof. intros R H F. apply (Rounds_rel q _ R H F). Qed.

(** *** Distance between two numbers *)

Theorem abs_sub_Rounds (x y : float) :
  finite x -> finite y -> (0 <= B2Q x)%Q -> (0 <= B2Q y)%Q ->
  Rounds (Qabs (B2Q x - B2Q y)) (Prim2SF (abs (x - y))).
Proof.
  intros Fx Fy Nx Ny. rewrite abs_spec, sub_spec. unfold SF64sub, B2Q.
  destruct (nonneg_cases x Fx Nx) as [ (sx & Ex) | (mx & ex & Ex & Vx) ];
    destruct (nonneg_cases y Fy Ny) as [ (sy & Ey) | (my & ey & Ey & Vy) ];
    rewrite Ex, Ey; cbn [SFsub SF2Q].
  - apply Rounds_ext with 0%Q; [ reflexivity | ].
    destruct sx, sy; apply Rounds_zero.
  - cbn [SFabs]. pose proof (mag_pos my ey).
    apply Rounds_ext with (mag my ey); [ | apply Rounds_exact; exact Vy ].
    rewrite Qabs_neg by lra. ring.
  - cbn [SFabs]. pose proof (mag_pos mx ex).
    apply Rounds_ext with (mag mx ex); [ | apply Rounds_exact; exact Vx ].
    rewrite Qabs_pos by lra. ring.
  - apply SFabs_sub_Rounds.
Qed.

(** *** Numbers with sign bit 0 *)

Lemma posnum_number x : posnum x -> number x.
Proof.
  unfold posnum, number.
  intros [ E | [ (m & e & E) | E ] ]; rewrite E; discriminate.
Qed.

Lemma posnum_rank x : posnum x -> (0 <= rank x)%Q.
Proof.
  unfold posnum, rank. pose proof (pow2_pos 1024).
  intros [ E | [ (m & e & E) | E ] ]; rewrite E; simpl; try lra.
  apply Qlt_le_weak, mag_pos.
Qed.

Lemma posnum_geb0 x : posnum x -> (0 <=? x) = true.
Proof.
  intros P. apply leb_rank. repeat split.
  - discriminate.
  - apply posnum_number; exact P.
  - change (rank 0) with 0%Q. apply posnum_rank; exact P.
Qed.

Lemma geb0_cases x :
  (0 <=? x) = true ->
  (exists s, Prim2SF x = S754_zero s) \/
  (exists m e, Prim2SF x = S754_finite false m e) \/
  Prim2SF x = S754_infinity false.
Proof.
  intros H. apply leb_rank in H. destruct H as (_ & N & R).
  change (rank 0) with 0%Q in R. unfold number, rank in *.
  pose proof (pow2_pos 1024).
  destruct (Prim2SF x) as [ s | s | | s m e ]; simpl in R.
  - left. eauto.
  - right; right. destruct s; [ lra | reflexivity ].
  - congruence.
  - right; left. pose proof (mag_pos m e). destruct s; [ lra | eauto ].
Qed.

Lemma finite_pos_shape x :
  finite x -> (0 < B2Q x)%Q ->
  exists m e, Prim2SF x = S754_finite false m e /\ bounded prec emax m e = true.
Proof.
  intros F P. destruct (nonneg_cases x F) as [ (s & E) | H ]; [ lra | | exact H ].
  unfold B2Q in P. rewrite E in P. simpl in P. lra.
Qed.

Lemma add_posnum (x y : float) :
  posnum x -> (0 <=? y) = true -> posnum (x + y).
Proof.
  unfold posnum. intros Px Py. apply geb0_cases in Py. rewrite add_spec.
  unfold SF64add.
  destruct Px as [ Ex | [ (mx & ex & Ex) | Ex ] ];
    destruct Py as [ (sy & Ey) | [ (my & ey & Ey) | Ey ] ]; rewrite Ex, Ey.
  - destruct sy; left; reflexivity.
  - right; left. do 2 eexists; reflexivity.
  - right; right. reflexivity.
  - right; left. do 2 eexists; reflexivity.
  - apply SFadd_class.
  - right; right. reflexivity.
  - right; right. reflexivity.
  - right; right. reflexivity.
  - right; right. reflexivity.
Qed.

Lemma mul_posnum (x y : float) :
  posnum x -> finite y -> (0 < B2Q y)%Q -> posnum (x * y).
Proof.
  unfold posnum. intros Px Fy Py.
  destruct (finite_pos_shape y Fy Py) as (my & ey & Ey & Vy).
  pose proof (Prim2SF_valid x) as Vx.
  rewrite mul_spec. unfold SF64mul.
  destruct Px as [ Ex | [ (mx & ex & Ex) | Ex ] ]; rewrite Ex, Ey in *.
  - left. reflexivity.
  - apply SFmul_class; assumption.
  - right; right. reflexivity.
Qed.

Lemma div_posnum (x d : float) :
  finite x -> (0 < B2Q x)%Q -> posnum d -> posnum (x / d).
Proof.
  unfold posnum. intros Fx Px Pd.
  destruct (finite_pos_shape x Fx Px) as (mx & ex & Ex & Vx).
  rewrite div_spec. unfold SF64div.
  destruct Pd as [ Ed | [ (md & ed & Ed) | Ed ] ]; rewrite Ex, Ed.
  - right; right. reflexivity.
  - apply SFdiv_class.
  - left. reflexivity.
Qed.

Lemma abs_posnum (x : float) : number x -> posnum (abs x).
Proof.
  unfold number, posnum. rewrite abs_spec.
  destruct (Prim2SF x) as [ s | s | | s m e ]; intros N; cbn [SFabs].
  - left. reflexivity.
  - right; right. reflexivity.
  - congruence.
  - right; left. do 2 eexists; reflexivity.
Qed.

(** A product of two numbers is a number unless it is 0 times infinity. *)
Lemma mul_number_finite (x y : float) :
  number x -> finite y -> (0 < B2Q y)%Q -> number (x * y).
Proof.
  unfold number. intros Nx Fy Py.
  destruct (finite_pos_shape y Fy Py) as (my & ey & Ey & Vy).
  pose proof (Prim2SF_valid x) as Vx.
  rewrite mul_spec. unfold SF64mul.
  destruct (Prim2SF x) as [ s | s | | s mx ex ] eqn:Ex; rewrite Ey;
    cbn [SFmul]; try discriminate; try congruence.
  intros N.
  pose proof (SFabs_binary_round_aux (xorb s false) (Zpos (mx * my)) (ex + ey) loc_Exact) as A.
  rewrite N in A. cbn [SFabs] in A.
  pose proof (SFmul_Rounds mx my ex ey Vx Vy) as R. cbn [SFmul xorb] in R.
  rewrite <- A in R. exact (Rounds_not_nan _ _ R eq_refl).
Qed.

(** [is_finite] and [is_nan] of the standard library, in terms of the model. *)
Lemma is_nan_iff (x : float) : is_nan x = false <-> number x.
Proof.
  unfold is_nan, number. rewrite FloatAxioms.eqb_spec. unfold SFeqb.
  rewrite compare_rank.
  destruct (Prim2SF x) as [ s | s | | s m e ]; simpl;
    try (split; [ discriminate | congruence ]);
    (split; [ intros _; discriminate | intros _ ]);
    match goal with
    | |- negb match ?c with _ => _ end = false =>
        assert (E : c = Eq) by (apply (proj1 (Qeq_alt _ _)); reflexivity);
        rewrite E; reflexivity
    end.
Qed.

Lemma is_finite_iff (x : float) : is_finite x = true <-> finite x.
Proof.
  unfold is_finite, is_infinity, finite.
  destruct (is_nan x) eqn:N.
  - assert (Prim2SF x = S754_nan).
    { destruct (Prim2SF x) eqn:E; try reflexivity;
        assert (number x) by (unfold number; rewrite E; discriminate);
        apply is_nan_iff in H; congruence. }
    rewrite H. simpl. split; discriminate.
  - apply is_nan_iff in N. unfold number in N.
    rewrite FloatAxioms.eqb_spec, abs_spec.
    change (Prim2SF infinity) with (S754_infinity false).
    destruct (Prim2SF x) as [ s | s | | s m e ]; try congruence; simpl;
      split; try reflexivity; try discriminate.
Qed.

(** * Properties of the signal engine *)

Section Decision.

Variables (price : float) (inds : list TechnicalIndicator) (sentiment : float)
          (g : Rng).

Let tb := totalBuyStrength inds sentiment.
Let ts := totalSellStrength inds sentiment.
Let result := fst (generateTradingSignal price inds sentiment g).

(** The three branches of the decision, with the fields each one sets. *)
Lemma buy_branch :
  (tb >? ts) && (2 <=? countSignals BUY inds)%nat = true ->
  let v := sampleVolatility (g 0%nat) in
  action result = BUY /\
  confidence result = Math_min 95 (tb / (tb + ts) * 100) /\
  entryPrice result = price * (1 - 0.005) /\
  targetPrice result = price * (1 + v * 2) /\
  stopLoss result = price * (1 - v).
Proof.
  intros C. unfold result, generateTradingSignal. fold tb ts.
  rewrite C. cbv beta iota zeta. unfold Math_random. cbv beta iota zeta.
  cbn [fst action confidence entryPrice targetPrice stopLoss].
  repeat split.
Qed.

Lemma sell_branch :
  (tb >? ts) && (2 <=? countSignals BUY inds)%nat = false ->
  (ts >? tb) && (2 <=? countSignals SELL inds)%nat = true ->
  let v := sampleVolatility (g 0%nat) in
  action result = SELL /\
  confidence result = Math_min 95 (ts / (tb + ts) * 100) /\
  entryPrice result = price * (1 + 0.005) /\
  targetPrice result = price * (1 - v * 2) /\
  stopLoss result = price * (1 + v).
Proof.
  intros C1 C2. unfold result, generateTradingSignal. fold tb ts.
  rewrite C1, C2. cbv beta iota zeta. unfold Math_random. cbv beta iota zeta.
  cbn [fst action confidence entryPrice targetPrice stopLoss].
  repeat split.
Qed.

Lemma hold_branch :
  (tb >? ts) && (2 <=? countSignals BUY inds)%nat = false ->
  (ts >? tb) && (2 <=? countSignals SELL inds)%nat = false ->
  action result = HOLD /\
  confidence result = 50 + g 0%nat * 20 /\
  entryPrice result = price /\
  targetPrice result = price /\
  stopLoss result = price /\
  riskReward result = Math_abs ((price - price) / (price - price)).
Proof.
  intros C1 C2. unfold result, generateTradingSignal. fold tb ts.
  rewrite C1, C2. cbv beta iota zeta. unfold Math_random. cbv beta iota zeta.
  cbn [fst action confidence entryPrice targetPrice stopLoss riskReward].
  repeat split.
Qed.

(** Which branch produced a given action. *)
Lemma action_cases :
  (action result = BUY /\
   (tb >? ts) && (2 <=? countSignals BUY inds)%nat = true) \/
  (action result = SELL /\
   (tb >? ts) && (2 <=? countSignals BUY inds)%nat = false /\
   (ts >? tb) && (2 <=? countSignals SELL inds)%nat = true) \/
  (action result = HOLD /\
   (tb >? ts) && (2 <=? countSignals BUY inds)%nat = false /\
   (ts >? tb) && (2 <=? countSignals SELL inds)%nat = false).
Proof.
  destruct ((tb >? ts) && (2 <=? countSignals BUY inds)%nat) eqn:C1.
  - left. split; [ apply buy_branch; exact C1 | reflexivity ].
  - destruct ((ts >? tb) && (2 <=? countSignals SELL inds)%nat) eqn:C2.
    + right; left. split; [ apply sell_branch; assumption | auto ].
    + right; right. split; [ apply hold_branch; assumption | auto ].
Qed.

End Decision.

(** ** The decision rule *)

(** C1: when the total BUY strength is strictly greater than the total SELL
    strength and at least two indicators signal BUY, the action is BUY;
    symmetrically, when the total SELL strength is strictly greater and at
    least two indicators signal SELL, the action is SELL. *)
Theorem decide_buy_and_sell :
  forall (price : float) (inds : list TechnicalIndicator) (sentiment : float)
         (g : Rng),
    let tb := totalBuyStrength inds sentiment in
    let ts := totalSellStrength inds sentiment in
    let result := fst (generateTradingSignal price inds sentiment g) in
    ((tb >? ts) = true -> (2 <= countSignals BUY inds)%nat ->
     action result = BUY) /\
    ((ts >? tb) = true -> (2 <= countSignals SELL inds)%nat ->
     action result = SELL).
Proof.
  intros price inds sentiment g tb ts result. split.
  - intros S N. apply buy_branch. fold tb ts. rewrite S.
    apply Nat.leb_le in N. rewrite N. reflexivity.
  - intros S N. apply sell_branch; fold tb ts.
    + unfold gtb in *. rewrite (ltb_asym _ _ S). reflexivity.
    + rewrite S. apply Nat.leb_le in N. rewrite N. reflexivity.
Qed.

(** C2: when neither the BUY condition nor the SELL condition holds the
    action is HOLD; in particular a single BUY indicator gives HOLD even
    when the BUY strength strictly dominates. *)
Theorem decide_hold_otherwise :
  forall (price : float) (inds : list TechnicalIndicator) (sentiment : float)
         (g : Rng),
    let tb := totalBuyStrength inds sentiment in
    let ts := totalSellStrength inds sentiment in
    let result := fst (generateTradingSignal price inds sentiment g) in
    (~ ((tb >? ts) = true /\ (2 <= countSignals BUY inds)%nat) ->
     ~ ((ts >? tb) = true /\ (2 <= countSignals SELL inds)%nat) ->
     action result = HOLD) /\
    (countSignals BUY inds = 1%nat -> (tb >? ts) = true ->
     action result = HOLD).
Proof.
  intros price inds sentiment g tb ts result.
  assert (G : forall (a : bool) (n : nat),
             ~ (a = true /\ (2 <= n)%nat) -> a && (2 <=? n)%nat = false).
  { intros a n H. destruct a; [ | reflexivity ].
    destruct (Nat.leb_spec 2 n); [ exfalso; apply H; split; auto | reflexivity ]. }
  split.
  - intros NB NS. apply hold_branch; fold tb ts; apply G; assumption.
  - intros One S. apply hold_branch; fold tb ts; apply G.
    + intros [_ N]. lia.
    + intros [S' _]. unfold gtb in *. rewrite (ltb_asym _ _ S) in S'. discriminate.
Qed.

(** ** Price levels of a HOLD decision *)

Lemma sumStrength_none (s : Signal) (inds : list TechnicalIndicator) :
  (forall ind, In ind inds -> ind_signal ind <> s) ->
  sumStrength s inds = 0 /\ countSignals s inds = 0%nat.
Proof.
  intros H. unfold sumStrength, countSignals.
  assert (E : withSignal s inds = []).
  { unfold withSignal. induction inds as [ | i l IH ]; [ reflexivity | ].
    simpl. destruct (Signal_eqb (ind_signal i) s) eqn:Q.
    - exfalso. apply (H i); [ left; reflexivity | ].
      destruct (ind_signal i), s; simpl in Q; congruence.
    - apply IH. intros j Hj. apply H. right. exact Hj. }
  rewrite E. split; reflexivity.
Qed.

(** C9: a HOLD decision has all three price levels equal to the input
    price; in particular this is the outcome when every indicator signals
    HOLD and the sentiment is 0. *)
Theorem hold_levels_equal_price :
  forall (price : float) (inds : list TechnicalIndicator) (sentiment : float)
         (g : Rng),
    let result := fst (generateTradingSignal price inds sentiment g) in
    (action result = HOLD ->
     entryPrice result = price /\ targetPrice result = price /\
     stopLoss result = price) /\
    ((forall ind, In ind inds -> ind_signal ind = HOLD) ->
     (sentiment =? 0) = true ->
     action result = HOLD /\ entryPrice result = price /\
     targetPrice result = price /\ stopLoss result = price).
Proof.
  intros price inds sentiment g result.
  assert (A : action result = HOLD ->
              entryPrice result = price /\ targetPrice result = price /\
              stopLoss result = price).
  { intros H.
    destruct (action_cases price inds sentiment g)
      as [ (B & _) | [ (B & _) | (_ & C1 & C2) ] ];
      fold result in B || idtac; try congruence.
    destruct (hold_branch price inds sentiment g C1 C2) as (_ & _ & E & T & S & _).
    auto. }
  split; [ exact A | ].
  intros AllHold Z.
  assert (H : action result = HOLD).
  { destruct (sumStrength_none BUY inds) as [SB CB];
      [ intros i Hi; rewrite (AllHold i Hi); discriminate | ].
    apply hold_branch.
    - rewrite CB. apply andb_false_r.
    - destruct (sumStrength_none SELL inds) as [SS CS];
        [ intros i Hi; rewrite (AllHold i Hi); discriminate | ].
      rewrite CS. apply andb_false_r. }
  split; [ exact H | exact (A H) ].
Qed.

(** ** The risk tier *)

(** C7: the risk tier is LOW when the confidence exceeds 80, MEDIUM when it
    exceeds 60 without exceeding 80, and HIGH otherwise; it depends on the
    confidence alone and a higher confidence never gives a riskier tier. *)
Theorem risk_tier_step_function :
  (forall c : float,
     (riskLevelOf c = LOW <-> (c >? 80) = true) /\
     (riskLevelOf c = MEDIUM <-> (c >? 60) = true /\ (c <=? 80) = true) /\
     (riskLevelOf c = HIGH <-> (c >? 60) = false)) /\
  (forall c1 c2 : float,
     (c1 <=? c2) = true ->
     (riskOrder (riskLevelOf c2) <= riskOrder (riskLevelOf c1))%nat) /\
  (forall g : Rng,
     let data := fst (generateSignalData g) in
     riskLevel data = riskLevelOf (confidence (signal data))).
Proof.
  assert (T : forall k c1 c2 : float,
             (k <? c1) = true -> (c1 <=? c2) = true -> (k <? c2) = true).
  { intros k c1 c2 H1 H2. apply ltb_rank in H1. apply leb_rank in H2.
    apply ltb_rank. destruct H1 as (A & B & C), H2 as (_ & D & E).
    repeat split; auto. lra. }
  assert (C80 : forall c, (80 <? c) = true -> (60 <? c) = true).
  { intros c H. apply ltb_rank in H. apply ltb_rank.
    destruct H as (A & B & C). repeat split; auto.
    - discriminate.
    - assert ((rank 60 < rank 80)%Q) by (vm_compute; reflexivity). lra. }
  assert (N80 : forall c, (60 <? c) = true -> (80 <? c) = false -> (c <=? 80) = true).
  { intros c H1 H2. apply ltb_rank in H1. destruct H1 as (_ & B & _).
    apply leb_rank. repeat split; auto; [ discriminate | ].
    destruct (Qlt_le_dec (rank 80) (rank c)) as [ L | L ]; [ | exact L ].
    assert (X : (80 <? c) = true) by (apply ltb_rank; repeat split; auto; discriminate).
    congruence. }
  assert (L80 : forall c, (c <=? 80) = true -> (80 <? c) = false).
  { intros c H. apply leb_rank in H. destruct H as (_ & _ & H).
    destruct (80 <? c) eqn:E; [ | reflexivity ].
    apply ltb_rank in E. destruct E as (_ & _ & E). lra. }
  split; [ | split ].
  - intros c. unfold riskLevelOf, gtb.
    destruct (80 <? c) eqn:E80; [ rewrite (C80 c E80) | destruct (60 <? c) eqn:E60 ].
    + repeat split; intros; try discriminate; try reflexivity.
      destruct H as [_ H]. rewrite (L80 c H) in E80. discriminate.
    + repeat split; intros; try discriminate; try reflexivity.
      apply N80; assumption.
    + repeat split; intros; try discriminate; try reflexivity.
      destruct H; discriminate.
  - intros c1 c2 L. unfold riskLevelOf, gtb.
    destruct (80 <? c1) eqn:A1.
    + rewrite (T _ _ _ A1 L). simpl. lia.
    + destruct (60 <? c1) eqn:B1.
      * rewrite (T _ _ _ B1 L). destruct (80 <? c2); simpl; lia.
      * destruct (80 <? c2), (60 <? c2); simpl; lia.
  - intros g. unfold generateSignalData, Math_random. cbv beta iota zeta.
    destruct (calculateTechnicalIndicators _ _) as [inds g1].
    destruct (generateTradingSignal _ _ _ _) as [s g2]. reflexivity.
Qed.

(** ** The risk/reward ratio of a HOLD decision *)

Lemma sub_self_zero_or_nan (x : float) :
  Prim2SF (x - x) = S754_zero false \/ Prim2SF (x - x) = S754_nan \/
  exists s, Prim2SF (x - x) = S754_zero s.
Proof.
  rewrite sub_spec. unfold SF64sub.
  destruct (Prim2SF x) as [ s | s | | s m e ]; cbn [SFsub].
  - right; right. destruct s; eexists; reflexivity.
  - right; left. destruct s; reflexivity.
  - right; left. reflexivity.
  - left. rewrite Z.sub_diag. reflexivity.
Qed.

Lemma hold_ratio_nan (x : float) :
  is_nan (Math_abs ((x - x) / (x - x))) = true.
Proof.
  unfold is_nan, Math_abs. rewrite FloatAxioms.eqb_spec, abs_spec, div_spec.
  unfold SF64div.
  destruct (sub_self_zero_or_nan x) as [ E | [ E | (s & E) ] ]; rewrite E;
    try destruct s; reflexivity.
Qed.

(** ** The scenario of the specification *)

(** C8: at price 100, with two BUY indicators of strengths 40 and 30, one
    SELL indicator of strength 10 and sentiment 0.2, the action is BUY and
    the confidence is (70 + 0.2*20) / (70 + 0.2*20 + 10) * 100, which is
    74/84*100, about 88.1; the sentiment weight 0.2*20 = 4 is added to the
    BUY side. *)
Theorem scenario_buy_confidence :
  forall g : Rng,
    let s := fst (generateTradingSignal 100 scenarioIndicators 0.2 g) in
    action s = BUY /\
    confidence s = (70 + 0.2 * 20) / (70 + 0.2 * 20 + 10) * 100 /\
    confidence s = 74 / 84 * 100 /\
    (0.2 >? 0) = true /\ sumStrength BUY scenarioIndicators = 70 /\
    totalBuyStrength scenarioIndicators 0.2 = 70 + 0.2 * 20 /\
    70 + 0.2 * 20 = 74 /\
    totalSellStrength scenarioIndicators 0.2 = 10 /\
    (88.09 <? confidence s) = true /\ (confidence s <? 88.1) = true.
Proof.
  intros g. cbv zeta.
  repeat split; vm_compute; reflexivity.
Qed.

(** ** Tools for numeric bounds *)

(** Decide a closed comparison of rationals, or a closed boolean fact. *)
Ltac by_computation := vm_compute; first [ reflexivity | discriminate ].

(** Replace the value of a literal by the rational it denotes. *)
Ltac literal c :=
  let v := eval vm_compute in (B2Q c) in
  replace (B2Q c) with v in * by (vm_compute; reflexivity).

Lemma unit_draw_range (r : float) :
  (0 <=? r) = true -> (r <? 1) = true -> finite r /\ (0 <= B2Q r < 1)%Q.
Proof.
  intros L U. apply leb_rank in L. apply ltb_rank in U.
  destruct L as (_ & N & L), U as (_ & _ & U).
  change (rank 0) with 0%Q in L.
  assert (E1 : (rank 1 == 1)%Q) by by_computation. rewrite E1 in U.
  assert (F : finite r).
  { apply rank_lt_finite; [ exact N | ]. pose proof (pow2_pos 1024).
    assert (1 < pow2 1024)%Q by (apply (pow2_lt 0 1024); lia). lra. }
  split; [ exact F | ]. rewrite <- (rank_finite r F). lra.
Qed.

(** ** Confidence *)

Lemma hold_confidence_range (r : float) :
  (0 <=? r) = true -> (r <? 1) = true ->
  (50 <=? 50 + r * 20) = true /\ (50 + r * 20 <=? 70) = true.
Proof.
  intros L U. destruct (unit_draw_range r L U) as (Fr & R0 & R1).
  assert (F20 : finite 20) by reflexivity.
  assert (F50 : finite 50) by reflexivity.
  assert (F70 : finite 70) by reflexivity.
  pose proof (mul_Rounds r 20 Fr F20 ltac:(lra) ltac:(by_computation)) as Rt.
  destruct (Rounds_le _ _ 20 Rt F20) as (Ft & Ut).
  { literal 20. lra. }
  pose proof (Rounds_nonneg _ _ Rt Ft) as Lt.
  pose proof (add_Rounds 50 (r * 20) F50 Ft ltac:(by_computation) Lt) as Rc.
  destruct (Rounds_le _ _ 70 Rc F70) as (Fc & Uc).
  { literal 20. literal 50. literal 70. lra. }
  pose proof (Rounds_ge _ _ 50 Rc F50 Fc ltac:(lra)) as Lc.
  split; apply leb_finite; assumption.
Qed.

Lemma Math_min_95_range (y : float) :
  posnum y ->
  (0 <=? Math_min 95 y) = true /\ (Math_min 95 y <=? 95) = true.
Proof.
  intros P. pose proof (posnum_number y P) as N. pose proof (posnum_rank y P) as R.
  unfold Math_min.
  replace (is_nan 95) with false by reflexivity.
  replace (is_nan y) with false by (symmetry; apply is_nan_iff; exact N).
  cbn [orb].
  destruct (95 <? y) eqn:A.
  - split; reflexivity.
  - destruct (y <? 95) eqn:B.
    + split; [ apply posnum_geb0; exact P | ].
      apply ltb_rank in B. apply leb_rank. destruct B as (B1 & B2 & B3).
      repeat split; auto. lra.
    + replace (is_zero 95) with false by reflexivity. cbn [andb].
      split; [ apply posnum_geb0; exact P | ].
      apply leb_rank. repeat split; auto; [ discriminate | ].
      destruct (Qlt_le_dec (rank 95) (rank y)) as [ L | L ]; [ | exact L ].
      assert (X : (95 <? y) = true)
        by (apply ltb_rank; repeat split; auto; discriminate).
      congruence.
Qed.

Lemma winning_ratio_posnum (w l : float) :
  posnum w -> posnum l -> (w >? l) = true -> is_finite w = true ->
  posnum (w / (w + l) * 100) /\ posnum (w / (l + w) * 100).
Proof.
  intros Pw Pl G F. apply is_finite_iff in F.
  unfold gtb in G. apply ltb_rank in G. destruct G as (_ & _ & G).
  pose proof (posnum_rank l Pl) as Rl. rewrite (rank_finite w F) in G.
  assert (W : (0 < B2Q w)%Q) by lra.
  split.
  - apply mul_posnum; [ | reflexivity | by_computation ].
    apply div_posnum; [ exact F | exact W | ].
    apply add_posnum; [ exact Pw | apply posnum_geb0; exact Pl ].
  - apply mul_posnum; [ | reflexivity | by_computation ].
    apply div_posnum; [ exact F | exact W | ].
    apply add_posnum; [ exact Pl | apply posnum_geb0; exact Pw ].
Qed.

Lemma fold_strength_posnum (l : list TechnicalIndicator) :
  (forall ind, In ind l -> (0 <=? ind_strength ind) = true) ->
  forall acc, posnum acc ->
  posnum (fold_left (fun sum ind => sum + ind_strength ind) l acc).
Proof.
  induction l as [ | i l IH ]; intros H acc P; simpl.
  - exact P.
  - apply IH.
    + intros j Hj. apply H. right. exact Hj.
    + apply add_posnum; [ exact P | apply H; left; reflexivity ].
Qed.

Lemma sumStrength_posnum (s : Signal) (inds : list TechnicalIndicator) :
  (forall ind, In ind inds -> (0 <=? ind_strength ind) = true) ->
  posnum (sumStrength s inds).
Proof.
  intros H. unfold sumStrength. apply fold_strength_posnum.
  - intros i Hi. apply H. unfold withSignal in Hi.
    apply filter_In in Hi. tauto.
  - left. reflexivity.
Qed.

Lemma ltb_finite_number (a b : float) : (a <? b) = true -> number a /\ number b.
Proof. intros H. apply ltb_rank in H. tauto. Qed.

Lemma totalStrength_posnum (inds : list TechnicalIndicator) (sentiment : float) :
  (forall ind, In ind inds -> (0 <=? ind_strength ind) = true) ->
  posnum (totalBuyStrength inds sentiment) /\
  posnum (totalSellStrength inds sentiment).
Proof.
  intros H. unfold totalBuyStrength, totalSellStrength. cbv zeta. split.
  - apply add_posnum; [ apply sumStrength_posnum; exact H | ].
    unfold gtb. destruct (0 <? sentiment) eqn:S; [ | reflexivity ].
    apply posnum_geb0. apply ltb_rank in S. destruct S as (_ & N & S).
    change (rank 0) with 0%Q in S.
    unfold posnum. pose proof (Prim2SF_valid sentiment) as V.
    rewrite mul_spec. unfold SF64mul, number, rank in *.
    change (Prim2SF 20) with (S754_finite false 5629499534213120 (-48)).
    pose proof (pow2_pos 1024).
    destruct (Prim2SF sentiment) as [ s | s | | s m e ]; simpl in S; try lra; try congruence.
    + destruct s; [ lra | ]. right; right. reflexivity.
    + pose proof (mag_pos m e). destruct s; [ lra | ].
      apply SFmul_class; [ exact V | reflexivity ].
  - apply add_posnum; [ apply sumStrength_posnum; exact H | ].
    destruct (sentiment <? 0) eqn:S; [ | reflexivity ].
    apply posnum_geb0. unfold Math_abs. apply abs_posnum.
    apply ltb_rank in S. destruct S as (N & _ & S).
    change (rank 0) with 0%Q in S.
    apply mul_number_finite; [ exact N | reflexivity | by_computation ].
Qed.

(** ** Price levels *)

Lemma Qmult_le_compat_nonneg' (a b c d : Q) :
  (0 <= a <= c)%Q -> (0 <= b <= d)%Q -> (a * b <= c * d)%Q.
Proof.
  intros [A0 AC] [B0 BD].
  apply Qle_trans with (c * b)%Q.
  - apply Qmult_le_compat_r; assumption.
  - rewrite !(Qmult_comm c). apply Qmult_le_compat_r; [ assumption | lra ].
Qed.

Lemma price_in_range_bounds (p : float) :
  price_in_range p -> finite p /\ (pow2 (-1000) <= B2Q p <= pow2 1000)%Q.
Proof.
  intros [L U].
  destruct (between_finite 1e-300 p 1e300) as (F & B1 & B2);
    try assumption; try reflexivity.
  split; [ exact F | ].
  assert (pow2 (-1000) <= B2Q 1e-300)%Q by by_computation.
  assert (B2Q 1e300 <= pow2 1000)%Q by by_computation.
  lra.
Qed.

Lemma pow2_1001 : (B2Q 0x1p+1001 == pow2 1001)%Q.
Proof. by_computation. Qed.

(** A price times a factor between 1/2 and 2 is finite and carries one
    rounding error. *)
Lemma price_times (p k : float) :
  price_in_range p -> finite k -> (1 # 2 <= B2Q k <= 2)%Q ->
  finite (p * k) /\
  (B2Q p * B2Q k - u64 * (B2Q p * B2Q k) <= B2Q (p * k))%Q /\
  (B2Q (p * k) <= B2Q p * B2Q k + u64 * (B2Q p * B2Q k))%Q /\
  (0 < B2Q p * B2Q k)%Q.
Proof.
  intros Hp Fk [K1 K2]. destruct (price_in_range_bounds p Hp) as (Fp & P1 & P2).
  pose proof (pow2_pos (-1000)) as Q1.
  pose proof (mul_Rounds p k Fp Fk ltac:(lra) ltac:(lra)) as R.
  assert (Up : (B2Q p * B2Q k <= pow2 1000 * 2)%Q).
  { apply Qmult_le_compat_nonneg'; split; lra. }
  assert (Lo : (pow2 (-1000) * (1 # 2) <= B2Q p * B2Q k)%Q).
  { apply Qmult_le_compat_nonneg'; split; lra. }
  assert (E1 : (pow2 1001 == pow2 1000 * 2)%Q).
  { change 1001%Z with (1000 + 1)%Z. rewrite pow2_succ. ring. }
  assert (E2 : (pow2 (-1000) == pow2 (-1001) * 2)%Q).
  { change (-1000)%Z with (-1001 + 1)%Z. rewrite pow2_succ. ring. }
  assert (E3 : (pow2 (-1022) <= pow2 (-1001))%Q) by (apply pow2_le; lia).
  destruct (Rounds_le _ _ 0x1p+1001 R) as (F & _); [ reflexivity | | ].
  { rewrite pow2_1001. lra. }
  destruct (Rounds_error _ _ R) as (A & B); [ lra | exact F | ].
  repeat split; try assumption. lra.
Qed.

(** Two factors that differ by at least one part in a thousand give
    strictly ordered products. *)
Lemma price_times_lt (p k1 k2 : float) :
  price_in_range p -> finite k1 -> finite k2 ->
  (1 # 2 <= B2Q k1)%Q -> (B2Q k2 <= 2)%Q ->
  (B2Q k1 * (1001 # 1000) <= B2Q k2)%Q ->
  (p * k1 <? p * k2) = true.
Proof.
  intros Hp F1 F2 L1 U2 G.
  destruct (price_in_range_bounds p Hp) as (Fp & P1 & P2).
  pose proof (pow2_pos (-1000)) as Q1.
  destruct (price_times p k1 Hp F1) as (Fa & A1 & A2 & A3); [ lra | ].
  destruct (price_times p k2 Hp F2) as (Fb & B1 & B2 & B3); [ lra | ].
  apply ltb_finite; try assumption.
  assert (X : (B2Q p * (B2Q k1 * (1001 # 1000)) <= B2Q p * B2Q k2)%Q).
  { rewrite !(Qmult_comm (B2Q p)). apply Qmult_le_compat_r; lra. }
  assert (U : (u64 == 1 # 9007199254740992)%Q) by reflexivity.
  rewrite U in *.
  set (x1 := (B2Q p * B2Q k1)%Q) in *. set (x2 := (B2Q p * B2Q k2)%Q) in *.
  assert (X' : (x1 * (1001 # 1000) <= x2)%Q).
  { unfold x1. rewrite <- Qmult_assoc. exact X. }
  lra.
Qed.

(** The sampled volatility lies between the numbers 0.02 and 0.05. *)
Lemma volatility_range (r : float) :
  (0 <=? r) = true -> (r <? 1) = true ->
  let v := sampleVolatility r in
  finite v /\ (B2Q 0.02 <= B2Q v <= B2Q 0.05)%Q.
Proof.
  intros L U. destruct (unit_draw_range r L U) as (Fr & R0 & R1).
  unfold sampleVolatility. cbv zeta.
  assert (F3 : finite 0.03) by reflexivity.
  assert (F2 : finite 0.02) by reflexivity.
  assert (F5 : finite 0.05) by reflexivity.
  pose proof (mul_Rounds r 0.03 Fr F3 ltac:(lra) ltac:(by_computation)) as Rt.
  destruct (Rounds_le _ _ 0.03 Rt F3) as (Ft & Ut).
  { assert (0 <= B2Q 0.03)%Q by by_computation.
    rewrite <- (Qmult_1_l (B2Q 0.03)) at 2.
    apply Qmult_le_compat_r; lra. }
  pose proof (Rounds_nonneg _ _ Rt Ft) as Lt.
  pose proof (add_Rounds 0.02 (r * 0.03) F2 Ft ltac:(by_computation) Lt) as Rv.
  destruct (Rounds_le _ _ 0.05 Rv F5) as (Fv & Uv).
  { assert (B2Q 0.02 + B2Q 0.03 <= B2Q 0.05)%Q by by_computation. lra. }
  pose proof (Rounds_ge _ _ 0.02 Rv F2 Fv ltac:(lra)) as Lv.
  split; [ exact Fv | split; assumption ].
Qed.

(** The factors applied to the price. *)
Lemma level_factors (v : float) :
  finite v -> (B2Q 0.02 <= B2Q v <= B2Q 0.05)%Q ->
  (finite (1 + v * 2) /\ (1019 # 1000 <= B2Q (1 + v * 2) <= 1121 # 1000)%Q) /\
  (finite (1 - v * 2) /\ (879 # 1000 <= B2Q (1 - v * 2) <= 981 # 1000)%Q) /\
  (finite (1 + v) /\ (1009 # 1000 <= B2Q (1 + v) <= 1061 # 1000)%Q) /\
  (finite (1 - v) /\ (939 # 1000 <= B2Q (1 - v) <= 991 # 1000)%Q).
Proof.
  intros Fv [V1 V2].
  assert (C2 : (19 # 1000 <= B2Q 0.02)%Q) by by_computation.
  assert (C5 : (B2Q 0.05 <= 51 # 1000)%Q) by by_computation.
  assert (F1 : finite 1) by reflexivity.
  assert (F2 : finite 2) by reflexivity.
  assert (E1 : (B2Q 1 == 1)%Q) by by_computation.
  assert (E2 : (B2Q 2 == 2)%Q) by by_computation.
  assert (N1 : (0 <= B2Q 1)%Q) by by_computation.
  assert (N2 : (0 <= B2Q 2)%Q) by by_computation.
  assert (Nv : (0 <= B2Q v)%Q) by lra.
  (* v * 2 *)
  pose proof (mul_Rounds v 2 Fv F2 Nv N2) as Rd.
  destruct (Rounds_le _ _ 0.11 Rd) as (Fd & Ud); [ reflexivity | | ].
  { assert (102 # 1000 <= B2Q 0.11)%Q by by_computation. rewrite ?E1, ?E2. lra. }
  assert (Ld : (B2Q 0.03 <= B2Q (v * 2))%Q).
  { apply (Rounds_ge _ _ 0.03 Rd); [ reflexivity | exact Fd | ].
    assert (B2Q 0.03 <= 38 # 1000)%Q by by_computation. rewrite ?E1, ?E2. lra. }
  assert (Ud' : (B2Q (v * 2) <= 111 # 1000)%Q).
  { assert (B2Q 0.11 <= 111 # 1000)%Q by by_computation. rewrite ?E1, ?E2. lra. }
  assert (Ld' : (29 # 1000 <= B2Q (v * 2))%Q).
  { assert (29 # 1000 <= B2Q 0.03)%Q by by_computation. rewrite ?E1, ?E2. lra. }
  split; [ | split; [ | split ] ].
  - pose proof (add_Rounds 1 (v * 2) F1 Fd N1 ltac:(lra)) as R.
    destruct (Rounds_le _ _ 1.12 R) as (F & U); [ reflexivity | | ].
    { assert (1111 # 1000 <= B2Q 1.12)%Q by by_computation. rewrite ?E1, ?E2. lra. }
    split; [ exact F | split ].
    + assert (G : (B2Q 1.02 <= B2Q (1 + v * 2))%Q).
      { apply (Rounds_ge _ _ 1.02 R); [ reflexivity | exact F | ].
        assert (B2Q 1.02 <= 1029 # 1000)%Q by by_computation. rewrite ?E1, ?E2. lra. }
      assert (1019 # 1000 <= B2Q 1.02)%Q by by_computation. lra.
    + assert (B2Q 1.12 <= 1121 # 1000)%Q by by_computation. lra.
  - pose proof (sub_Rounds 1 (v * 2) F1 Fd ltac:(lra) ltac:(rewrite E1; lra)) as R.
    destruct (Rounds_le _ _ 0.98 R) as (F & U); [ reflexivity | | ].
    { assert (971 # 1000 <= B2Q 0.98)%Q by by_computation. rewrite ?E1, ?E2. lra. }
    split; [ exact F | split ].
    + assert (G : (B2Q 0.88 <= B2Q (1 - v * 2))%Q).
      { apply (Rounds_ge _ _ 0.88 R); [ reflexivity | exact F | ].
        assert (B2Q 0.88 <= 889 # 1000)%Q by by_computation. rewrite ?E1, ?E2. lra. }
      assert (879 # 1000 <= B2Q 0.88)%Q by by_computation. lra.
    + assert (B2Q 0.98 <= 981 # 1000)%Q by by_computation. lra.
  - pose proof (add_Rounds 1 v F1 Fv N1 ltac:(lra)) as R.
    destruct (Rounds_le _ _ 1.06 R) as (F & U); [ reflexivity | | ].
    { assert (1051 # 1000 <= B2Q 1.06)%Q by by_computation. rewrite ?E1, ?E2. lra. }
    split; [ exact F | split ].
    + assert (G : (B2Q 1.01 <= B2Q (1 + v))%Q).
      { apply (Rounds_ge _ _ 1.01 R); [ reflexivity | exact F | ].
        assert (B2Q 1.01 <= 1019 # 1000)%Q by by_computation. rewrite ?E1, ?E2. lra. }
      assert (1009 # 1000 <= B2Q 1.01)%Q by by_computation. lra.
    + assert (B2Q 1.06 <= 1061 # 1000)%Q by by_computation. lra.
  - pose proof (sub_Rounds 1 v F1 Fv Nv ltac:(rewrite E1; lra)) as R.
    destruct (Rounds_le _ _ 0.99 R) as (F & U); [ reflexivity | | ].
    { assert (981 # 1000 <= B2Q 0.99)%Q by by_computation. rewrite ?E1, ?E2. lra. }
    split; [ exact F | split ].
    + assert (G : (B2Q 0.94 <= B2Q (1 - v))%Q).
      { apply (Rounds_ge _ _ 0.94 R); [ reflexivity | exact F | ].
        assert (B2Q 0.94 <= 949 # 1000)%Q by by_computation. rewrite ?E1, ?E2. lra. }
      assert (939 # 1000 <= B2Q 0.94)%Q by by_computation. lra.
    + assert (B2Q 0.99 <= 991 # 1000)%Q by by_computation. lra.
Qed.

(** ** The Bollinger Bands indicator *)

Lemma Qdiv_bounds (n d a b : Q) :
  (0 < d)%Q -> (a * d <= n)%Q -> (n <= b * d)%Q -> (a <= n / d <= b)%Q.
Proof.
  intros D A B. split.
  - apply Qle_shift_div_l; assumption.
  - apply Qle_shift_div_r; assumption.
Qed.

Lemma bollingerPosition_near_50 (price : float) :
  price_in_range price ->
  let bb := bollingerPosition price in
  finite bb /\
  (50 - (1 # 1000000000000) <= B2Q bb <= 50 + (1 # 1000000000000))%Q.
Proof.
  intros Hp. unfold bollingerPosition. cbv zeta.
  destruct (price_in_range_bounds price Hp) as (Fp & P1 & P2).
  pose proof (pow2_pos (-1000)) as Q1.
  assert (E7 : (pow2 (-1000) == pow2 (-1007) * 128)%Q).
  { change (-1000)%Z with (-1007 + 7)%Z. rewrite pow2_add. reflexivity. }
  assert (E8 : (pow2 (-1022) <= pow2 (-1007))%Q) by (apply pow2_le; lia).
  assert (U : (u64 == 1 # 9007199254740992)%Q) by reflexivity.
  (* the two bands *)
  destruct (price_times price 0.98 Hp) as (Fl & L1 & L2 & L3);
    [ reflexivity | split; by_computation | ].
  destruct (price_times price 1.02 Hp) as (Fu & U1 & U2 & U3);
    [ reflexivity | split; by_computation | ].
  set (P := B2Q price) in *.
  set (lower := price * 0.98) in *. set (upper := price * 1.02) in *.
  set (L := B2Q lower) in *. set (H := B2Q upper) in *.
  literal 0.98. literal 1.02. rewrite U in *.
  (* price - lowerBand *)
  assert (Lnn : (0 <= L)%Q) by lra.
  assert (LleP : (L <= P)%Q) by lra.
  pose proof (sub_Rounds price lower Fp Fl Lnn LleP) as Rn.
  fold P L in Rn.
  destruct (Rounds_le _ _ price Rn Fp) as (Fn & _); [ fold P; lra | ].
  destruct (Rounds_error _ _ Rn) as (N1 & N2); [ lra | exact Fn | ].
  rewrite U in *.
  (* upperBand - lowerBand *)
  assert (LleH : (L <= H)%Q) by lra.
  pose proof (sub_Rounds upper lower Fu Fl Lnn LleH) as Rd.
  fold H L in Rd.
  destruct (Rounds_le _ _ upper Rd Fu) as (Fd & _); [ fold H; lra | ].
  destruct (Rounds_error _ _ Rd) as (D1 & D2); [ lra | exact Fd | ].
  rewrite U in *.
  set (n := price - lower) in *. set (d := upper - lower) in *.
  set (N := B2Q n) in *. set (D := B2Q d) in *.
  (* the quotient *)
  assert (Dpos : (0 < D)%Q) by lra.
  assert (Npos : (0 <= N)%Q) by lra.
  pose proof (div_Rounds n d Fn Fd Npos Dpos) as Rq. fold N D in Rq.
  destruct (Qdiv_bounds N D ((1 # 2) - (1 # 250000000000000))
                            ((1 # 2) + (1 # 250000000000000)) Dpos)
    as (X1 & X2); [ lra | lra | ].
  set (X := (N / D)%Q) in *.
  destruct (Rounds_le _ _ 1 Rq) as (Fq & _); [ reflexivity | | ].
  { assert (B2Q 1 == 1)%Q by by_computation. lra. }
  assert (E9 : (pow2 (-1022) <= 1 # 4)%Q).
  { apply Qle_trans with (pow2 (-2)); [ apply pow2_le; lia | by_computation ]. }
  destruct (Rounds_error _ _ Rq) as (Y1 & Y2); [ lra | exact Fq | ].
  rewrite U in *.
  set (q := n / d) in *. set (Y := B2Q q) in *.
  (* times 100 *)
  assert (F100 : finite 100) by reflexivity.
  assert (Ynn : (0 <= Y)%Q) by lra.
  assert (N100 : (0 <= B2Q 100)%Q) by by_computation.
  pose proof (mul_Rounds q 100 Fq F100 Ynn N100) as Rb.
  fold Y in Rb.
  destruct (Rounds_le _ _ 100 Rb F100) as (Fb & _).
  { literal 100. lra. }
  destruct (Rounds_error _ _ Rb) as (B1 & B2); [ literal 100; lra | exact Fb | ].
  rewrite U in *. literal 100.
  split; [ exact Fb | ]. lra.
Qed.

Lemma calculateTechnicalIndicators_list (price : float) (g : Rng) :
  fst (calculateTechnicalIndicators price g) =
  [ rsiIndicator (g 0%nat * 100);
    macdIndicator ((g 1%nat - 0.5) * 5);
    maCrossIndicator (price * (0.95 + g 2%nat * 0.1))
                     (price * (0.92 + g 3%nat * 0.16));
    bollingerIndicator price;
    volumeIndicator (g 4%nat * 100) ].
Proof. reflexivity. Qed.

Lemma withSignal_skip_hold (s : Signal) (b : TechnicalIndicator)
    (l1 l2 : list TechnicalIndicator) :
  ind_signal b = HOLD -> s <> HOLD ->
  withSignal s (l1 ++ b :: l2) = withSignal s (l1 ++ l2).
Proof.
  intros Hb Hs. unfold withSignal. rewrite !filter_app. simpl.
  rewrite Hb. destruct s; try congruence; reflexivity.
Qed.

(** C10 (as the code has it): for every price in range and every outcome
    of the random source, the fourth indicator is the Bollinger Bands
    indicator, its signal is HOLD, its value is within 1e-11 of 50 and its
    strength is at most 5e-12; it adds no BUY or SELL vote and no strength
    to the totals of the decision. *)
Theorem bollinger_always_hold :
  forall (price : float) (g : Rng),
    price_in_range price ->
    let inds := fst (calculateTechnicalIndicators price g) in
    let b := bollingerIndicator price in
    let others := firstn 3 inds ++ skipn 4 inds in
    nth_error inds 3 = Some b /\
    ind_signal b = HOLD /\
    (49.99999999999 <=? ind_value b) = true /\
    (ind_value b <=? 50.00000000001) = true /\
    (0 <=? ind_strength b) = true /\ (ind_strength b <=? 5e-12) = true /\
    countSignals BUY inds = countSignals BUY others /\
    countSignals SELL inds = countSignals SELL others /\
    forall sentiment : float,
      totalBuyStrength inds sentiment = totalBuyStrength others sentiment /\
      totalSellStrength inds sentiment = totalSellStrength others sentiment.
Proof.
  intros price g Hp. cbv zeta.
  destruct (bollingerPosition_near_50 price Hp) as (Fb & B1 & B2).
  set (bb := bollingerPosition price) in *.
  assert (S : ind_signal (bollingerIndicator price) = HOLD).
  { unfold bollingerIndicator. cbv zeta. fold bb. cbn [ind_signal]. unfold gtb.
    assert (L : (bb <? 20) = false).
    { destruct (bb <? 20) eqn:E; [ | reflexivity ].
      apply ltb_finite in E; [ | exact Fb | reflexivity ].
      literal 20. lra. }
    assert (G : (80 <? bb) = false).
    { destruct (80 <? bb) eqn:E; [ | reflexivity ].
      apply ltb_finite in E; [ | reflexivity | exact Fb ].
      literal 80. lra. }
    rewrite L, G. reflexivity. }
  assert (V : (49.99999999999 <=? bb) = true /\ (bb <=? 50.00000000001) = true).
  { split; apply leb_finite; try assumption; try reflexivity.
    - assert (B2Q 49.99999999999 <= 50 - (1 # 1000000000000))%Q by by_computation. lra.
    - assert (50 + (1 # 1000000000000) <= B2Q 50.00000000001)%Q by by_computation. lra. }
  assert (T : (0 <=? Math_abs (bb - 50) * 2) = true /\
              (Math_abs (bb - 50) * 2 <=? 5e-12) = true).
  { unfold Math_abs.
    assert (F50 : finite 50) by reflexivity.
    assert (F2 : finite 2) by reflexivity.
    assert (N50 : (0 <= B2Q 50)%Q) by by_computation.
    assert (N2 : (0 <= B2Q 2)%Q) by by_computation.
    pose proof (abs_sub_Rounds bb 50 Fb F50 ltac:(lra) N50) as Ra.
    destruct (Rounds_le _ _ 2e-12 Ra) as (Fa & Ua); [ reflexivity | | ].
    { assert (1 # 1000000000000 <= B2Q 2e-12)%Q by by_computation.
      literal 50. apply Qle_trans with (1 # 1000000000000)%Q; [ | assumption ].
      apply Qabs_Qle_condition. split; lra. }
    pose proof (Rounds_nonneg _ _ Ra Fa) as La.
    pose proof (mul_Rounds _ 2 Fa F2 La N2) as Rs.
    destruct (Rounds_le _ _ 5e-12 Rs) as (Fs & Us); [ reflexivity | | ].
    { assert (B2Q 2e-12 * B2Q 2 <= B2Q 5e-12)%Q by by_computation.
      apply Qle_trans with (B2Q 2e-12 * B2Q 2)%Q; [ | assumption ].
      apply Qmult_le_compat_r; assumption. }
    pose proof (Rounds_nonneg _ _ Rs Fs) as Ls.
    split; apply leb_finite; try assumption; try reflexivity. }
  rewrite calculateTechnicalIndicators_list.
  cbn [nth_error firstn skipn app].
  split; [ reflexivity | ]. split; [ exact S | ].
  split; [ apply V | ]. split; [ apply V | ].
  split; [ apply T | ]. split; [ apply T | ].
  set (i1 := rsiIndicator _). set (i2 := macdIndicator _).
  set (i3 := maCrossIndicator _ _). set (i5 := volumeIndicator _).
  set (b := bollingerIndicator price) in *.
  assert (WB := withSignal_skip_hold BUY b [i1; i2; i3] [i5] S ltac:(discriminate)).
  assert (WS := withSignal_skip_hold SELL b [i1; i2; i3] [i5] S ltac:(discriminate)).
  cbn [app] in WB, WS.
  unfold totalBuyStrength, totalSellStrength, countSignals, sumStrength.
  rewrite WB, WS. repeat split.
Qed.

(** * An input on which a stated property fails *)

(** C10, as stated, fails at the price 261.2: the position is
    50.000000000000135, not 50, and the strength is not 0.  At price 0 the
    position is not a number at all. *)
Lemma bollinger_not_exactly_50 :
  let b := bollingerIndicator 261.2 in
  nth_error (fst (calculateTechnicalIndicators 261.2 halfDraws)) 3 = Some b /\
  (100 <=? 261.2) = true /\ (261.2 <? 500) = true /\
  ind_value b = 50.000000000000135 /\
  (ind_value b =? 50) = false /\ (ind_strength b =? 0) = false /\
  is_nan (ind_value (bollingerIndicator 0)) = true.
Proof. vm_compute. repeat split. Qed.

(** ** The risk/reward ratio *)

Lemma SFabs_SFdiv (x y : spec_float) :
  SFabs (SFdiv prec emax x y) = SFdiv prec emax (SFabs x) (SFabs y).
Proof.
  destruct x as [ sx | sx | | sx mx ex ], y as [ sy | sy | | sy my ey ];
    try reflexivity.
  cbn [SFdiv SFabs xorb].
  destruct (SFdiv_core_binary prec emax (Zpos mx) ex (Zpos my) ey) as [[q e'] l].
  apply SFabs_binary_round_aux.
Qed.

(** The absolute value of a quotient is the quotient of the absolute
    values, exactly. *)
Lemma abs_div (a b : float) : abs (a / b) = abs a / abs b.
Proof.
  apply Prim2SF_inj. rewrite abs_spec, !div_spec, !abs_spec.
  apply SFabs_SFdiv.
Qed.

Lemma riskReward_def (price : float) (inds : list TechnicalIndicator)
    (sentiment : float) (g : Rng) :
  let result := fst (generateTradingSignal price inds sentiment g) in
  riskReward result =
  Math_abs ((targetPrice result - entryPrice result) /
            (entryPrice result - stopLoss result)).
Proof.
  unfold generateTradingSignal.
  destruct ((totalBuyStrength inds sentiment >? totalSellStrength inds sentiment)
            && (2 <=? countSignals BUY inds)%nat);
    [ | destruct ((totalSellStrength inds sentiment >? totalBuyStrength inds sentiment)
                  && (2 <=? countSignals SELL inds)%nat) ];
    reflexivity.
Qed.

Lemma Rounds_geb0 (q : Q) (x : float) :
  Rounds q (Prim2SF x) -> (0 <=? x) = true /\ is_nan x = false.
Proof.
  intros R. pose proof (Rounds_not_nan _ _ R) as N.
  assert (Nx : number x) by exact N.
  split; [ | apply is_nan_iff; exact Nx ].
  apply leb_rank. repeat split; [ discriminate | exact Nx | ].
  change (rank 0) with 0%Q. destruct R as (m1 & e1 & _ & _ & _ & _ & _ & _ & R).
  apply (rounded_rank_nonneg _ _ _ R).
Qed.

(** Three levels obtained from a price in range by well separated factors
    give a well defined ratio. *)
Lemma ratio_defined (p kt ke ks : float) :
  price_in_range p -> finite kt -> finite ke -> finite ks ->
  (1 # 2 <= B2Q kt <= 2)%Q -> (1 # 2 <= B2Q ke <= 2)%Q -> (1 # 2 <= B2Q ks <= 2)%Q ->
  (B2Q ke * (1001 # 1000) <= B2Q ks \/ B2Q ks * (1001 # 1000) <= B2Q ke)%Q ->
  let r := Math_abs ((p * kt - p * ke) / (p * ke - p * ks)) in
  (0 <=? r) = true /\ is_nan r = false.
Proof.
  intros Hp Ft Fe Fs Kt Ke Ks Sep. cbv zeta. unfold Math_abs. rewrite abs_div.
  destruct (price_in_range_bounds p Hp) as (Fp & P1 & P2).
  pose proof (pow2_pos (-1000)) as Q1.
  destruct (price_times p kt Hp Ft Kt) as (FT & T1 & T2 & T3).
  destruct (price_times p ke Hp Fe Ke) as (FE & E1 & E2 & E3).
  destruct (price_times p ks Hp Fs Ks) as (FS & S1 & S2 & S3).
  assert (U : (u64 == 1 # 9007199254740992)%Q) by reflexivity.
  rewrite U in *.
  set (xt := (B2Q p * B2Q kt)%Q) in *. set (xe := (B2Q p * B2Q ke)%Q) in *.
  set (xs := (B2Q p * B2Q ks)%Q) in *.
  set (t := p * kt) in *. set (e := p * ke) in *. set (s := p * ks) in *.
  assert (Xt : (xt <= pow2 1000 * 2)%Q)
    by (apply Qmult_le_compat_nonneg'; split; lra).
  assert (Xe : (xe <= pow2 1000 * 2)%Q)
    by (apply Qmult_le_compat_nonneg'; split; lra).
  assert (Xs : (xs <= pow2 1000 * 2)%Q)
    by (apply Qmult_le_compat_nonneg'; split; lra).
  assert (Le : (pow2 (-1000) * (1 # 2) <= xe)%Q)
    by (apply Qmult_le_compat_nonneg'; split; lra).
  assert (Ls : (pow2 (-1000) * (1 # 2) <= xs)%Q)
    by (apply Qmult_le_compat_nonneg'; split; lra).
  assert (E1003 : (B2Q 0x1p+1003 == pow2 1000 * 8)%Q) by by_computation.
  assert (E10 : (pow2 (-1000) == pow2 (-1012) * 4096)%Q).
  { change (-1000)%Z with (-1012 + 12)%Z. rewrite pow2_add. reflexivity. }
  assert (E22 : (pow2 (-1022) <= pow2 (-1012))%Q) by (apply pow2_le; lia).
  (* the numerator *)
  pose proof (abs_sub_Rounds t e FT FE ltac:(lra) ltac:(lra)) as Rn.
  destruct (Rounds_le _ _ 0x1p+1003 Rn) as (Fn & _); [ reflexivity | | ].
  { rewrite E1003. apply Qabs_Qle_condition. split; lra. }
  pose proof (Rounds_nonneg _ _ Rn Fn) as Nn.
  (* the denominator *)
  pose proof (abs_sub_Rounds e s FE FS ltac:(lra) ltac:(lra)) as Rd.
  destruct (Rounds_le _ _ 0x1p+1003 Rd) as (Fd & _); [ reflexivity | | ].
  { rewrite E1003. apply Qabs_Qle_condition. split; lra. }
  assert (Gap : (pow2 (-1012) <= Qabs (B2Q e - B2Q s))%Q).
  { assert (Sx : (xe * (1001 # 1000) <= xs \/ xs * (1001 # 1000) <= xe)%Q).
    { assert (Pp : (0 < B2Q p)%Q) by lra.
      unfold xe, xs. destruct Sep as [ Sep | Sep ]; [ left | right ];
        rewrite <- Qmult_assoc; apply (proj2 (Qmult_le_l _ _ _ Pp)); exact Sep. }
    destruct Sx as [ Sx | Sx ].
    - rewrite Qabs_neg by lra. lra.
    - rewrite Qabs_pos by lra. lra. }
  destruct (Rounds_error _ _ Rd) as (D1 & _); [ lra | exact Fd | ].
  rewrite U in D1.
  assert (Dpos : (0 < B2Q (abs (e - s)))%Q) by lra.
  (* the quotient *)
  apply (Rounds_geb0 _ _ (div_Rounds _ _ Fn Fd Nn Dpos)).
Qed.

(** C3 (the division is not guarded in the code): the ratio is
    |targetPrice - entryPrice| / |entryPrice - stopLoss| for every decision,
    and for a BUY or SELL decision at a price in range it is a well defined
    non-negative number; but every HOLD decision has entry price equal to
    stop loss, and its ratio is the NaN produced by 0/0. *)
Theorem risk_reward_unguarded :
  forall (price : float) (inds : list TechnicalIndicator) (sentiment : float)
         (g : Rng),
    let result := fst (generateTradingSignal price inds sentiment g) in
    riskReward result =
      Math_abs (targetPrice result - entryPrice result) /
      Math_abs (entryPrice result - stopLoss result) /\
    (price_in_range price -> unit_draws g -> action result <> HOLD ->
     (0 <=? riskReward result) = true /\ is_nan (riskReward result) = false) /\
    (action result = HOLD ->
     entryPrice result = stopLoss result /\
     is_nan (riskReward result) = true /\
     (0 <=? riskReward result) = false).
Proof.
  intros price inds sentiment g. cbv zeta.
  pose proof (riskReward_def price inds sentiment g) as R. cbv zeta in R.
  split; [ | split ].
  - rewrite R. unfold Math_abs. apply abs_div.
  - intros Hp Hg NH.
    destruct (Hg 0%nat) as [L U].
    destruct (volatility_range (g 0%nat) L U) as (Fv & V).
    destruct (level_factors _ Fv V)
      as ((Fa & A1 & A2) & (Fb & B1 & B2) & (Fc & C1 & C2) & (Fd & D1 & D2)).
    destruct (action_cases price inds sentiment g)
      as [ (_ & C) | [ (_ & K1 & K2) | (B & _) ] ]; [ | | congruence ].
    + destruct (buy_branch price inds sentiment g C) as (_ & _ & E & T & S).
      rewrite R, E, T, S.
      assert (K : 1 - 0.005 = 0.995) by (vm_compute; reflexivity). rewrite K.
      assert (K3 : (994 # 1000 <= B2Q 0.995)%Q) by by_computation.
      assert (K4 : (B2Q 0.995 <= 996 # 1000)%Q) by by_computation.
      apply ratio_defined; try assumption; try reflexivity;
        try (split; lra). right. lra.
    + destruct (sell_branch price inds sentiment g K1 K2) as (_ & _ & E & T & S).
      rewrite R, E, T, S.
      assert (K : 1 + 0.005 = 1.005) by (vm_compute; reflexivity). rewrite K.
      assert (K3 : (1004 # 1000 <= B2Q 1.005)%Q) by by_computation.
      assert (K4 : (B2Q 1.005 <= 1006 # 1000)%Q) by by_computation.
      apply ratio_defined; try assumption; try reflexivity;
        try (split; lra). left. lra.
  - intros H.
    destruct (action_cases price inds sentiment g)
      as [ (B & _) | [ (B & _) | (_ & C1 & C2) ] ]; try congruence.
    destruct (hold_branch price inds sentiment g C1 C2) as (_ & _ & E & T & S & R').
    split; [ congruence | ].
    assert (N : is_nan (riskReward (fst (generateTradingSignal price inds sentiment g)))
                = true) by (rewrite R'; apply hold_ratio_nan).
    split; [ exact N | ].
    destruct (0 <=? riskReward _) eqn:L; [ | reflexivity ].
    apply leb_rank in L. destruct L as (_ & L & _).
    apply is_nan_iff in L. congruence.
Qed.

Local Open Scope Q_scope.

(** * Binary64 arithmetic: the grid of representable numbers *)

(** Rounding respects the equality of rationals. *)
#[global] Instance Rounds_compat : Proper (Qeq ==> eq ==> iff) Rounds.
Proof.
  intros x y E r r' <-. split; apply Rounds_ext; [ exact E | symmetry; exact E ].
Qed.

(** A finite number whose magnitude is at least [2^(e+52)] is a multiple of
    [2^e]; every finite number is a multiple of [2^(-1074)]. *)
Lemma SF_grid (x : spec_float) (e : Z) :
  valid_binary x = true -> SFfinite x = true -> (-1074 <= e)%Z ->
  ((-1074 < e)%Z -> pow2 (e + 52) <= Qabs (SF2Q x)) ->
  exists k : Z, SF2Q x == inject_Z k * pow2 e.
Proof.
  destruct x as [ s | s | | s m ex ]; simpl; intros V F E H; try discriminate.
  - exists 0%Z. change (inject_Z 0) with 0. ring.
  - destruct (bounded_inv _ _ V) as (U & B & N).
    pose proof (mag_pos m ex) as P.
    assert (A : Qabs (if s then - mag m ex else mag m ex) == mag m ex).
    { destruct s; [ rewrite Qabs_neg by lra; ring | apply Qabs_pos; lra ]. }
    destruct (Z_le_gt_dec e ex) as [ L | G ].
    + destruct s.
      * exists (- (Zpos m * 2 ^ (ex - e)))%Z.
        rewrite inject_Z_opp, (mag_as_multiple m ex e L). ring.
      * exists (Zpos m * 2 ^ (ex - e))%Z. apply mag_as_multiple. exact L.
    + exfalso. assert (G' : (-1074 < e)%Z) by lia. specialize (H G').
      rewrite A in H.
      assert (mag m ex < pow2 (ex + 53)) by (apply mag_lt_pow2; [ exact U | lia ]).
      assert (pow2 (ex + 53) <= pow2 (e + 52)) by (apply pow2_le; lia).
      lra.
Qed.

(** The exponent at which a real below [2^(e+53)] is rounded is at most [e]. *)
Lemma Rounds_exponent (q : Q) (e e1 : Z) :
  (-1074 <= e)%Z -> q < pow2 (e + 53) ->
  ((-1074 < e1)%Z -> pow2 (e1 + 52) <= q) -> (e1 <= e)%Z.
Proof.
  intros E H N. destruct (Z_le_gt_dec e1 e) as [ L | G ]; [ exact L | exfalso ].
  assert (pow2 (e1 + 52) <= q) by (apply N; lia).
  assert (pow2 (e + 53) <= pow2 (e1 + 52)) by (apply pow2_le; lia).
  lra.
Qed.

(** Rounding moves a real below [2^(e+53)] by at most half of [2^e]. *)
Lemma Rounds_abs_error (q : Q) (r : spec_float) (e : Z) :
  Rounds q r -> SFfinite r = true -> (-1074 <= e)%Z -> q < pow2 (e + 53) ->
  q - (1 # 2) * pow2 e <= SF2Q r /\ SF2Q r <= q + (1 # 2) * pow2 e.
Proof.
  intros (m1 & e1 & N & E1 & M & N1 & N2 & X & R) F E H.
  rewrite (rounded_value _ _ _ R F).
  pose proof (Rounds_exponent q e e1 E H N2) as L.
  pose proof (pow2_le e1 e L) as P. pose proof (pow2_pos e1) as P1.
  destruct N as [Lo Hi _ _]. split; lra.
Qed.

(** ... and the result is finite when there is room above. *)
Lemma Rounds_finite_below (q : Q) (r : spec_float) (e : Z) :
  Rounds q r -> (-1074 <= e)%Z -> q < pow2 (e + 53) ->
  q + (1 # 2) * pow2 e < pow2 1024 -> SFfinite r = true.
Proof.
  intros (m1 & e1 & N & E1 & M & N1 & N2 & X & R) E H B.
  pose proof (Rounds_exponent q e e1 E H N2) as L.
  pose proof (pow2_le e1 e L) as P. pose proof (pow2_pos e1) as P1.
  destruct N as [Lo Hi _ _].
  destruct R as [ s Z | p e2 Vp Pp | I ]; try reflexivity.
  exfalso. lra.
Qed.

(** Rounding never crosses a real that lies on the grid of the rounded
    number. *)
Lemma Rounds_le_grid (q b : Q) (r : spec_float) :
  Rounds q r -> SFfinite r = true -> q <= b ->
  (forall e : Z, (-1074 <= e)%Z -> ((-1074 < e)%Z -> pow2 (e + 52) <= q) ->
     exists k : Z, b == inject_Z k * pow2 e) ->
  SF2Q r <= b.
Proof.
  intros (m1 & e1 & N & E1 & M & N1 & N2 & X & R) F H G.
  rewrite (rounded_value _ _ _ R F).
  destruct (G e1 E1 N2) as (k & K). rewrite K.
  apply Qmult_le_compat_r; [ | apply Qlt_le_weak, pow2_pos ].
  rewrite <- Zle_Qle. apply (near_up _ _ _ N). rewrite <- K. exact H.
Qed.

Lemma Rounds_ge_grid (q b : Q) (r : spec_float) :
  Rounds q r -> SFfinite r = true -> b <= q ->
  (forall e : Z, (-1074 <= e)%Z -> ((-1074 < e)%Z -> pow2 (e + 52) <= q) ->
     exists k : Z, b == inject_Z k * pow2 e) ->
  b <= SF2Q r.
Proof.
  intros (m1 & e1 & N & E1 & M & N1 & N2 & X & R) F H G.
  rewrite (rounded_value _ _ _ R F).
  destruct (G e1 E1 N2) as (k & K). rewrite K.
  apply Qmult_le_compat_r; [ | apply Qlt_le_weak, pow2_pos ].
  rewrite <- Zle_Qle. apply (near_down _ _ _ N). rewrite <- K. exact H.
Qed.

(** Integers below [2^53] are on every grid that matters. *)
Lemma int_on_grid (n : Z) (q : Q) (e : Z) :
  (0 <= n < 2 ^ 53)%Z -> q <= inject_Z n ->
  (-1074 <= e)%Z -> ((-1074 < e)%Z -> pow2 (e + 52) <= q) ->
  exists k : Z, inject_Z n == inject_Z k * pow2 e.
Proof.
  intros Hn Hq E N.
  assert (L : (e <= 0)%Z).
  { apply (Rounds_exponent q 0 e); [ lia | | exact N ].
    apply Qle_lt_trans with (inject_Z n); [ exact Hq | ].
    rewrite (pow2_Z 53) by lia. rewrite <- Zlt_Qlt. lia. }
  exists (n * 2 ^ (- e))%Z.
  rewrite inject_Z_pow2_mul by lia.
  replace (e + - e)%Z with 0%Z by lia. change (pow2 0) with 1. ring.
Qed.

Lemma Rounds_le_int (q : Q) (n : Z) (r : spec_float) :
  Rounds q r -> (0 <= n < 2 ^ 53)%Z -> q <= inject_Z n ->
  SFfinite r = true /\ SF2Q r <= inject_Z n.
Proof.
  intros R Hn H.
  assert (F : SFfinite r = true).
  { apply (Rounds_finite_below q r 0 R); [ lia | | ].
    - apply Qle_lt_trans with (inject_Z n); [ exact H | ].
      rewrite (pow2_Z 53) by lia. rewrite <- Zlt_Qlt. lia.
    - assert (inject_Z n <= pow2 53).
      { rewrite (pow2_Z 53) by lia. rewrite <- Zle_Qle. lia. }
      assert (pow2 53 + 1 <= pow2 1024) by by_computation.
      change (pow2 0) with 1. lra. }
  split; [ exact F | ].
  apply (Rounds_le_grid q _ r R F H).
  intros e E N. apply (int_on_grid n q e Hn H E N).
Qed.

(** Twice a number that is at least half of [q] is on the grid of [q]. *)
Lemma double_on_grid (w : spec_float) (q : Q) (e : Z) :
  valid_binary w = true -> SFfinite w = true -> 0 <= SF2Q w ->
  q <= 2 * SF2Q w ->
  (-1074 <= e)%Z -> ((-1074 < e)%Z -> pow2 (e + 52) <= q) ->
  exists k : Z, 2 * SF2Q w == inject_Z k * pow2 e.
Proof.
  intros V F P H E N.
  destruct (Z.eq_dec e (-1074)) as [ -> | NE ].
  - destruct (SF_grid w (-1074) V F) as (k & K); [ lia | lia | ].
    exists (2 * k)%Z. rewrite K, inject_Z_mult. change (inject_Z 2) with 2. ring.
  - destruct (SF_grid w (e - 1) V F) as (k & K); [ lia | | ].
    + intros _. rewrite Qabs_pos by exact P.
      assert (pow2 (e + 52) <= q) by (apply N; lia).
      replace (e + 52)%Z with (e - 1 + 52 + 1)%Z in H0 by lia.
      rewrite pow2_succ in H0. lra.
    + exists k. rewrite K.
      replace e with (e - 1 + 1)%Z at 2 by lia. rewrite pow2_succ. ring.
Qed.

(** * Binary64 arithmetic on primitive floats: further facts *)

Local Open Scope float_scope.

Lemma float_grid (x : float) (e : Z) :
  finite x -> (-1074 <= e)%Z ->
  ((-1074 < e)%Z -> (pow2 (e + 52) <= Qabs (B2Q x))%Q) ->
  exists k : Z, (B2Q x == inject_Z k * pow2 e)%Q.
Proof. intros F. apply SF_grid; [ apply Prim2SF_valid | exact F ]. Qed.

(** One rounding: a relative error of [u64], or an absolute error of
    [2^(-1075)] for the subnormal results. *)
Lemma Rounds_approx (q : Q) (x : float) :
  Rounds q (Prim2SF x) -> finite x ->
  (q - u64 * q - pow2 (-1075) <= B2Q x /\ B2Q x <= q + u64 * q + pow2 (-1075))%Q.
Proof.
  intros R F.
  assert (Q0 : (0 <= q)%Q) by (destruct R as (m1 & e1 & _ & _ & _ & _ & _ & X & _); exact X).
  assert (U : (0 <= u64 * q)%Q).
  { apply Qmult_le_0_compat; [ apply Qlt_le_weak, pow2_pos | exact Q0 ]. }
  pose proof (pow2_pos (-1075)) as P.
  destruct (Qlt_le_dec q (pow2 (-1022))) as [ S | L ].
  - destruct (Rounds_abs_error q _ (-1074) R F) as (A & B); [ lia | | ].
    + apply Qlt_le_trans with (pow2 (-1022)); [ exact S | apply pow2_le; lia ].
    + assert (E : ((1 # 2) * pow2 (-1074) == pow2 (-1075))%Q).
      { change (-1074)%Z with (-1075 + 1)%Z. rewrite pow2_succ. ring. }
      unfold B2Q. split; lra.
  - destruct (Rounds_rel q _ R L F) as (A & B). unfold B2Q. split; lra.
Qed.

(** Rounding a real of the binade [[2^(e+52), 2^(e+53))] gives at least
    the number [c] as soon as the real is less than half a step below it. *)
Lemma Rounds_ge_near (q : Q) (x c : float) (e : Z) :
  Rounds q (Prim2SF x) -> finite x -> finite c -> (-1074 <= e)%Z ->
  (pow2 (e + 52) <= q)%Q -> (q < pow2 (e + 53))%Q ->
  (B2Q c - (1 # 2) * pow2 e < q)%Q ->
  (B2Q c <= B2Q x)%Q.
Proof.
  intros R Fx Fc E Lo Hi Near.
  pose proof (pow2_pos e) as Pe. pose proof (pow2_pos (e + 52)) as Pb.
  assert (X1 : (pow2 (e + 52) <= B2Q x)%Q).
  { apply (Rounds_ge_grid q _ _ R Fx Lo). intros e' E' N'.
    pose proof (Rounds_exponent q e e' E Hi N') as L.
    exists (1 * 2 ^ (e + 52 - e'))%Z. rewrite inject_Z_pow2_mul by lia.
    replace (e' + (e + 52 - e'))%Z with (e + 52)%Z by lia.
    change (inject_Z 1) with 1%Q. ring. }
  destruct (Qlt_le_dec (B2Q c) (pow2 (e + 52))) as [ S | L ]; [ lra | ].
  destruct (float_grid x e Fx E) as (kx & Kx).
  { intros _. rewrite Qabs_pos by lra. exact X1. }
  destruct (float_grid c e Fc E) as (kc & Kc).
  { intros _. rewrite Qabs_pos by lra. exact L. }
  destruct (Rounds_abs_error q _ e R Fx E Hi) as (A & _). fold (B2Q x) in A.
  assert (T : (inject_Z (kc - 1) * pow2 e < inject_Z kx * pow2 e)%Q).
  { unfold Z.sub. rewrite inject_Z_plus, inject_Z_opp. change (inject_Z 1) with 1%Q.
    rewrite <- Kx. lra. }
  apply lattice_lt in T. rewrite Kx, Kc.
  apply Qmult_le_compat_r; [ | lra ]. rewrite <- Zle_Qle. lia.
Qed.

(** Rounding a real that is less than half a step above the number [c]
    gives at most [c]. *)
Lemma Rounds_le_near (q : Q) (x c : float) (e : Z) :
  Rounds q (Prim2SF x) -> finite c -> (-1074 <= e)%Z ->
  (pow2 (e + 52) <= B2Q c)%Q -> (B2Q c < pow2 (e + 53))%Q ->
  (q < B2Q c + (1 # 2) * pow2 e)%Q ->
  finite x /\ (B2Q x <= B2Q c)%Q.
Proof.
  intros R Fc E Lo Hi Near.
  pose proof (pow2_pos e) as Pe. pose proof (pow2_pos (e + 52)) as Pb.
  destruct (float_grid c e Fc E) as (kc & Kc).
  { intros _. rewrite Qabs_pos by lra. exact Lo. }
  assert (S : (inject_Z kc * pow2 e < inject_Z (2 ^ 53) * pow2 e)%Q).
  { rewrite <- Kc. rewrite <- (pow2_Z 53) by lia. rewrite <- pow2_add.
    replace (53 + e)%Z with (e + 53)%Z by lia. exact Hi. }
  apply lattice_lt in S.
  assert (C1 : (B2Q c + pow2 e <= pow2 (e + 53))%Q).
  { rewrite Kc. rewrite <- inject_Z_succ_mul.
    replace (e + 53)%Z with (53 + e)%Z by lia. rewrite pow2_add, (pow2_Z 53) by lia.
    apply Qmult_le_compat_r; [ | lra ]. rewrite <- Zle_Qle. lia. }
  pose proof (SF2Q_lt_max _ (Prim2SF_valid c)) as Mc. fold (B2Q c) in Mc.
  assert (E53 : (e + 53 <= 1024)%Z).
  { destruct (Z_le_gt_dec (e + 53) 1024) as [ L | G ]; [ exact L | exfalso ].
    assert (pow2 1024 <= pow2 (e + 52))%Q by (apply pow2_le; lia). lra. }
  pose proof (pow2_le _ _ E53) as P1024.
  assert (Hq : (q < pow2 (e + 53))%Q) by lra.
  assert (Fx : finite x).
  { apply (Rounds_finite_below q _ e R E Hq). lra. }
  split; [ exact Fx | ].
  destruct (Rounds_abs_error q _ e R Fx E Hq) as (_ & B). fold (B2Q x) in B.
  pose proof (Rounds_nonneg _ _ R Fx) as Nx.
  destruct (Qlt_le_dec (B2Q x) (pow2 (e + 52))) as [ Sx | Lx ]; [ lra | ].
  destruct (float_grid x e Fx E) as (kx & Kx).
  { intros _. rewrite Qabs_pos by lra. exact Lx. }
  assert (T : (inject_Z kx * pow2 e < inject_Z (kc + 1) * pow2 e)%Q).
  { rewrite inject_Z_succ_mul, <- Kx, <- Kc. lra. }
  apply lattice_lt in T. rewrite Kx, Kc.
  apply Qmult_le_compat_r; [ | lra ]. rewrite <- Zle_Qle. lia.
Qed.

(** ** Signs *)

Lemma SFabs_SFmul (x y : spec_float) :
  SFabs (SFmul prec emax x y) = SFmul prec emax (SFabs x) (SFabs y).
Proof.
  destruct x as [ sx | sx | | sx mx ex ], y as [ sy | sy | | sy my ey ];
    try reflexivity.
  cbn [SFmul SFabs xorb]. apply SFabs_binary_round_aux.
Qed.

(** The absolute value of a product is the product of the absolute
    values, exactly. *)
Lemma abs_mul (a b : float) : abs (a * b) = abs a * abs b.
Proof.
  apply Prim2SF_inj. rewrite abs_spec, !mul_spec, !abs_spec.
  apply SFabs_SFmul.
Qed.

Lemma B2Q_abs (x : float) : (B2Q (abs x) == Qabs (B2Q x))%Q.
Proof.
  unfold B2Q. rewrite abs_spec.
  destruct (Prim2SF x) as [ s | s | | s m e ]; try reflexivity.
  pose proof (mag_pos m e). cbn [SFabs SF2Q].
  destruct s; [ rewrite Qabs_neg by lra; ring | symmetry; apply Qabs_pos; lra ].
Qed.

Lemma finite_abs (x : float) : finite (abs x) <-> finite x.
Proof.
  unfold finite. rewrite abs_spec.
  destruct (Prim2SF x) as [ s | s | | s m e ]; simpl; tauto.
Qed.

Lemma abs_opp (x : float) : abs (- x) = abs x.
Proof.
  apply Prim2SF_inj. rewrite !abs_spec, opp_spec.
  destruct (Prim2SF x) as [ s | s | | s m e ]; reflexivity.
Qed.

Lemma abs_of_pos (x : float) : (0 <? x) = true -> abs x = x.
Proof.
  intros H. apply Prim2SF_inj. rewrite abs_spec.
  rewrite FloatAxioms.ltb_spec in H. unfold SFltb in H.
  change (Prim2SF 0) with (S754_zero false) in H.
  destruct (Prim2SF x) as [ s | s | | s m e ]; simpl in H;
    try destruct s; try discriminate; reflexivity.
Qed.

Lemma opp_of_neg (x : float) : (x <? 0) = true -> - x = abs x.
Proof.
  intros H. apply Prim2SF_inj. rewrite abs_spec, opp_spec.
  rewrite FloatAxioms.ltb_spec in H. unfold SFltb in H.
  change (Prim2SF 0) with (S754_zero false) in H.
  destruct (Prim2SF x) as [ s | s | | s m e ]; simpl in H;
    try destruct s; try discriminate; reflexivity.
Qed.

Lemma opp_gt0 (x : float) : (0 <? - x) = (x <? 0).
Proof.
  rewrite !FloatAxioms.ltb_spec, opp_spec. unfold SFltb.
  change (Prim2SF 0) with (S754_zero false).
  destruct (Prim2SF x) as [ s | s | | s m e ]; simpl; try destruct s; reflexivity.
Qed.

Lemma opp_lt0 (x : float) : (- x <? 0) = (0 <? x).
Proof.
  rewrite !FloatAxioms.ltb_spec, opp_spec. unfold SFltb.
  change (Prim2SF 0) with (S754_zero false).
  destruct (Prim2SF x) as [ s | s | | s m e ]; simpl; try destruct s; reflexivity.
Qed.

Lemma SFadd_comm (x y : spec_float) : SFadd prec emax x y = SFadd prec emax y x.
Proof.
  destruct x as [ sx | sx | | sx mx ex ], y as [ sy | sy | | sy my ey ];
    try reflexivity; try (destruct sx, sy; reflexivity).
  cbn [SFadd]. rewrite (Z.min_comm ey ex). rewrite Z.add_comm. reflexivity.
Qed.

(** Addition of numbers is commutative. *)
Lemma add_comm (x y : float) : x + y = y + x.
Proof. apply Prim2SF_inj. rewrite !add_spec. apply SFadd_comm. Qed.

(** ** The binade of a normal number *)

Lemma binade (x : float) :
  finite x -> (pow2 (-1021) <= B2Q x)%Q ->
  exists e : Z, (-1074 < e)%Z /\ (pow2 (e + 52) <= B2Q x)%Q /\ (B2Q x < pow2 (e + 53))%Q.
Proof.
  intros F H. pose proof (pow2_pos (-1021)) as P.
  destruct (finite_pos_shape x F ltac:(lra)) as (m & e & E & V).
  unfold B2Q in *. rewrite E in *. cbn [SF2Q] in *.
  destruct (bounded_inv _ _ V) as (U & B & N).
  assert (S : (mag m e < pow2 (e + 53))%Q) by (apply mag_lt_pow2; [ exact U | lia ]).
  assert (G : (-1074 < e)%Z).
  { destruct (Z_le_gt_dec e (-1074)) as [ L | G ]; [ exfalso | lia ].
    assert (pow2 (e + 53) <= pow2 (-1021))%Q by (apply pow2_le; lia). lra. }
  exists e. split; [ exact G | ]. split; [ | exact S ].
  apply mag_ge_pow2; [ apply N; exact G | lia ].
Qed.

(** Two distinct numbers of the same binade, or above it, differ by at
    least one step of the binade. *)
Lemma float_gap (x y : float) (e : Z) :
  finite x -> finite y -> (-1074 <= e)%Z ->
  (pow2 (e + 52) <= B2Q y)%Q -> (B2Q y < B2Q x)%Q ->
  (pow2 e <= B2Q x - B2Q y)%Q.
Proof.
  intros Fx Fy E Ly L. pose proof (pow2_pos (e + 52)) as P.
  destruct (float_grid x e Fx E) as (kx & Kx).
  { intros _. rewrite Qabs_pos by lra. lra. }
  destruct (float_grid y e Fy E) as (ky & Ky).
  { intros _. rewrite Qabs_pos by lra. lra. }
  rewrite Kx, Ky in L. apply lattice_lt in L.
  rewrite Kx, Ky.
  assert (T : (inject_Z (ky + 1) * pow2 e <= inject_Z kx * pow2 e)%Q).
  { apply Qmult_le_compat_r; [ | apply Qlt_le_weak, pow2_pos ].
    rewrite <- Zle_Qle. lia. }
  rewrite inject_Z_succ_mul in T. lra.
Qed.

(** A power of two is on the grid of every real below [2^(e+53)]. *)
Lemma pow2_on_grid (q : Q) (e e' : Z) :
  (-1074 <= e)%Z -> (q < pow2 (e + 53))%Q ->
  (-1074 <= e')%Z -> ((-1074 < e')%Z -> (pow2 (e' + 52) <= q)%Q) ->
  exists k : Z, (pow2 e == inject_Z k * pow2 e')%Q.
Proof.
  intros E H E' N. pose proof (Rounds_exponent q e e' E H N) as L.
  exists (1 * 2 ^ (e - e'))%Z. rewrite inject_Z_pow2_mul by lia.
  replace (e' + (e - e'))%Z with e by lia. change (inject_Z 1) with 1%Q. ring.
Qed.

(** ** Results that are negative or zero *)

Lemma SFclass_true_nonpos (r : spec_float) :
  SFclass true r \/ r = S754_nan -> (SF2Q r <= 0)%Q.
Proof.
  intros [ [ E | [ (m & e & E) | E ] ] | E ]; subst r; simpl; try lra.
  pose proof (mag_pos m e). lra.
Qed.

Lemma nonpos_cases (x : float) :
  finite x -> (B2Q x <= 0)%Q ->
  (exists s, Prim2SF x = S754_zero s) \/
  (exists m e, Prim2SF x = S754_finite true m e /\ bounded prec emax m e = true).
Proof.
  unfold finite, B2Q. pose proof (Prim2SF_valid x) as V.
  destruct (Prim2SF x) as [ s | s | | s m e ]; simpl in *; intros F N; try discriminate.
  - left. exists s. reflexivity.
  - right. destruct s.
    + exists m, e. split; [ reflexivity | exact V ].
    + pose proof (mag_pos m e). lra.
Qed.

(** The difference of two non-negative numbers is not positive when the
    first is not the larger one. *)
Lemma sub_nonpos (x y : float) :
  finite x -> finite y -> (0 <= B2Q x)%Q -> (B2Q x <= B2Q y)%Q ->
  (B2Q (x - y) <= 0)%Q.
Proof.
  intros Fx Fy Nx L. assert (Ny : (0 <= B2Q y)%Q) by lra.
  revert L. unfold B2Q. rewrite sub_spec. unfold SF64sub.
  destruct (nonneg_cases x Fx Nx) as [ (sx & Ex) | (mx & ex & Ex & Vx) ];
    destruct (nonneg_cases y Fy Ny) as [ (sy & Ey) | (my & ey & Ey & Vy) ];
    rewrite Ex, Ey; cbn [SFsub SF2Q]; intros L.
  - destruct sx, sy; simpl; lra.
  - cbn [negb]. pose proof (mag_pos my ey). lra.
  - exact L.
  - cbn [cond_Zopp].
    set (ez := Z.min ex ey).
    pose proof (shl_align_mag mx ex ez) as Wx.
    pose proof (shl_align_mag my ey ez) as Wy.
    replace (Z.min ex ez) with ez in Wx by lia.
    replace (Z.min ey ez) with ez in Wy by lia.
    set (ax := fst (shl_align mx ex ez)) in *.
    set (ay := fst (shl_align my ey ez)) in *.
    assert (K : (Zpos ax <= Zpos ay)%Z).
    { apply lattice_le with ez. fold (mag ay ez). fold (mag ax ez). lra. }
    destruct (Zpos ax - Zpos ay)%Z as [ | p | p ] eqn:D; try lia; cbn [binary_normalize].
    + simpl. lra.
    + apply SFclass_true_nonpos. unfold binary_round.
      destruct (shl_align p ez _) as [mz e']. apply binary_round_aux_sign. lia.
Qed.

Lemma div_nonpos (z m : float) :
  finite z -> (B2Q z <= 0)%Q -> finite m -> (0 < B2Q m)%Q ->
  (B2Q (z / m) <= 0)%Q.
Proof.
  intros Fz Nz Fm Pm.
  destruct (finite_pos_shape m Fm Pm) as (mm & em & Em & Vm).
  unfold B2Q. rewrite div_spec. unfold SF64div. rewrite Em.
  destruct (nonpos_cases z Fz Nz) as [ (s & E) | (mz & ez & E & Vz) ]; rewrite E.
  - cbn [SFdiv SF2Q]. lra.
  - cbn [SFdiv xorb].
    pose proof (SFdiv_core_binary_spec mz mm ez em) as S.
    destruct (SFdiv_core_binary prec emax (Zpos mz) ez (Zpos mm) em) as [[q e'] l].
    destruct S as (Hq & _).
    apply SFclass_true_nonpos. apply binary_round_aux_sign. exact Hq.
Qed.

Lemma mul_nonpos (z k : float) :
  finite z -> (B2Q z <= 0)%Q -> finite k -> (0 < B2Q k)%Q ->
  (B2Q (z * k) <= 0)%Q.
Proof.
  intros Fz Nz Fk Pk.
  destruct (finite_pos_shape k Fk Pk) as (mk & ek & Ek & Vk).
  unfold B2Q. rewrite mul_spec. unfold SF64mul. rewrite Ek.
  destruct (nonpos_cases z Fz Nz) as [ (s & E) | (mz & ez & E & Vz) ]; rewrite E.
  - cbn [SFmul SF2Q]. lra.
  - cbn [SFmul xorb].
    apply SFclass_true_nonpos. apply binary_round_aux_sign. lia.
Qed.

(** * The technical indicators *)

(** A draw scaled to a percentage. *)
Lemma percent_range (r : float) :
  (0 <=? r) = true -> (r <? 1) = true ->
  finite (r * 100) /\ (0 <= B2Q (r * 100) <= 100)%Q.
Proof.
  intros L U. destruct (unit_draw_range r L U) as (Fr & R0 & R1).
  assert (F100 : finite 100) by reflexivity.
  pose proof (mul_Rounds r 100 Fr F100 ltac:(lra) ltac:(by_computation)) as R.
  destruct (Rounds_le _ _ 100 R F100) as (F & Up).
  { literal 100. lra. }
  pose proof (Rounds_nonneg _ _ R F) as Lo.
  literal 100. split; [ exact F | lra ].
Qed.

(** The strength of the RSI indicator, [|rsi - 50| / 50 * 100]. *)
Lemma rsi_strength (rsi : float) :
  finite rsi -> (0 <= B2Q rsi <= 100)%Q ->
  let s := Math_abs (rsi - 50) / 50 * 100 in
  finite s /\ (0 <= B2Q s <= 100)%Q /\
  ((B2Q rsi < 30 \/ 70 < B2Q rsi)%Q -> (40 <= B2Q s)%Q) /\
  ((30 <= B2Q rsi <= 70)%Q -> (B2Q s <= 40)%Q).
Proof.
  intros F [R0 R1]. cbv zeta. unfold Math_abs.
  assert (F50 : finite 50) by reflexivity.
  assert (F100 : finite 100) by reflexivity.
  assert (E50 : (B2Q 50 == 50)%Q) by by_computation.
  assert (E100 : (B2Q 100 == 100)%Q) by by_computation.
  (* the distance to 50 *)
  pose proof (abs_sub_Rounds rsi 50 F F50 R0 ltac:(by_computation)) as Ra.
  rewrite E50 in Ra.
  assert (A50 : (Qabs (B2Q rsi - 50) <= 50)%Q) by (apply Qabs_Qle_condition; split; lra).
  destruct (Rounds_le _ _ 50 Ra F50) as (Fa & Ua); [ rewrite E50; exact A50 | ].
  pose proof (Rounds_nonneg _ _ Ra Fa) as La.
  set (a := abs (rsi - 50)) in *. rewrite E50 in Ua.
  (* divided by 50 *)
  pose proof (div_Rounds a 50 Fa F50 La ltac:(by_computation)) as Rq.
  rewrite E50 in Rq.
  assert (Q1 : (B2Q a / 50 <= 1)%Q) by (apply Qle_shift_div_r; lra).
  assert (Q0 : (0 <= B2Q a / 50)%Q) by (apply Qle_shift_div_l; lra).
  destruct (Rounds_le _ _ 1 Rq) as (Fq & Uq); [ reflexivity | | ].
  { assert (B2Q 1 == 1)%Q by by_computation. lra. }
  assert (E1 : (B2Q 1 == 1)%Q) by by_computation. rewrite E1 in Uq.
  pose proof (Rounds_nonneg _ _ Rq Fq) as Lq.
  set (q := a / 50) in *.
  (* times 100 *)
  pose proof (mul_Rounds q 100 Fq F100 Lq ltac:(by_computation)) as Rs.
  rewrite E100 in Rs.
  destruct (Rounds_le _ _ 100 Rs F100) as (Fs & Us); [ rewrite E100; lra | ].
  pose proof (Rounds_nonneg _ _ Rs Fs) as Ls. rewrite E100 in Us.
  split; [ exact Fs | ]. split; [ lra | ]. split.
  - (* far from 50 *)
    intros Far.
    assert (A20 : (20 <= Qabs (B2Q rsi - 50))%Q).
    { destruct Far as [ B | S ].
      - rewrite Qabs_neg by lra. lra.
      - rewrite Qabs_pos by lra. lra. }
    assert (La20 : (20 <= B2Q a)%Q).
    { assert (E20 : (B2Q 20 == 20)%Q) by by_computation. rewrite <- E20.
      apply (Rounds_ge _ _ 20 Ra); [ reflexivity | exact Fa | rewrite E20; exact A20 ]. }
    assert (Q4 : (4 # 10 <= B2Q a / 50)%Q) by (apply Qle_shift_div_l; lra).
    assert (Lq4 : (B2Q 0.4 <= B2Q q)%Q).
    { destruct (Qlt_le_dec (B2Q a / 50) (1 # 2)) as [ S | L ].
      - apply (Rounds_ge_near _ q 0.4 (-54) Rq Fq); [ reflexivity | lia | | | ].
        + assert (pow2 (-54 + 52) == 1 # 4)%Q by reflexivity. lra.
        + assert (pow2 (-54 + 53) == 1 # 2)%Q by reflexivity. lra.
        + assert (B2Q 0.4 - (1 # 2) * pow2 (-54) < 4 # 10)%Q by by_computation. lra.
      - assert (B2Q 0.4 <= B2Q 0.5)%Q by by_computation.
        assert (B2Q 0.5 <= B2Q q)%Q.
        { apply (Rounds_ge _ _ 0.5 Rq); [ reflexivity | exact Fq | ].
          assert (B2Q 0.5 == 1 # 2)%Q by by_computation. lra. }
        lra. }
    assert (E40 : (B2Q 40 == 40)%Q) by by_computation. rewrite <- E40.
    apply (Rounds_ge _ _ 40 Rs); [ reflexivity | exact Fs | ].
    assert (40 <= B2Q 0.4 * 100)%Q by by_computation. rewrite E40. lra.
  - (* close to 50 *)
    intros [C1 C2].
    assert (A20 : (Qabs (B2Q rsi - 50) <= 20)%Q) by (apply Qabs_Qle_condition; split; lra).
    assert (Ua20 : (B2Q a <= 20)%Q).
    { assert (E20 : (B2Q 20 == 20)%Q) by by_computation. rewrite <- E20.
      apply (Rounds_le _ _ 20 Ra); [ reflexivity | rewrite E20; exact A20 ]. }
    assert (Q4 : (B2Q a / 50 <= 4 # 10)%Q) by (apply Qle_shift_div_r; lra).
    assert (Uq4 : (B2Q q <= B2Q 0.4)%Q).
    { apply (Rounds_le _ _ 0.4 Rq); [ reflexivity | ].
      assert (4 # 10 <= B2Q 0.4)%Q by by_computation. lra. }
    assert (E40 : (B2Q 40 == 40)%Q) by by_computation. rewrite <- E40.
    apply (Rounds_le_near _ (q * 100) 40 (-47) Rs); [ reflexivity | lia | | | ].
    + by_computation.
    + by_computation.
    + assert (B2Q 0.4 * 100 < B2Q 40 + (1 # 2) * pow2 (-47))%Q by by_computation. lra.
Qed.

(** The MACD value [(r - 0.5) * 5] and its strength [|macd| * 20]. *)
Lemma macd_facts (r : float) :
  (0 <=? r) = true -> (r <? 1) = true ->
  let macd := (r - 0.5) * 5 in
  let s := Math_abs macd * 20 in
  finite macd /\ (- (5 # 2) <= B2Q macd <= 5 # 2)%Q /\
  finite s /\ (0 <= B2Q s <= 50)%Q /\
  ((B2Q macd < - (1))%Q -> (20 <= B2Q s)%Q) /\
  ((- (1) <= B2Q macd <= 1)%Q -> (B2Q s <= 20)%Q).
Proof.
  intros L U. destruct (unit_draw_range r L U) as (Fr & R0 & R1).
  cbv zeta. unfold Math_abs. rewrite abs_mul.
  replace (abs 5) with 5 by reflexivity.
  assert (Fh : finite 0.5) by reflexivity.
  assert (F5 : finite 5) by reflexivity.
  assert (F20 : finite 20) by reflexivity.
  assert (Eh : (B2Q 0.5 == 1 # 2)%Q) by by_computation.
  assert (E5 : (B2Q 5 == 5)%Q) by by_computation.
  assert (E20 : (B2Q 20 == 20)%Q) by by_computation.
  (* |r - 0.5| *)
  pose proof (abs_sub_Rounds r 0.5 Fr Fh R0 ltac:(by_computation)) as Ra.
  rewrite Eh in Ra.
  assert (Ah : (Qabs (B2Q r - (1 # 2)) <= 1 # 2)%Q)
    by (apply Qabs_Qle_condition; split; lra).
  destruct (Rounds_le _ _ 0.5 Ra Fh) as (Fa & Ua); [ rewrite Eh; exact Ah | ].
  rewrite Eh in Ua. pose proof (Rounds_nonneg _ _ Ra Fa) as La.
  set (a := abs (r - 0.5)) in *.
  (* times 5 *)
  pose proof (mul_Rounds a 5 Fa F5 La ltac:(by_computation)) as Rm.
  rewrite E5 in Rm.
  destruct (Rounds_le _ _ 2.5 Rm) as (Fm & Um); [ reflexivity | | ].
  { assert (B2Q 2.5 == 5 # 2)%Q by by_computation. lra. }
  assert (E25 : (B2Q 2.5 == 5 # 2)%Q) by by_computation. rewrite E25 in Um.
  pose proof (Rounds_nonneg _ _ Rm Fm) as Lm.
  (* the signed value *)
  assert (Em : a * 5 = abs ((r - 0.5) * 5)).
  { rewrite abs_mul. reflexivity. }
  set (macd := (r - 0.5) * 5) in *.
  assert (Fv : finite macd) by (apply finite_abs; rewrite <- Em; exact Fm).
  assert (Av : (B2Q (a * 5) == Qabs (B2Q macd))%Q) by (rewrite Em; apply B2Q_abs).
  assert (Bv : (- (5 # 2) <= B2Q macd <= 5 # 2)%Q).
  { apply Qabs_Qle_condition. rewrite <- Av. exact Um. }
  (* times 20 *)
  pose proof (mul_Rounds (a * 5) 20 Fm F20 Lm ltac:(by_computation)) as Rs.
  rewrite E20 in Rs.
  destruct (Rounds_le _ _ 50 Rs) as (Fs & Us); [ reflexivity | | ].
  { assert (B2Q 50 == 50)%Q by by_computation. lra. }
  assert (E50 : (B2Q 50 == 50)%Q) by by_computation. rewrite E50 in Us.
  pose proof (Rounds_nonneg _ _ Rs Fs) as Ls.
  split; [ exact Fv | ]. split; [ exact Bv | ]. split; [ exact Fs | ].
  split; [ lra | ]. split.
  - intros N. rewrite <- E20. apply (Rounds_ge _ _ 20 Rs); [ reflexivity | exact Fs | ].
    rewrite E20, Av. rewrite Qabs_neg by lra. lra.
  - intros C. rewrite <- E20. apply (Rounds_le _ _ 20 Rs); [ reflexivity | ].
    rewrite E20, Av.
    assert (Qabs (B2Q macd) <= 1)%Q by (apply Qabs_Qle_condition; exact C). lra.
Qed.

(** A finite number is comparable with every finite number. *)
Lemma ltb_false_finite (x y : float) :
  finite x -> finite y -> (x <? y) = false -> (B2Q y <= B2Q x)%Q.
Proof.
  intros Fx Fy H. destruct (Qlt_le_dec (B2Q x) (B2Q y)) as [ L | G ]; [ | exact G ].
  apply ltb_finite in L; try assumption. congruence.
Qed.

Lemma leb_false_finite (x y : float) :
  finite x -> finite y -> (x <=? y) = false -> (B2Q y < B2Q x)%Q.
Proof.
  intros Fx Fy H. destruct (Qlt_le_dec (B2Q y) (B2Q x)) as [ L | G ]; [ exact L | ].
  apply leb_finite in G; try assumption. congruence.
Qed.

(** [Math.min(100, s)] is [s] when [s] is a number not above 100. *)
Lemma Math_min_100_id (s : float) :
  (s <=? 100) = true -> Math_min 100 s = s.
Proof.
  intros H. unfold Math_min.
  apply leb_rank in H. destruct H as (N & _ & H).
  replace (is_nan 100) with false by reflexivity.
  replace (is_nan s) with false by (symmetry; apply is_nan_iff; exact N).
  cbn [orb].
  destruct (100 <? s) eqn:A.
  - apply ltb_rank in A. destruct A as (_ & _ & A). lra.
  - destruct (s <? 100) eqn:B; [ reflexivity | ].
    replace (is_zero 100) with false by reflexivity. reflexivity.
Qed.

(** X9: the RSI indicator.  Its value and its strength lie in [0, 100]; it
    signals BUY exactly below 30 and SELL exactly above 70; a BUY or SELL
    signal always has strength at least 40, a HOLD signal at most 40. *)
Theorem rsi_indicator_bounds :
  forall (price : float) (g : Rng),
    unit_draws g ->
    let i := rsiIndicator (g 0%nat * 100) in
    nth_error (fst (calculateTechnicalIndicators price g)) 0 = Some i /\
    (0 <=? ind_value i) = true /\ (ind_value i <=? 100) = true /\
    (0 <=? ind_strength i) = true /\ (ind_strength i <=? 100) = true /\
    (ind_signal i = BUY <-> (ind_value i <? 30) = true) /\
    (ind_signal i = SELL <-> (ind_value i >? 70) = true) /\
    (ind_signal i <> HOLD -> (40 <=? ind_strength i) = true) /\
    (ind_signal i = HOLD -> (ind_strength i <=? 40) = true).
Proof.
  intros price g Hg. cbv zeta. destruct (Hg 0%nat) as [L U].
  destruct (percent_range _ L U) as (F & R0 & R1).
  destruct (rsi_strength _ F (conj R0 R1)) as (Fs & (S0 & S1) & Far & Close).
  set (rsi := g 0%nat * 100) in *.
  assert (F30 : finite 30) by reflexivity.
  assert (F70 : finite 70) by reflexivity.
  assert (E30 : (B2Q 30 == 30)%Q) by by_computation.
  assert (E70 : (B2Q 70 == 70)%Q) by by_computation.
  unfold rsiIndicator. cbn [ind_value ind_signal ind_strength]. unfold gtb.
  split; [ reflexivity | ].
  split; [ apply leb_finite; [ reflexivity | exact F | exact R0 ] | ].
  split; [ apply leb_finite; [ exact F | reflexivity | ];
           assert (B2Q 100 == 100)%Q by by_computation; lra | ].
  split; [ apply leb_finite; [ reflexivity | exact Fs | exact S0 ] | ].
  split; [ apply leb_finite; [ exact Fs | reflexivity | ];
           assert (B2Q 100 == 100)%Q by by_computation; lra | ].
  destruct (rsi <? 30) eqn:A.
  - pose proof (proj1 (ltb_finite _ _ F F30) A) as A'.
    assert (B : (70 <? rsi) = false).
    { destruct (70 <? rsi) eqn:B; [ | reflexivity ].
      apply (ltb_finite _ _ F70 F) in B. lra. }
    rewrite B. repeat split; try discriminate; try reflexivity; try congruence.
    intros _. apply leb_finite; [ reflexivity | exact Fs | ].
    assert (B2Q 40 == 40)%Q by by_computation.
    assert (40 <= B2Q (Math_abs (rsi - 50) / 50 * 100))%Q by (apply Far; lra). lra.
  - pose proof (ltb_false_finite _ _ F F30 A) as A'.
    destruct (70 <? rsi) eqn:B.
    + pose proof (proj1 (ltb_finite _ _ F70 F) B) as B'.
      repeat split; try discriminate; try reflexivity; try congruence.
      intros _. apply leb_finite; [ reflexivity | exact Fs | ].
      assert (B2Q 40 == 40)%Q by by_computation.
      assert (40 <= B2Q (Math_abs (rsi - 50) / 50 * 100))%Q by (apply Far; lra). lra.
    + pose proof (ltb_false_finite _ _ F70 F B) as B'.
      repeat split; try discriminate; try reflexivity; try congruence.
      intros _. apply leb_finite; [ exact Fs | reflexivity | ].
      assert (B2Q 40 == 40)%Q by by_computation.
      assert (B2Q (Math_abs (rsi - 50) / 50 * 100) <= 40)%Q by (apply Close; lra). lra.
Qed.

(** X10: the MACD indicator.  Its value lies in [-2.5, 2.5] and its strength
    in [0, 50]; it signals BUY for every positive value, however small, but
    SELL only below -1: a SELL signal has strength at least 20 and a HOLD
    signal at most 20. *)
Theorem macd_indicator_bounds :
  forall (price : float) (g : Rng),
    unit_draws g ->
    let i := macdIndicator ((g 1%nat - 0.5) * 5) in
    nth_error (fst (calculateTechnicalIndicators price g)) 1 = Some i /\
    (-2.5 <=? ind_value i) = true /\ (ind_value i <=? 2.5) = true /\
    (0 <=? ind_strength i) = true /\ (ind_strength i <=? 50) = true /\
    (ind_signal i = BUY <-> (ind_value i >? 0) = true) /\
    (ind_signal i = SELL <-> (ind_value i <? -1) = true) /\
    (ind_signal i = SELL -> (20 <=? ind_strength i) = true) /\
    (ind_signal i = HOLD -> (ind_strength i <=? 20) = true).
Proof.
  intros price g Hg. cbv zeta. destruct (Hg 1%nat) as [L U].
  destruct (macd_facts _ L U) as (F & (V0 & V1) & Fs & (S0 & S1) & Sell & Hold).
  set (macd := (g 1%nat - 0.5) * 5) in *.
  assert (F0 : finite 0) by reflexivity.
  assert (Fm1 : finite (-1)) by reflexivity.
  assert (E0 : (B2Q 0 == 0)%Q) by by_computation.
  assert (Em1 : (B2Q (-1) == - (1))%Q) by by_computation.
  unfold macdIndicator. cbn [ind_value ind_signal ind_strength]. unfold gtb.
  split; [ reflexivity | ].
  split; [ apply leb_finite; [ reflexivity | exact F | ];
           assert (B2Q (-2.5) == - (5 # 2))%Q by by_computation; lra | ].
  split; [ apply leb_finite; [ exact F | reflexivity | ];
           assert (B2Q 2.5 == 5 # 2)%Q by by_computation; lra | ].
  split; [ apply leb_finite; [ reflexivity | exact Fs | exact S0 ] | ].
  split; [ apply leb_finite; [ exact Fs | reflexivity | ];
           assert (B2Q 50 == 50)%Q by by_computation; lra | ].
  assert (E20 : (B2Q 20 == 20)%Q) by by_computation.
  destruct (0 <? macd) eqn:A.
  - pose proof (proj1 (ltb_finite _ _ F0 F) A) as A'.
    assert (B : (macd <? -1) = false).
    { destruct (macd <? -1) eqn:B; [ | reflexivity ].
      apply (ltb_finite _ _ F Fm1) in B. lra. }
    rewrite B. repeat split; try discriminate; try reflexivity; try congruence.
  - pose proof (ltb_false_finite _ _ F0 F A) as A'.
    destruct (macd <? -1) eqn:B.
    + pose proof (proj1 (ltb_finite _ _ F Fm1) B) as B'.
      repeat split; try discriminate; try reflexivity; try congruence.
      intros _. apply leb_finite; [ reflexivity | exact Fs | ].
      assert (20 <= B2Q (Math_abs macd * 20))%Q by (apply Sell; lra). lra.
    + pose proof (ltb_false_finite _ _ F Fm1 B) as B'.
      repeat split; try discriminate; try reflexivity; try congruence.
      intros _. apply leb_finite; [ exact Fs | reflexivity | ].
      assert (B2Q (Math_abs macd * 20) <= 20)%Q by (apply Hold; lra). lra.
Qed.

(** The factors of the two moving averages. *)
Lemma ma20_factor (r : float) :
  (0 <=? r) = true -> (r <? 1) = true ->
  finite (0.95 + r * 0.1) /\ (B2Q 0.95 <= B2Q (0.95 + r * 0.1) <= B2Q 1.05)%Q.
Proof.
  intros L U. destruct (unit_draw_range r L U) as (Fr & R0 & R1).
  assert (Fw : finite 0.1) by reflexivity.
  assert (Fb : finite 0.95) by reflexivity.
  pose proof (mul_Rounds r 0.1 Fr Fw ltac:(lra) ltac:(by_computation)) as Rt.
  destruct (Rounds_le _ _ 0.1 Rt Fw) as (Ft & Ut).
  { assert (0 <= B2Q 0.1)%Q by by_computation.
    rewrite <- (Qmult_1_l (B2Q 0.1)) at 2. apply Qmult_le_compat_r; lra. }
  pose proof (Rounds_nonneg _ _ Rt Ft) as Lt.
  pose proof (add_Rounds 0.95 (r * 0.1) Fb Ft ltac:(by_computation) Lt) as Rk.
  destruct (Rounds_le _ _ 1.05 Rk) as (Fk & Uk); [ reflexivity | | ].
  { assert (B2Q 0.95 + B2Q 0.1 <= B2Q 1.05)%Q by by_computation. lra. }
  pose proof (Rounds_ge _ _ 0.95 Rk Fb Fk ltac:(lra)) as Lk.
  split; [ exact Fk | split; assumption ].
Qed.

Lemma ma50_factor (r : float) :
  (0 <=? r) = true -> (r <? 1) = true ->
  finite (0.92 + r * 0.16) /\ (B2Q 0.92 <= B2Q (0.92 + r * 0.16) <= B2Q 1.08)%Q.
Proof.
  intros L U. destruct (unit_draw_range r L U) as (Fr & R0 & R1).
  assert (Fw : finite 0.16) by reflexivity.
  assert (Fb : finite 0.92) by reflexivity.
  pose proof (mul_Rounds r 0.16 Fr Fw ltac:(lra) ltac:(by_computation)) as Rt.
  destruct (Rounds_le _ _ 0.16 Rt Fw) as (Ft & Ut).
  { assert (0 <= B2Q 0.16)%Q by by_computation.
    rewrite <- (Qmult_1_l (B2Q 0.16)) at 2. apply Qmult_le_compat_r; lra. }
  pose proof (Rounds_nonneg _ _ Rt Ft) as Lt.
  pose proof (add_Rounds 0.92 (r * 0.16) Fb Ft ltac:(by_computation) Lt) as Rk.
  destruct (Rounds_le _ _ 1.08 Rk) as (Fk & Uk); [ reflexivity | | ].
  { assert (B2Q 0.92 + B2Q 0.16 <= B2Q 1.08)%Q by by_computation. lra. }
  pose proof (Rounds_ge _ _ 0.92 Rk Fb Fk ltac:(lra)) as Lk.
  split; [ exact Fk | split; assumption ].
Qed.

Lemma scale_bounds (P K lo hi : Q) :
  (0 < P)%Q -> (lo <= K <= hi)%Q -> (lo * P <= P * K <= hi * P)%Q.
Proof.
  intros HP [L H]. split.
  - rewrite (Qmult_comm lo). apply (proj2 (Qmult_le_l _ _ _ HP)). exact L.
  - rewrite (Qmult_comm hi). apply (proj2 (Qmult_le_l _ _ _ HP)). exact H.
Qed.

(** The relative distance of the two averages and the numbers derived
    from it. *)
Lemma ma_cross_facts (p k20 k50 : float) :
  price_in_range p -> finite k20 -> finite k50 ->
  (B2Q 0.95 <= B2Q k20 <= B2Q 1.05)%Q -> (B2Q 0.92 <= B2Q k50 <= B2Q 1.08)%Q ->
  let ma20 := p * k20 in
  let ma50 := p * k50 in
  let d := (ma20 - ma50) / ma50 in
  finite ma20 /\ finite ma50 /\ (0 < B2Q ma50)%Q /\ (0 < B2Q ma20)%Q /\
  finite (d * 100) /\ (Qabs (B2Q (d * 100)) <= B2Q 14.2)%Q /\
  finite (Math_abs d * 500) /\ (0 <= B2Q (Math_abs d * 500) <= 71)%Q /\
  ((B2Q ma50 < B2Q ma20)%Q -> (0 < B2Q (d * 100))%Q) /\
  ((B2Q ma20 <= B2Q ma50)%Q -> (B2Q (d * 100) <= 0)%Q).
Proof.
  intros Hp F20 F50 K20 K50. cbv zeta.
  destruct (price_in_range_bounds p Hp) as (Fp & P1 & P2).
  pose proof (pow2_pos (-1000)) as Q1.
  assert (C1 : (9 # 10 <= B2Q 0.92)%Q) by by_computation.
  assert (C2 : (9 # 10 <= B2Q 0.95)%Q) by by_computation.
  assert (C3 : (B2Q 1.05 <= 11 # 10)%Q) by by_computation.
  assert (C4 : (B2Q 1.08 <= 11 # 10)%Q) by by_computation.
  destruct (price_times p k20 Hp F20) as (FA & A1 & A2 & A3); [ lra | ].
  destruct (price_times p k50 Hp F50) as (FB & B1 & B2 & B3); [ lra | ].
  assert (Pp : (0 < B2Q p)%Q) by lra.
  destruct (scale_bounds _ _ _ _ Pp K20) as (S1 & S2).
  destruct (scale_bounds _ _ _ _ Pp K50) as (T1 & T2).
  assert (U : (u64 == 1 # 9007199254740992)%Q) by reflexivity.
  rewrite U in *.
  set (P := B2Q p) in *.
  set (x20 := (P * B2Q k20)%Q) in *. set (x50 := (P * B2Q k50)%Q) in *.
  set (ma20 := p * k20) in *. set (ma50 := p * k50) in *.
  set (M20 := B2Q ma20) in *. set (M50 := B2Q ma50) in *.
  literal 0.92. literal 0.95. literal 1.05. literal 1.08.
  assert (M50pos : (0 < M50)%Q) by lra.
  assert (M20pos : (0 < M20)%Q) by lra.
  split; [ exact FA | ]. split; [ exact FB | ].
  split; [ exact M50pos | ]. split; [ exact M20pos | ].
  unfold Math_abs.
  (* the distance *)
  pose proof (abs_sub_Rounds ma20 ma50 FA FB ltac:(fold M20; lra) ltac:(fold M50; lra)) as Ra.
  fold M20 M50 in Ra.
  assert (Dist : (Qabs (M20 - M50) <= (14131 # 100000) * M50)%Q).
  { destruct (Qlt_le_dec M20 M50) as [ S | L ].
    - rewrite Qabs_neg by lra. lra.
    - rewrite Qabs_pos by lra. lra. }
  assert (E1003 : (B2Q 0x1p+1003 == pow2 1000 * 8)%Q) by by_computation.
  destruct (Rounds_le _ _ 0x1p+1003 Ra) as (Fa & _); [ reflexivity | | ].
  { rewrite E1003. lra. }
  destruct (Rounds_approx _ _ Ra Fa) as (_ & Ua). rewrite U in Ua.
  pose proof (Rounds_nonneg _ _ Ra Fa) as La.
  assert (E75 : (pow2 (-1075) == pow2 (-1000) * (1 # 37778931862957161709568))%Q).
  { change (-1075)%Z with (-1000 + -75)%Z. rewrite pow2_add. reflexivity. }
  set (a := abs (ma20 - ma50)) in *.
  (* the quotient *)
  assert (Ed : abs ((ma20 - ma50) / ma50) = a / ma50).
  { rewrite abs_div. fold a. rewrite (abs_of_pos ma50); [ reflexivity | ].
    apply ltb_finite; [ reflexivity | exact FB | ].
    fold M50. assert (B2Q 0 == 0)%Q by by_computation. lra. }
  pose proof (div_Rounds a ma50 Fa FB La M50pos) as Rq. fold M50 in Rq.
  assert (Qb : (B2Q a / M50 <= 1414 # 10000)%Q).
  { apply Qle_shift_div_r; [ exact M50pos | ]. lra. }
  destruct (Rounds_le _ _ 0.1415 Rq) as (Fq & Uq); [ reflexivity | | ].
  { assert (1414 # 10000 <= B2Q 0.1415)%Q by by_computation. lra. }
  pose proof (Rounds_nonneg _ _ Rq Fq) as Lq.
  set (q := a / ma50) in *.
  set (d := (ma20 - ma50) / ma50) in *.
  (* the value *)
  assert (Ev : abs (d * 100) = q * 100).
  { rewrite abs_mul, Ed. reflexivity. }
  pose proof (mul_Rounds q 100 Fq ltac:(reflexivity) Lq ltac:(by_computation)) as Rv.
  destruct (Rounds_le _ _ 14.2 Rv) as (Fv & Uv); [ reflexivity | | ].
  { assert (B2Q 0.1415 * B2Q 100 <= B2Q 14.2)%Q by by_computation.
    assert (0 <= B2Q 100)%Q by by_computation.
    apply Qle_trans with (B2Q 0.1415 * B2Q 100)%Q; [ | assumption ].
    apply Qmult_le_compat_r; assumption. }
  rewrite <- Ev in Fv, Uv.
  split; [ apply finite_abs; exact Fv | ].
  split; [ rewrite <- B2Q_abs; exact Uv | ].
  (* the strength *)
  rewrite Ed.
  pose proof (mul_Rounds q 500 Fq ltac:(reflexivity) Lq ltac:(by_computation)) as Rs.
  destruct (Rounds_le _ _ 71 Rs) as (Fs & Us); [ reflexivity | | ].
  { assert (B2Q 0.1415 * B2Q 500 <= B2Q 71)%Q by by_computation.
    assert (0 <= B2Q 500)%Q by by_computation.
    apply Qle_trans with (B2Q 0.1415 * B2Q 500)%Q; [ | assumption ].
    apply Qmult_le_compat_r; assumption. }
  pose proof (Rounds_nonneg _ _ Rs Fs) as Ls.
  assert (B2Q 71 == 71)%Q by by_computation.
  split; [ exact Fs | ]. split; [ lra | ].
  (* the sign of the value *)
  assert (Fz : finite (ma20 - ma50)) by (apply finite_abs; exact Fa).
  assert (Fd : finite d) by (apply finite_abs; rewrite Ed; exact Fq).
  assert (F100 : finite 100) by reflexivity.
  assert (E100 : (B2Q 100 == 100)%Q) by by_computation.
  split.
  - intros G. fold M20 M50 in G.
    assert (E21 : (pow2 (-1021) <= pow2 (-1001))%Q) by (apply pow2_le; lia).
    assert (E01 : (pow2 (-1000) == pow2 (-1001) * 2)%Q).
    { change (-1000)%Z with (-1001 + 1)%Z. rewrite pow2_succ. ring. }
    destruct (binade ma50 FB) as (e & Ge & Lo & Hi); [ fold M50; lra | ].
    fold M50 in Lo, Hi.
    pose proof (float_gap ma20 ma50 e FA FB ltac:(lia) Lo G) as Gap.
    fold M20 M50 in Gap. pose proof (pow2_pos e) as Pe.
    assert (E53 : (pow2 (e + 53) == pow2 e * 9007199254740992)%Q).
    { rewrite pow2_add. reflexivity. }
    pose proof (sub_Rounds ma20 ma50 FA FB ltac:(fold M50; lra) ltac:(fold M20 M50; lra)) as Rz.
    fold M20 M50 in Rz.
    assert (Lz : (pow2 e <= B2Q (ma20 - ma50))%Q).
    { apply (Rounds_ge_grid _ _ _ Rz Fz Gap). intros e' E' N'.
      apply (pow2_on_grid (M20 - M50) e e'); try assumption; [ lia | ].
      rewrite Qabs_pos in Dist by lra. lra. }
    pose proof (div_Rounds (ma20 - ma50) ma50 Fz FB ltac:(lra) M50pos) as Rd.
    fold M50 d in Rd.
    assert (E53' : (B2Q 0x1p-53 == 1 # 9007199254740992)%Q) by by_computation.
    assert (Ld : (B2Q 0x1p-53 <= B2Q d)%Q).
    { apply (Rounds_ge _ _ 0x1p-53 Rd); [ reflexivity | exact Fd | ].
      rewrite E53'. apply Qle_shift_div_l; [ exact M50pos | ]. lra. }
    pose proof (mul_Rounds d 100 Fd F100 ltac:(lra) ltac:(by_computation)) as Rv'.
    assert (Lv : (B2Q 0x1p-53 <= B2Q (d * 100))%Q).
    { apply (Rounds_ge _ _ 0x1p-53 Rv'); [ reflexivity | apply finite_abs; exact Fv | ].
      rewrite E100. lra. }
    lra.
  - intros G. fold M20 M50 in G.
    apply mul_nonpos; [ exact Fd | | exact F100 | by_computation ].
    apply div_nonpos; [ exact Fz | | exact FB | exact M50pos ].
    apply sub_nonpos; [ exact FA | exact FB | fold M20; lra | exact G ].
Qed.

(** X11: the MA Cross indicator, for a price in range.  It never signals
    HOLD; its value lies within 14.2 of zero and its strength in [0, 71];
    the signal agrees with the sign of the value: BUY exactly when the
    value is positive. *)
Theorem ma_cross_indicator_bounds :
  forall (price : float) (g : Rng),
    price_in_range price -> unit_draws g ->
    let ma20 := price * (0.95 + g 2%nat * 0.1) in
    let ma50 := price * (0.92 + g 3%nat * 0.16) in
    let i := maCrossIndicator ma20 ma50 in
    nth_error (fst (calculateTechnicalIndicators price g)) 2 = Some i /\
    ind_signal i <> HOLD /\
    (-14.2 <=? ind_value i) = true /\ (ind_value i <=? 14.2) = true /\
    (0 <=? ind_strength i) = true /\ (ind_strength i <=? 71) = true /\
    (ind_signal i = BUY <-> (ind_value i >? 0) = true) /\
    (ind_signal i = SELL <-> (ind_value i <=? 0) = true).
Proof.
  intros price g Hp Hg. cbv zeta.
  destruct (Hg 2%nat) as [L2 U2]. destruct (Hg 3%nat) as [L3 U3].
  destruct (ma20_factor _ L2 U2) as (F20 & K20).
  destruct (ma50_factor _ L3 U3) as (F50 & K50).
  destruct (ma_cross_facts price _ _ Hp F20 F50 K20 K50)
    as (FA & FB & PB & PA & Fv & Bv & Fs & (S0 & S1) & Pos & Neg).
  set (ma20 := price * (0.95 + g 2%nat * 0.1)) in *.
  set (ma50 := price * (0.92 + g 3%nat * 0.16)) in *.
  unfold maCrossIndicator. cbn [ind_value ind_signal ind_strength]. unfold gtb.
  set (v := (ma20 - ma50) / ma50 * 100) in *.
  set (s := Math_abs ((ma20 - ma50) / ma50) * 500) in *.
  apply Qabs_Qle_condition in Bv.
  assert (E0 : (B2Q 0 == 0)%Q) by by_computation.
  assert (F0 : finite 0) by reflexivity.
  split; [ reflexivity | ].
  split; [ destruct (ma50 <? ma20); discriminate | ].
  split; [ apply leb_finite; [ reflexivity | exact Fv | ];
           assert (B2Q (-14.2) == - B2Q 14.2)%Q by by_computation; lra | ].
  split; [ apply leb_finite; [ exact Fv | reflexivity | lra ] | ].
  split; [ apply leb_finite; [ reflexivity | exact Fs | lra ] | ].
  split; [ apply leb_finite; [ exact Fs | reflexivity | ];
           assert (B2Q 71 == 71)%Q by by_computation; lra | ].
  destruct (ma50 <? ma20) eqn:C.
  - pose proof (proj1 (ltb_finite _ _ FB FA) C) as C'. specialize (Pos C').
    assert (V1 : (0 <? v) = true) by (apply ltb_finite; try assumption; lra).
    assert (V2 : (v <=? 0) = false).
    { destruct (v <=? 0) eqn:X; [ | reflexivity ].
      apply leb_finite in X; try assumption. lra. }
    rewrite V1, V2. split; split; intros; congruence.
  - pose proof (ltb_false_finite _ _ FB FA C) as C'. specialize (Neg C').
    assert (V1 : (0 <? v) = false).
    { destruct (0 <? v) eqn:X; [ | reflexivity ].
      apply ltb_finite in X; try assumption. lra. }
    assert (V2 : (v <=? 0) = true) by (apply leb_finite; try assumption; lra).
    rewrite V1, V2. split; split; intros; congruence.
Qed.

(** The strength of the Bollinger Bands indicator. *)
Lemma bollinger_strength_small (price : float) :
  price_in_range price ->
  let s := Math_abs (bollingerPosition price - 50) * 2 in
  finite s /\ (0 <= B2Q s <= B2Q 5e-12)%Q.
Proof.
  intros Hp. cbv zeta.
  destruct (bollingerPosition_near_50 price Hp) as (Fb & B1 & B2).
  set (bb := bollingerPosition price) in *. unfold Math_abs.
  assert (F50 : finite 50) by reflexivity.
  assert (F2 : finite 2) by reflexivity.
  assert (N50 : (0 <= B2Q 50)%Q) by by_computation.
  assert (N2 : (0 <= B2Q 2)%Q) by by_computation.
  pose proof (abs_sub_Rounds bb 50 Fb F50 ltac:(lra) N50) as Ra.
  destruct (Rounds_le _ _ 2e-12 Ra) as (Fa & Ua); [ reflexivity | | ].
  { assert (1 # 1000000000000 <= B2Q 2e-12)%Q by by_computation.
    literal 50. apply Qle_trans with (1 # 1000000000000)%Q; [ | assumption ].
    apply Qabs_Qle_condition. split; lra. }
  pose proof (Rounds_nonneg _ _ Ra Fa) as La.
  pose proof (mul_Rounds _ 2 Fa F2 La N2) as Rs.
  destruct (Rounds_le _ _ 5e-12 Rs) as (Fs & Us); [ reflexivity | | ].
  { assert (B2Q 2e-12 * B2Q 2 <= B2Q 5e-12)%Q by by_computation.
    apply Qle_trans with (B2Q 2e-12 * B2Q 2)%Q; [ | assumption ].
    apply Qmult_le_compat_r; assumption. }
  pose proof (Rounds_nonneg _ _ Rs Fs) as Ls.
  split; [ exact Fs | split; assumption ].
Qed.

Lemma indicators_in_range (price : float) (g : Rng) :
  price_in_range price -> unit_draws g ->
  forall ind, In ind (fst (calculateTechnicalIndicators price g)) ->
    finite (ind_value ind) /\ finite (ind_strength ind) /\
    (0 <= B2Q (ind_strength ind) <= 100)%Q.
Proof.
  intros Hp Hg. rewrite calculateTechnicalIndicators_list.
  intros ind [ <- | [ <- | [ <- | [ <- | [ <- | [] ] ] ] ] ];
    cbn [ind_value ind_strength rsiIndicator macdIndicator maCrossIndicator
         bollingerIndicator volumeIndicator].
  - destruct (Hg 0%nat) as [L U].
    destruct (percent_range _ L U) as (F & R0 & R1).
    destruct (rsi_strength _ F (conj R0 R1)) as (Fs & S & _).
    repeat split; try assumption; apply S.
  - destruct (Hg 1%nat) as [L U].
    destruct (macd_facts _ L U) as (F & _ & Fs & (S0 & S1) & _).
    repeat split; try assumption. lra.
  - destruct (Hg 2%nat) as [L2 U2]. destruct (Hg 3%nat) as [L3 U3].
    destruct (ma20_factor _ L2 U2) as (F20 & K20).
    destruct (ma50_factor _ L3 U3) as (F50 & K50).
    destruct (ma_cross_facts price _ _ Hp F20 F50 K20 K50)
      as (_ & _ & _ & _ & Fv & _ & Fs & (S0 & S1) & _).
    repeat split; try assumption. lra.
  - destruct (bollingerPosition_near_50 price Hp) as (Fb & _).
    destruct (bollinger_strength_small price Hp) as (Fs & S0 & S1).
    repeat split; try assumption.
    assert (B2Q 5e-12 <= 100)%Q by by_computation. lra.
  - destruct (Hg 4%nat) as [L U].
    destruct (percent_range _ L U) as (F & R0 & R1).
    repeat split; try assumption.
Qed.

Lemma indicators_strength_leb (price : float) (g : Rng) :
  price_in_range price -> unit_draws g ->
  forall ind, In ind (fst (calculateTechnicalIndicators price g)) ->
    (0 <=? ind_strength ind) = true /\ (ind_strength ind <=? 100) = true.
Proof.
  intros Hp Hg ind Hi.
  destruct (indicators_in_range price g Hp Hg ind Hi) as (_ & Fs & S0 & S1).
  assert (E100 : (B2Q 100 == 100)%Q) by by_computation.
  split; apply leb_finite; try assumption; try reflexivity. lra.
Qed.

(** X13: for a price in range, the five indicators have finite values and
    strengths between 0 and 100, so that the bar drawn for an indicator,
    [Math.min(100, strength)], always shows the strength itself. *)
Theorem indicator_strengths_bounded :
  forall (price : float) (g : Rng),
    price_in_range price -> unit_draws g ->
    let inds := fst (calculateTechnicalIndicators price g) in
    map ind_name inds =
      [ "RSI (14)"; "MACD"; "MA Cross"; "Bollinger Bands"; "Volume" ]%string /\
    forall ind, In ind inds ->
      is_finite (ind_value ind) = true /\
      (0 <=? ind_strength ind) = true /\ (ind_strength ind <=? 100) = true /\
      Math_min 100 (ind_strength ind) = ind_strength ind.
Proof.
  intros price g Hp Hg. cbv zeta.
  split; [ reflexivity | ].
  intros ind Hi.
  destruct (indicators_in_range price g Hp Hg ind Hi) as (Fv & _).
  destruct (indicators_strength_leb price g Hp Hg ind Hi) as (S0 & S1).
  split; [ apply is_finite_iff; exact Fv | ].
  split; [ exact S0 | ]. split; [ exact S1 | ].
  apply Math_min_100_id. exact S1.
Qed.

(** ** The Volume indicator *)

(** X12: the Volume indicator.  Its value, which is also its strength, lies
    in [0, 100]; it signals BUY exactly above 70 and SELL exactly below 30,
    so that a BUY signal has a strength above 70 but a SELL signal a
    strength below 30. *)
Theorem volume_indicator_bounds :
  forall (price : float) (g : Rng),
    unit_draws g ->
    let i := volumeIndicator (g 4%nat * 100) in
    nth_error (fst (calculateTechnicalIndicators price g)) 4 = Some i /\
    ind_strength i = ind_value i /\
    (0 <=? ind_value i) = true /\ (ind_value i <=? 100) = true /\
    (ind_signal i = BUY <-> (ind_strength i >? 70) = true) /\
    (ind_signal i = SELL <-> (ind_strength i <? 30) = true) /\
    (ind_signal i = HOLD <->
     (30 <=? ind_strength i) = true /\ (ind_strength i <=? 70) = true).
Proof.
  intros price g Hg. cbv zeta. destruct (Hg 4%nat) as [L U].
  destruct (percent_range _ L U) as (F & R0 & R1).
  set (v := g 4%nat * 100) in *.
  assert (F30 : finite 30) by reflexivity.
  assert (F70 : finite 70) by reflexivity.
  assert (E30 : (B2Q 30 == 30)%Q) by by_computation.
  assert (E70 : (B2Q 70 == 70)%Q) by by_computation.
  assert (E100 : (B2Q 100 == 100)%Q) by by_computation.
  unfold volumeIndicator. cbn [ind_value ind_signal ind_strength]. unfold gtb.
  split; [ reflexivity | ]. split; [ reflexivity | ].
  split; [ apply leb_finite; [ reflexivity | exact F | exact R0 ] | ].
  split; [ apply leb_finite; [ exact F | reflexivity | lra ] | ].
  destruct (70 <? v) eqn:A.
  - pose proof (proj1 (ltb_finite _ _ F70 F) A) as A'.
    assert (B : (v <? 30) = false).
    { destruct (v <? 30) eqn:B; [ | reflexivity ].
      apply (ltb_finite _ _ F F30) in B. lra. }
    assert (C : (v <=? 70) = false).
    { destruct (v <=? 70) eqn:C; [ | reflexivity ].
      apply (leb_finite _ _ F F70) in C. lra. }
    rewrite B, C. repeat split; intros; try congruence; try tauto.
    destruct H; congruence.
  - pose proof (ltb_false_finite _ _ F70 F A) as A'.
    assert (C : (v <=? 70) = true) by (apply leb_finite; assumption).
    rewrite C.
    destruct (v <? 30) eqn:B.
    + pose proof (proj1 (ltb_finite _ _ F F30) B) as B'.
      assert (D : (30 <=? v) = false).
      { destruct (30 <=? v) eqn:D; [ | reflexivity ].
        apply (leb_finite _ _ F30 F) in D. lra. }
      rewrite D. repeat split; intros; try congruence; try tauto.
      destruct H; congruence.
    + pose proof (ltb_false_finite _ _ F F30 B) as B'.
      assert (D : (30 <=? v) = true) by (apply leb_finite; assumption).
      rewrite D. repeat split; intros; try congruence; try tauto.
Qed.


(** * Further properties of the decision *)

(** ** The three groups of indicators *)

(** X1: the BUY, SELL and HOLD groups partition the indicators: the three
    counts add up to the number of indicators. *)
Theorem signal_counts_partition :
  forall inds : list TechnicalIndicator,
    (countSignals BUY inds + countSignals SELL inds + countSignals HOLD inds
     = List.length inds)%nat /\
    (forall ind, In ind inds <->
       In ind (withSignal BUY inds) \/ In ind (withSignal SELL inds) \/
       In ind (withSignal HOLD inds)).
Proof.
  intros inds. split.
  - unfold countSignals, withSignal.
    induction inds as [ | i l IH ]; [ reflexivity | ].
    simpl. destruct (ind_signal i); simpl; lia.
  - intros ind. unfold withSignal. rewrite !filter_In. split.
    + intros H. destruct (ind_signal ind) eqn:E; simpl; auto.
    + intros [ H | [ H | H ] ]; apply H.
Qed.

(** ** HOLD indicators *)

Lemma decision_depends_on_votes (price : float)
    (inds1 inds2 : list TechnicalIndicator) (sentiment : float) (g : Rng) :
  withSignal BUY inds1 = withSignal BUY inds2 ->
  withSignal SELL inds1 = withSignal SELL inds2 ->
  let a := fst (generateTradingSignal price inds1 sentiment g) in
  let b := fst (generateTradingSignal price inds2 sentiment g) in
  action a = action b /\ confidence a = confidence b /\
  entryPrice a = entryPrice b /\ targetPrice a = targetPrice b /\
  stopLoss a = stopLoss b /\ riskReward a = riskReward b.
Proof.
  intros HB HS. cbv zeta.
  pose proof (riskReward_def price inds1 sentiment g) as R1.
  pose proof (riskReward_def price inds2 sentiment g) as R2.
  cbv zeta in R1, R2. rewrite R1, R2.
  assert (TB : totalBuyStrength inds1 sentiment = totalBuyStrength inds2 sentiment).
  { unfold totalBuyStrength, sumStrength. rewrite HB. reflexivity. }
  assert (TS : totalSellStrength inds1 sentiment = totalSellStrength inds2 sentiment).
  { unfold totalSellStrength, sumStrength. rewrite HS. reflexivity. }
  assert (CB : countSignals BUY inds1 = countSignals BUY inds2).
  { unfold countSignals. rewrite HB. reflexivity. }
  assert (CS : countSignals SELL inds1 = countSignals SELL inds2).
  { unfold countSignals. rewrite HS. reflexivity. }
  destruct (action_cases price inds1 sentiment g)
    as [ (A & C) | [ (A & C1 & C2) | (A & C1 & C2) ] ].
  - destruct (buy_branch price inds1 sentiment g C) as (_ & K1 & E1 & T1 & S1).
    rewrite TB, TS, CB in C.
    destruct (buy_branch price inds2 sentiment g C) as (A2 & K2 & E2 & T2 & S2).
    rewrite A, A2, K1, K2, E1, E2, T1, T2, S1, S2, TB, TS. repeat split.
  - destruct (sell_branch price inds1 sentiment g C1 C2) as (_ & K1 & E1 & T1 & S1).
    rewrite TB, TS, CB in C1. rewrite TB, TS, CS in C2.
    destruct (sell_branch price inds2 sentiment g C1 C2) as (A2 & K2 & E2 & T2 & S2).
    rewrite A, A2, K1, K2, E1, E2, T1, T2, S1, S2, TB, TS. repeat split.
  - destruct (hold_branch price inds1 sentiment g C1 C2) as (_ & K1 & E1 & T1 & S1 & _).
    rewrite TB, TS, CB in C1. rewrite TB, TS, CS in C2.
    destruct (hold_branch price inds2 sentiment g C1 C2) as (A2 & K2 & E2 & T2 & S2 & _).
    rewrite A, A2, K1, K2, E1, E2, T1, T2, S1, S2. repeat split.
Qed.

Lemma withSignal_withoutHold (s : Signal) (inds : list TechnicalIndicator) :
  s <> HOLD -> withSignal s (withoutHold inds) = withSignal s inds.
Proof.
  intros Hs. unfold withSignal, withoutHold.
  induction inds as [ | i l IH ]; [ reflexivity | ].
  simpl. destruct (ind_signal i) eqn:E; simpl; rewrite ?E;
    destruct s; simpl; try congruence; rewrite IH; reflexivity.
Qed.

(** X2: HOLD indicators have no influence on the decision.  Two lists with
    the same BUY indicators and the same SELL indicators give the same
    action, confidence, price levels and risk/reward ratio; so removing
    every HOLD indicator, or inserting one anywhere, changes none of
    them. *)
Theorem hold_indicators_ignored :
  forall (price : float) (inds : list TechnicalIndicator) (sentiment : float)
         (g : Rng),
    let a := fst (generateTradingSignal price inds sentiment g) in
    (forall inds2 : list TechnicalIndicator,
       withSignal BUY inds2 = withSignal BUY inds ->
       withSignal SELL inds2 = withSignal SELL inds ->
       let b := fst (generateTradingSignal price inds2 sentiment g) in
       action b = action a /\ confidence b = confidence a /\
       entryPrice b = entryPrice a /\ targetPrice b = targetPrice a /\
       stopLoss b = stopLoss a /\ riskReward b = riskReward a) /\
    (let b := fst (generateTradingSignal price (withoutHold inds) sentiment g) in
     action b = action a /\ confidence b = confidence a /\
     entryPrice b = entryPrice a /\ targetPrice b = targetPrice a /\
     stopLoss b = stopLoss a /\ riskReward b = riskReward a) /\
    (forall (l1 l2 : list TechnicalIndicator) (h : TechnicalIndicator),
       inds = l1 ++ l2 -> ind_signal h = HOLD ->
       let b := fst (generateTradingSignal price (l1 ++ h :: l2) sentiment g) in
       action b = action a /\ confidence b = confidence a /\
       entryPrice b = entryPrice a /\ targetPrice b = targetPrice a /\
       stopLoss b = stopLoss a /\ riskReward b = riskReward a).
Proof.
  intros price inds sentiment g. cbv zeta. split; [ | split ].
  - intros inds2 HB HS.
    apply (decision_depends_on_votes price inds2 inds sentiment g HB HS).
  - apply decision_depends_on_votes; apply withSignal_withoutHold; discriminate.
  - intros l1 l2 h E Hh. subst inds.
    apply decision_depends_on_votes; apply withSignal_skip_hold;
      try exact Hh; discriminate.
Qed.

(** ** Symmetry between BUY and SELL *)

Lemma withSignal_mirror (s : Signal) (inds : list TechnicalIndicator) :
  withSignal (flipSignal s) (map mirrorIndicator inds) =
  map mirrorIndicator (withSignal s inds).
Proof.
  unfold withSignal. induction inds as [ | i l IH ]; [ reflexivity | ].
  cbn [map filter]. rewrite IH.
  unfold mirrorIndicator at 1. cbn [ind_signal].
  destruct (ind_signal i), s; reflexivity.
Qed.

Lemma fold_strength_mirror (l : list TechnicalIndicator) (acc : float) :
  fold_left (fun sum ind => sum + ind_strength ind) (map mirrorIndicator l) acc =
  fold_left (fun sum ind => sum + ind_strength ind) l acc.
Proof.
  revert acc. induction l as [ | i l IH ]; intros acc; [ reflexivity | ].
  simpl. apply IH.
Qed.

Lemma sumStrength_mirror (s : Signal) (inds : list TechnicalIndicator) :
  sumStrength (flipSignal s) (map mirrorIndicator inds) = sumStrength s inds.
Proof.
  unfold sumStrength. rewrite withSignal_mirror. apply fold_strength_mirror.
Qed.

Lemma countSignals_mirror (s : Signal) (inds : list TechnicalIndicator) :
  countSignals (flipSignal s) (map mirrorIndicator inds) = countSignals s inds.
Proof.
  unfold countSignals. rewrite withSignal_mirror. apply length_map.
Qed.

Lemma mul_opp_abs (s k : float) :
  abs k = k -> (s <? 0) = true -> (- s) * k = Math_abs (s * k).
Proof.
  intros K H. unfold Math_abs. rewrite abs_mul, K, (opp_of_neg s H). reflexivity.
Qed.

Lemma abs_mul_opp (s k : float) :
  abs k = k -> (0 <? s) = true -> Math_abs ((- s) * k) = s * k.
Proof.
  intros K H. unfold Math_abs. rewrite abs_mul, K, abs_opp, (abs_of_pos s H).
  reflexivity.
Qed.

Lemma totalStrength_mirror (inds : list TechnicalIndicator) (sentiment : float) :
  totalBuyStrength (map mirrorIndicator inds) (- sentiment) =
    totalSellStrength inds sentiment /\
  totalSellStrength (map mirrorIndicator inds) (- sentiment) =
    totalBuyStrength inds sentiment.
Proof.
  unfold totalBuyStrength, totalSellStrength. cbv zeta. unfold gtb.
  rewrite (sumStrength_mirror SELL inds : sumStrength BUY _ = _).
  rewrite (sumStrength_mirror BUY inds : sumStrength SELL _ = _).
  rewrite opp_gt0, opp_lt0. split.
  - destruct (sentiment <? 0) eqn:E; [ | reflexivity ].
    rewrite (mul_opp_abs sentiment 20 eq_refl E). reflexivity.
  - destruct (0 <? sentiment) eqn:E; [ | reflexivity ].
    rewrite (abs_mul_opp sentiment 20 eq_refl E). reflexivity.
Qed.

(** X3: the decision rule treats BUY and SELL symmetrically.  Exchanging
    the BUY and SELL signals of every indicator and negating the sentiment
    exchanges the BUY and SELL actions and leaves the confidence
    unchanged. *)
Theorem decision_mirror_symmetry :
  forall (price : float) (inds : list TechnicalIndicator) (sentiment : float)
         (g : Rng),
    let a := fst (generateTradingSignal price inds sentiment g) in
    let b := fst (generateTradingSignal price (map mirrorIndicator inds)
                    (- sentiment) g) in
    action b = flipSignal (action a) /\ confidence b = confidence a.
Proof.
  intros price inds sentiment g. cbv zeta.
  destruct (totalStrength_mirror inds sentiment) as [TB TS].
  pose proof (countSignals_mirror SELL inds : countSignals BUY _ = _) as CB.
  pose proof (countSignals_mirror BUY inds : countSignals SELL _ = _) as CS.
  destruct (action_cases price inds sentiment g)
    as [ (A & C) | [ (A & C1 & C2) | (A & C1 & C2) ] ].
  - destruct (buy_branch price inds sentiment g C) as (_ & K & _).
    assert (N : (totalSellStrength inds sentiment >? totalBuyStrength inds sentiment)
                && (2 <=? countSignals SELL inds)%nat = false).
    { apply andb_prop in C. destruct C as [C _]. unfold gtb in *.
      rewrite (ltb_asym _ _ C). reflexivity. }
    destruct (sell_branch price (map mirrorIndicator inds) (- sentiment) g)
      as (A' & K' & _).
    { rewrite TB, TS, CB. exact N. }
    { rewrite TB, TS, CS. exact C. }
    rewrite A, A', K, K', TB, TS. split; [ reflexivity | ].
    rewrite (add_comm (totalSellStrength inds sentiment)). reflexivity.
  - destruct (sell_branch price inds sentiment g C1 C2) as (_ & K & _).
    destruct (buy_branch price (map mirrorIndicator inds) (- sentiment) g)
      as (A' & K' & _).
    { rewrite TB, TS, CB. exact C2. }
    rewrite A, A', K, K', TB, TS. split; [ reflexivity | ].
    rewrite (add_comm (totalSellStrength inds sentiment)). reflexivity.
  - destruct (hold_branch price inds sentiment g C1 C2) as (_ & K & _).
    destruct (hold_branch price (map mirrorIndicator inds) (- sentiment) g)
      as (A' & K' & _).
    { rewrite TB, TS, CB. exact C2. }
    { rewrite TB, TS, CS. exact C1. }
    rewrite A, A', K, K'. split; reflexivity.
Qed.

(** ** Degenerate inputs *)

Lemma is_nan_true (x : float) : is_nan x = true <-> Prim2SF x = S754_nan.
Proof.
  split.
  - intros H. destruct (Prim2SF x) eqn:E; try reflexivity;
      assert (N : number x) by (unfold number; rewrite E; discriminate);
      apply is_nan_iff in N; congruence.
  - intros H. destruct (is_nan x) eqn:E; [ reflexivity | ].
    apply is_nan_iff in E. unfold number in E. congruence.
Qed.

Lemma add_nan_l (x y : float) : is_nan x = true -> is_nan (x + y) = true.
Proof.
  rewrite !is_nan_true, add_spec. unfold SF64add. intros ->. reflexivity.
Qed.

Lemma add_nan_r (x y : float) : is_nan y = true -> is_nan (x + y) = true.
Proof.
  rewrite !is_nan_true, add_spec. unfold SF64add. intros ->.
  destruct (Prim2SF x); reflexivity.
Qed.

Lemma ltb_nan_l (x y : float) : is_nan x = true -> (x <? y) = false.
Proof.
  intros H. destruct (x <? y) eqn:E; [ | reflexivity ].
  apply ltb_rank in E. destruct E as (N & _). apply is_nan_iff in N. congruence.
Qed.

Lemma ltb_nan_r (x y : float) : is_nan y = true -> (x <? y) = false.
Proof.
  intros H. destruct (x <? y) eqn:E; [ | reflexivity ].
  apply ltb_rank in E. destruct E as (_ & N & _). apply is_nan_iff in N. congruence.
Qed.

Lemma fold_strength_nan_acc (l : list TechnicalIndicator) (acc : float) :
  is_nan acc = true ->
  is_nan (fold_left (fun sum ind => sum + ind_strength ind) l acc) = true.
Proof.
  revert acc. induction l as [ | i l IH ]; intros acc H; [ exact H | ].
  cbn [fold_left]. apply IH. apply add_nan_l. exact H.
Qed.

Lemma fold_strength_nan (l : list TechnicalIndicator) (acc : float) (ind : TechnicalIndicator) :
  In ind l -> is_nan (ind_strength ind) = true ->
  is_nan (fold_left (fun sum ind => sum + ind_strength ind) l acc) = true.
Proof.
  revert acc. induction l as [ | i l IH ]; intros acc Hi Hn; [ destruct Hi | ].
  cbn [fold_left]. destruct Hi as [ <- | Hi ].
  - apply fold_strength_nan_acc. apply add_nan_r. exact Hn.
  - apply IH; assumption.
Qed.

Lemma sumStrength_nan (s : Signal) (inds : list TechnicalIndicator) (ind : TechnicalIndicator) :
  In ind inds -> ind_signal ind = s -> is_nan (ind_strength ind) = true ->
  is_nan (sumStrength s inds) = true.
Proof.
  intros Hi Hs Hn. unfold sumStrength. apply (fold_strength_nan _ _ ind); [ | exact Hn ].
  unfold withSignal. apply filter_In. split; [ exact Hi | ].
  rewrite Hs. destruct s; reflexivity.
Qed.

(** X4: degenerate inputs never produce a BUY or SELL decision.  With at
    most one indicator the decision is HOLD whatever the sentiment; a NaN
    strength on a BUY or SELL indicator makes the totals incomparable and
    the decision HOLD; and a NaN sentiment gives exactly the decision of
    sentiment 0. *)
Theorem degenerate_inputs_hold :
  forall (price : float) (inds : list TechnicalIndicator) (sentiment : float)
         (g : Rng),
    let result := fst (generateTradingSignal price inds sentiment g) in
    ((List.length inds <= 1)%nat -> action result = HOLD) /\
    ((exists ind, In ind inds /\ ind_signal ind <> HOLD /\
                  is_nan (ind_strength ind) = true) ->
     action result = HOLD /\ confidence result = 50 + g 0%nat * 20) /\
    fst (generateTradingSignal price inds nan g) =
    fst (generateTradingSignal price inds 0 g).
Proof.
  intros price inds sentiment g. cbv zeta. split; [ | split ].
  - intros Len.
    assert (C : forall s, (2 <=? countSignals s inds)%nat = false).
    { intros s. apply Nat.leb_gt. unfold countSignals, withSignal.
      pose proof (filter_length_le (fun ind => Signal_eqb (ind_signal ind) s) inds). lia. }
    apply hold_branch; rewrite C; apply andb_false_r.
  - intros (ind & Hi & Hs & Hn).
    assert (N : is_nan (totalBuyStrength inds sentiment) = true \/
                is_nan (totalSellStrength inds sentiment) = true).
    { destruct (ind_signal ind) eqn:S; [ left | right | congruence ].
      - unfold totalBuyStrength. cbv zeta. apply add_nan_l.
        apply (sumStrength_nan BUY inds ind); assumption.
      - unfold totalSellStrength. cbv zeta. apply add_nan_l.
        apply (sumStrength_nan SELL inds ind); assumption. }
    assert (C1 : (totalBuyStrength inds sentiment >? totalSellStrength inds sentiment) = false).
    { unfold gtb. destruct N as [ N | N ]; [ apply ltb_nan_r | apply ltb_nan_l ]; exact N. }
    assert (C2 : (totalSellStrength inds sentiment >? totalBuyStrength inds sentiment) = false).
    { unfold gtb. destruct N as [ N | N ]; [ apply ltb_nan_l | apply ltb_nan_r ]; exact N. }
    destruct (hold_branch price inds sentiment g) as (A & K & _);
      [ rewrite C1; reflexivity | rewrite C2; reflexivity | ].
    split; assumption.
  - unfold generateTradingSignal, totalBuyStrength, totalSellStrength.
    replace (nan >? 0) with false by reflexivity.
    replace (nan <? 0) with false by reflexivity.
    replace (0 >? 0) with false by reflexivity.
    replace (0 <? 0) with false by reflexivity.
    replace (nan >? 0.1) with false by reflexivity.
    replace (nan <? -0.1) with false by reflexivity.
    replace (0 >? 0.1) with false by reflexivity.
    replace (0 <? -0.1) with false by reflexivity.
    reflexivity.
Qed.


(** ** The confidence of a BUY or SELL decision *)

Lemma add_finite_inv (x y : float) :
  posnum x -> posnum y -> finite (x + y) -> finite x /\ finite y.
Proof.
  unfold posnum, finite. rewrite add_spec. unfold SF64add.
  intros [ Ex | [ (mx & ex & Ex) | Ex ] ] [ Ey | [ (my & ey & Ey) | Ey ] ];
    rewrite Ex, Ey; simpl; intros H; try discriminate; split; reflexivity.
Qed.

Lemma posnum_nonneg (x : float) : posnum x -> finite x -> (0 <= B2Q x)%Q.
Proof.
  intros P F. rewrite <- (rank_finite x F). apply posnum_rank. exact P.
Qed.

(** The sum of two numbers is at most twice the larger one. *)
Lemma add_le_double (w l : float) :
  finite w -> finite l -> (0 <= B2Q l)%Q -> (B2Q l <= B2Q w)%Q ->
  finite (w + l) ->
  (B2Q w <= B2Q (w + l) <= 2 * B2Q w)%Q.
Proof.
  intros Fw Fl Nl L Fs. assert (Nw : (0 <= B2Q w)%Q) by lra.
  pose proof (add_Rounds w l Fw Fl Nw Nl) as R. split.
  - apply (Rounds_ge _ _ w R Fw Fs). lra.
  - apply (Rounds_le_grid _ _ _ R Fs); [ lra | ].
    intros e E N. apply (double_on_grid (Prim2SF w) (B2Q w + B2Q l) e);
      try assumption; [ apply Prim2SF_valid | fold (B2Q w); lra ].
Qed.

Lemma winning_ratio_range (w l : float) :
  posnum w -> posnum l -> (w >? l) = true -> finite (w + l) ->
  let c := w / (w + l) * 100 in
  finite c /\ (50 <= B2Q c <= 100)%Q.
Proof.
  intros Pw Pl G Fs. cbv zeta.
  destruct (add_finite_inv w l Pw Pl Fs) as (Fw & Fl).
  pose proof (posnum_nonneg l Pl Fl) as Nl.
  unfold gtb in G. apply (ltb_finite _ _ Fl Fw) in G.
  destruct (add_le_double w l Fw Fl Nl ltac:(lra) Fs) as (S1 & S2).
  set (s := w + l) in *.
  assert (Sp : (0 < B2Q s)%Q) by lra.
  pose proof (div_Rounds w s Fw Fs ltac:(lra) Sp) as Rq.
  assert (Q1 : (1 # 2 <= B2Q w / B2Q s)%Q) by (apply Qle_shift_div_l; lra).
  assert (Q2 : (B2Q w / B2Q s <= 1)%Q) by (apply Qle_shift_div_r; lra).
  assert (E1 : (B2Q 1 == 1)%Q) by by_computation.
  assert (Eh : (B2Q 0.5 == 1 # 2)%Q) by by_computation.
  assert (E100 : (B2Q 100 == 100)%Q) by by_computation.
  assert (E50 : (B2Q 50 == 50)%Q) by by_computation.
  destruct (Rounds_le _ _ 1 Rq) as (Fq & Uq); [ reflexivity | rewrite E1; exact Q2 | ].
  pose proof (Rounds_ge _ _ 0.5 Rq ltac:(reflexivity) Fq ltac:(rewrite Eh; exact Q1)) as Lq.
  set (q := w / s) in *.
  pose proof (mul_Rounds q 100 Fq ltac:(reflexivity) ltac:(lra) ltac:(by_computation)) as Rc.
  rewrite E100 in Rc.
  destruct (Rounds_le _ _ 100 Rc) as (Fc & Uc); [ reflexivity | lra | ].
  pose proof (Rounds_ge _ _ 50 Rc ltac:(reflexivity) Fc ltac:(lra)) as Lc.
  split; [ exact Fc | lra ].
Qed.

Lemma Math_min_95_ge (y : float) :
  finite y -> (50 <= B2Q y)%Q ->
  (50 <=? Math_min 95 y) = true /\ (Math_min 95 y <=? 95) = true.
Proof.
  intros F L. unfold Math_min.
  replace (is_nan 95) with false by reflexivity.
  replace (is_nan y) with false
    by (symmetry; apply is_nan_iff; apply finite_number; exact F).
  cbn [orb].
  assert (E50 : (B2Q 50 == 50)%Q) by by_computation.
  assert (E95 : (B2Q 95 == 95)%Q) by by_computation.
  assert (F95 : finite 95) by reflexivity.
  destruct (95 <? y) eqn:A.
  - split; reflexivity.
  - pose proof (ltb_false_finite _ _ F95 F A) as A'.
    assert (R : (50 <=? y) = true /\ (y <=? 95) = true).
    { split; apply leb_finite; try assumption; try reflexivity; lra. }
    destruct (y <? 95) eqn:B; [ exact R | ].
    replace (is_zero 95) with false by reflexivity. exact R.
Qed.

(** Sums of strengths between 0 and 100. *)
Lemma fold_strength_bounded (l : list TechnicalIndicator) :
  (forall ind, In ind l ->
     (0 <=? ind_strength ind) = true /\ (ind_strength ind <=? 100) = true) ->
  forall (acc : float) (n : Z),
    finite acc -> (0 <= B2Q acc <= inject_Z n)%Q ->
    (n + 100 * Z.of_nat (List.length l) < 2 ^ 53)%Z ->
    let s := fold_left (fun sum ind => sum + ind_strength ind) l acc in
    finite s /\ (0 <= B2Q s <= inject_Z (n + 100 * Z.of_nat (List.length l)))%Q.
Proof.
  induction l as [ | i l IH ]; intros H acc n Fa [A0 A1] Hn; cbv zeta.
  - cbn [fold_left List.length].
    replace (n + 100 * Z.of_nat 0)%Z with n by (simpl; lia). split; [ exact Fa | lra ].
  - cbn [fold_left].
    destruct (H i (or_introl eq_refl)) as (I0 & I1).
    destruct (between_finite 0 (ind_strength i) 100) as (Fi & B0 & B1);
      try assumption; try reflexivity.
    assert (E0 : (B2Q 0 == 0)%Q) by by_computation.
    assert (E100 : (B2Q 100 == 100)%Q) by by_computation.
    assert (N0 : (0 <= n)%Z) by (rewrite Zle_Qle; change (inject_Z 0) with 0%Q; lra).
    cbn [List.length] in Hn. rewrite Nat2Z.inj_succ in Hn.
    pose proof (add_Rounds acc (ind_strength i) Fa Fi A0 ltac:(lra)) as R.
    destruct (Rounds_le_int _ (n + 100) _ R) as (Fs & Us); [ lia | | ].
    { rewrite inject_Z_plus. change (inject_Z 100) with 100%Q. lra. }
    pose proof (Rounds_nonneg _ _ R Fs) as Ls.
    destruct (IH (fun j Hj => H j (or_intror Hj)) (acc + ind_strength i) (n + 100)%Z Fs)
      as (F & B); [ split; assumption | lia | ].
    cbv zeta in F, B. split; [ exact F | ].
    cbn [List.length]. rewrite Nat2Z.inj_succ.
    replace (n + 100 * Z.succ (Z.of_nat (List.length l)))%Z
      with (n + 100 + 100 * Z.of_nat (List.length l))%Z by lia.
    exact B.
Qed.

Lemma sumStrength_bounded (s : Signal) (inds : list TechnicalIndicator) :
  (forall ind, In ind inds ->
     (0 <=? ind_strength ind) = true /\ (ind_strength ind <=? 100) = true) ->
  (List.length inds <= 1000)%nat ->
  finite (sumStrength s inds) /\ (0 <= B2Q (sumStrength s inds) <= 100000)%Q.
Proof.
  intros H Len. unfold sumStrength.
  assert (L' : (List.length (withSignal s inds) <= 1000)%nat).
  { unfold withSignal.
    pose proof (filter_length_le (fun ind => Signal_eqb (ind_signal ind) s) inds).
    lia. }
  destruct (fold_strength_bounded (withSignal s inds)) with (acc := 0) (n := 0%Z)
    as (F & B0 & B1).
  - intros i Hi. apply H. unfold withSignal in Hi. apply filter_In in Hi. tauto.
  - reflexivity.
  - split; by_computation.
  - assert (100 * Z.of_nat (List.length (withSignal s inds)) <= 100000)%Z by lia.
    assert (100000 < 2 ^ 53)%Z by reflexivity. lia.
  - cbv zeta in F, B0, B1. split; [ exact F | ]. split; [ exact B0 | ].
    apply Qle_trans with (1 := B1).
    change 100000%Q with (inject_Z 100000). rewrite <- Zle_Qle. lia.
Qed.

(** The sentiment weight of a sentiment in [-1, 1]. *)
Lemma sentiment_weight (sentiment : float) :
  (-1 <=? sentiment) = true -> (sentiment <=? 1) = true ->
  finite sentiment /\ (- (1) <= B2Q sentiment <= 1)%Q /\
  finite (Math_abs (sentiment * 20)) /\ (0 <= B2Q (Math_abs (sentiment * 20)) <= 20)%Q /\
  ((0 <? sentiment) = true ->
   finite (sentiment * 20) /\ (0 <= B2Q (sentiment * 20) <= 20)%Q).
Proof.
  intros L U.
  destruct (between_finite (-1) sentiment 1) as (F & B0 & B1);
    try assumption; try reflexivity.
  assert (Em : (B2Q (-1) == - (1))%Q) by by_computation.
  assert (E1 : (B2Q 1 == 1)%Q) by by_computation.
  assert (E20 : (B2Q 20 == 20)%Q) by by_computation.
  assert (F20 : finite 20) by reflexivity.
  split; [ exact F | ]. split; [ lra | ].
  unfold Math_abs. rewrite abs_mul. replace (abs 20) with 20 by reflexivity.
  assert (Fa : finite (abs sentiment)) by (apply finite_abs; exact F).
  assert (Ba : (0 <= B2Q (abs sentiment) <= 1)%Q).
  { rewrite B2Q_abs. split; [ apply Qabs_nonneg | ].
    apply Qabs_Qle_condition. lra. }
  pose proof (mul_Rounds (abs sentiment) 20 Fa F20 ltac:(lra) ltac:(by_computation)) as R.
  rewrite E20 in R.
  destruct (Rounds_le _ _ 20 R F20) as (Fw & Uw); [ lra | ].
  pose proof (Rounds_nonneg _ _ R Fw) as Lw.
  split; [ exact Fw | ]. split; [ lra | ].
  intros P. rewrite (abs_of_pos _ P) in *. split; [ exact Fw | lra ].
Qed.

Lemma totals_finite (inds : list TechnicalIndicator) (sentiment : float) :
  (forall ind, In ind inds ->
     (0 <=? ind_strength ind) = true /\ (ind_strength ind <=? 100) = true) ->
  (List.length inds <= 1000)%nat ->
  (-1 <=? sentiment) = true -> (sentiment <=? 1) = true ->
  finite (totalBuyStrength inds sentiment + totalSellStrength inds sentiment).
Proof.
  intros H Len L U.
  destruct (sentiment_weight sentiment L U) as (Fs & Bs & Fa & Ba & Pos).
  destruct (sumStrength_bounded BUY inds H Len) as (FB & B0 & B1).
  destruct (sumStrength_bounded SELL inds H Len) as (FS & S0 & S1).
  assert (E0 : (B2Q 0 == 0)%Q) by by_computation.
  assert (F0 : finite 0) by reflexivity.
  assert (TB : finite (totalBuyStrength inds sentiment) /\
               (0 <= B2Q (totalBuyStrength inds sentiment) <= 100020)%Q).
  { unfold totalBuyStrength. cbv zeta. unfold gtb.
    assert (W : finite (if 0 <? sentiment then sentiment * 20 else 0) /\
                (0 <= B2Q (if 0 <? sentiment then sentiment * 20 else 0) <= 20)%Q).
    { destruct (0 <? sentiment) eqn:P; [ apply Pos; reflexivity | ].
      split; [ exact F0 | lra ]. }
    destruct W as (Fw & W0 & W1).
    pose proof (add_Rounds _ _ FB Fw B0 W0) as R.
    destruct (Rounds_le_int _ 100020 _ R) as (F & Ub);
      [ split; [ lia | reflexivity ] | change (inject_Z 100020) with 100020%Q; lra | ].
    pose proof (Rounds_nonneg _ _ R F) as Lb.
    change (inject_Z 100020) with 100020%Q in Ub. split; [ exact F | split; assumption ]. }
  assert (TS : finite (totalSellStrength inds sentiment) /\
               (0 <= B2Q (totalSellStrength inds sentiment) <= 100020)%Q).
  { unfold totalSellStrength. cbv zeta.
    assert (W : finite (if sentiment <? 0 then Math_abs (sentiment * 20) else 0) /\
                (0 <= B2Q (if sentiment <? 0 then Math_abs (sentiment * 20) else 0) <= 20)%Q).
    { destruct (sentiment <? 0) eqn:P; [ split; assumption | ].
      split; [ exact F0 | lra ]. }
    destruct W as (Fw & W0 & W1).
    pose proof (add_Rounds _ _ FS Fw S0 W0) as R.
    destruct (Rounds_le_int _ 100020 _ R) as (F & Ub);
      [ split; [ lia | reflexivity ] | change (inject_Z 100020) with 100020%Q; lra | ].
    pose proof (Rounds_nonneg _ _ R F) as Lb.
    change (inject_Z 100020) with 100020%Q in Ub. split; [ exact F | split; assumption ]. }
  destruct TB as (Fb & Tb0 & Tb1). destruct TS as (Ft & Ts0 & Ts1).
  pose proof (add_Rounds _ _ Fb Ft Tb0 Ts0) as R.
  destruct (Rounds_le_int _ 200040 _ R) as (F & _);
    [ split; [ lia | reflexivity ] | change (inject_Z 200040) with 200040%Q; lra | ].
  exact F.
Qed.

Lemma decision_confidence_range (price : float) (inds : list TechnicalIndicator)
    (sentiment : float) (g : Rng) :
  (forall ind, In ind inds -> (0 <=? ind_strength ind) = true) ->
  unit_draws g ->
  finite (totalBuyStrength inds sentiment + totalSellStrength inds sentiment) ->
  let result := fst (generateTradingSignal price inds sentiment g) in
  (50 <=? confidence result) = true /\ (confidence result <=? 95) = true.
Proof.
  intros Hs Hg Ft. cbv zeta.
  destruct (totalStrength_posnum inds sentiment Hs) as [Pb Ps].
  destruct (action_cases price inds sentiment g)
    as [ (A & C) | [ (A & C1 & C2) | (A & C1 & C2) ] ].
  - destruct (buy_branch price inds sentiment g C) as (_ & E & _). rewrite E.
    apply andb_prop in C. destruct C as [C _].
    destruct (winning_ratio_range _ _ Pb Ps C Ft) as (Fc & C0 & C1).
    apply Math_min_95_ge; assumption.
  - destruct (sell_branch price inds sentiment g C1 C2) as (_ & E & _). rewrite E.
    apply andb_prop in C2. destruct C2 as [C2 _].
    rewrite add_comm in Ft |- *.
    destruct (winning_ratio_range _ _ Ps Pb C2 Ft) as (Fc & C0 & C1').
    apply Math_min_95_ge; assumption.
  - destruct (hold_branch price inds sentiment g C1 C2) as (_ & E & _). rewrite E.
    destruct (Hg 0%nat) as [L U].
    destruct (hold_confidence_range _ L U) as (H1 & H2).
    split; [ exact H1 | ].
    apply leb_rank in H2. apply leb_rank. destruct H2 as (N1 & N2 & H2).
    repeat split; auto; [ discriminate | ].
    assert (rank 70 <= rank 95)%Q by by_computation. lra.
Qed.

(** X5: the confidence of every decision lies in [50, 95] as soon as the
    two total strengths add up to a finite number; this is the case for
    up to 1000 indicators with strengths in [0, 100] and a sentiment in
    [-1, 1].  A BUY or SELL decision needs the larger total, so its
    confidence is at least 50. *)
Theorem confidence_at_least_half :
  forall (price : float) (inds : list TechnicalIndicator) (sentiment : float)
         (g : Rng),
    (forall ind, In ind inds -> (0 <=? ind_strength ind) = true) ->
    unit_draws g ->
    let result := fst (generateTradingSignal price inds sentiment g) in
    let total := totalBuyStrength inds sentiment + totalSellStrength inds sentiment in
    (is_finite total = true ->
     (50 <=? confidence result) = true /\ (confidence result <=? 95) = true) /\
    ((forall ind, In ind inds -> (ind_strength ind <=? 100) = true) ->
     (List.length inds <= 1000)%nat ->
     (-1 <=? sentiment) = true -> (sentiment <=? 1) = true ->
     is_finite total = true).
Proof.
  intros price inds sentiment g Hs Hg. cbv zeta. split.
  - intros Ft. apply is_finite_iff in Ft.
    apply decision_confidence_range; assumption.
  - intros H100 Len L U. apply is_finite_iff.
    apply totals_finite; try assumption.
    intros ind Hi. split; [ apply Hs | apply H100 ]; exact Hi.
Qed.

(** ** The confidence on the documented inputs *)

(** Adding a number of at most 100 to a sum of at most 2^61 gives at most
    2^61 again: from there on the sum absorbs what is added. *)
Lemma add_absorbed (acc x : float) :
  finite acc -> finite x ->
  (0 <= B2Q acc <= pow2 61)%Q -> (0 <= B2Q x <= 100)%Q ->
  finite (acc + x) /\ (0 <= B2Q (acc + x) <= pow2 61)%Q.
Proof.
  intros Fa Fx [A0 A1] [X0 X1].
  pose proof (add_Rounds acc x Fa Fx A0 X0) as R.
  assert (E : (B2Q 0x1p+61 == pow2 61)%Q) by by_computation.
  assert (P9 : (pow2 9 == 512)%Q) by by_computation.
  destruct (Rounds_le_near _ _ 0x1p+61 9 R) as (F & U).
  - reflexivity.
  - lia.
  - change (9 + 52)%Z with 61%Z. rewrite E. lra.
  - change (9 + 53)%Z with (61 + 1)%Z. rewrite pow2_succ, E.
    pose proof (pow2_pos 61). lra.
  - rewrite E. lra.
  - split; [ exact F | ]. split; [ apply (Rounds_nonneg _ _ R F) | ].
    rewrite <- E. exact U.
Qed.

(** Sums of strengths between 0 and 100 are finite, however many there
    are. *)
Lemma fold_strength_finite (l : list TechnicalIndicator) :
  (forall ind, In ind l ->
     (0 <=? ind_strength ind) = true /\ (ind_strength ind <=? 100) = true) ->
  forall acc : float,
    finite acc -> (0 <= B2Q acc <= pow2 61)%Q ->
    let s := fold_left (fun sum ind => sum + ind_strength ind) l acc in
    finite s /\ (0 <= B2Q s <= pow2 61)%Q.
Proof.
  induction l as [ | i l IH ]; intros H acc Fa A; cbv zeta.
  - cbn [fold_left]. split; assumption.
  - cbn [fold_left].
    destruct (H i (or_introl eq_refl)) as (I0 & I1).
    destruct (between_finite 0 (ind_strength i) 100) as (Fi & B0 & B1);
      try assumption; try reflexivity.
    assert (E0 : (B2Q 0 == 0)%Q) by by_computation.
    assert (E100 : (B2Q 100 == 100)%Q) by by_computation.
    destruct (add_absorbed acc (ind_strength i) Fa Fi A) as (Fs & Bs); [ lra | ].
    apply (IH (fun j Hj => H j (or_intror Hj)) _ Fs Bs).
Qed.

Lemma sumStrength_finite (s : Signal) (inds : list TechnicalIndicator) :
  (forall ind, In ind inds ->
     (0 <=? ind_strength ind) = true /\ (ind_strength ind <=? 100) = true) ->
  finite (sumStrength s inds) /\ (0 <= B2Q (sumStrength s inds) <= pow2 61)%Q.
Proof.
  intros H. unfold sumStrength.
  apply fold_strength_finite.
  - intros i Hi. apply H. unfold withSignal in Hi. apply filter_In in Hi. tauto.
  - reflexivity.
  - pose proof (pow2_pos 61). assert (B2Q 0 == 0)%Q by by_computation. lra.
Qed.

(** With strengths in [0, 100] and a sentiment in [-1, 1] the two total
    strengths are finite numbers. *)
Lemma totals_finite_documented (inds : list TechnicalIndicator) (sentiment : float) :
  (forall ind, In ind inds ->
     (0 <=? ind_strength ind) = true /\ (ind_strength ind <=? 100) = true) ->
  (-1 <=? sentiment) = true -> (sentiment <=? 1) = true ->
  finite (totalBuyStrength inds sentiment) /\
  finite (totalSellStrength inds sentiment).
Proof.
  intros H L U.
  destruct (sentiment_weight sentiment L U) as (Fs & Bs & Fa & Ba & Pos).
  destruct (sumStrength_finite BUY inds H) as (FB & BB).
  destruct (sumStrength_finite SELL inds H) as (FS & BS).
  assert (E0 : (B2Q 0 == 0)%Q) by by_computation.
  assert (F0 : finite 0) by reflexivity.
  unfold totalBuyStrength, totalSellStrength. cbv zeta. unfold gtb. split.
  - destruct (0 <? sentiment) eqn:P.
    + destruct (Pos eq_refl) as (Fw & W0 & W1).
      apply (add_absorbed _ _ FB Fw BB). lra.
    + apply (add_absorbed _ _ FB F0 BB). lra.
  - destruct (sentiment <? 0) eqn:P.
    + apply (add_absorbed _ _ FS Fa BS). lra.
    + apply (add_absorbed _ _ FS F0 BS). lra.
Qed.

(** C6: the confidence of a BUY or SELL decision is
    min(95, winning / (winning + losing) * 100) on every input, and the
    confidence of a HOLD decision lies in [50, 70] for draws in [0, 1).
    With non-negative strengths the confidence of a BUY or SELL decision
    lies in [0, 95] whenever the winning total strength is a finite
    number; on the documented inputs (strengths between 0 and 100, any
    number of indicators, sentiment in [-1, 1]) both totals are finite, so
    the range holds for every BUY and SELL decision. *)
Theorem confidence_ranges :
  forall (price : float) (inds : list TechnicalIndicator) (sentiment : float)
         (g : Rng),
    let tb := totalBuyStrength inds sentiment in
    let ts := totalSellStrength inds sentiment in
    let result := fst (generateTradingSignal price inds sentiment g) in
    (action result = BUY ->
     confidence result = Math_min 95 (tb / (tb + ts) * 100)) /\
    (action result = SELL ->
     confidence result = Math_min 95 (ts / (tb + ts) * 100)) /\
    (unit_draws g -> action result = HOLD ->
     (50 <=? confidence result) = true /\ (confidence result <=? 70) = true) /\
    ((forall ind, In ind inds -> (0 <=? ind_strength ind) = true) ->
     (action result = BUY -> is_finite tb = true ->
      (0 <=? confidence result) = true /\ (confidence result <=? 95) = true) /\
     (action result = SELL -> is_finite ts = true ->
      (0 <=? confidence result) = true /\ (confidence result <=? 95) = true) /\
     ((forall ind, In ind inds -> (ind_strength ind <=? 100) = true) ->
      (-1 <=? sentiment) = true -> (sentiment <=? 1) = true ->
      is_finite tb = true /\ is_finite ts = true /\
      (action result <> HOLD ->
       (0 <=? confidence result) = true /\ (confidence result <=? 95) = true))).
Proof.
  intros price inds sentiment g. cbv zeta.
  assert (Range :
    (forall ind, In ind inds -> (0 <=? ind_strength ind) = true) ->
    (action (fst (generateTradingSignal price inds sentiment g)) = BUY ->
     is_finite (totalBuyStrength inds sentiment) = true ->
     (0 <=? confidence (fst (generateTradingSignal price inds sentiment g))) = true /\
     (confidence (fst (generateTradingSignal price inds sentiment g)) <=? 95) = true) /\
    (action (fst (generateTradingSignal price inds sentiment g)) = SELL ->
     is_finite (totalSellStrength inds sentiment) = true ->
     (0 <=? confidence (fst (generateTradingSignal price inds sentiment g))) = true /\
     (confidence (fst (generateTradingSignal price inds sentiment g)) <=? 95) = true)).
  { intros Hs. destruct (totalStrength_posnum inds sentiment Hs) as [Pb Ps].
    destruct (action_cases price inds sentiment g)
      as [ (A & C) | [ (A & C1 & C2) | (A & C1 & C2) ] ];
      split; intros A'; try congruence; intros F.
    - destruct (buy_branch price inds sentiment g C) as (_ & E & _). rewrite E.
      apply Math_min_95_range. apply andb_prop in C. destruct C as [C _].
      apply (winning_ratio_posnum _ _ Pb Ps C F).
    - destruct (sell_branch price inds sentiment g C1 C2) as (_ & E & _). rewrite E.
      apply Math_min_95_range. apply andb_prop in C2. destruct C2 as [C2 _].
      apply (winning_ratio_posnum _ _ Ps Pb C2 F). }
  split; [ | split; [ | split; [ | intros Hs; split; [ | split ] ] ] ].
  - intros A. destruct (action_cases price inds sentiment g)
      as [ (_ & C) | [ (B & _) | (B & _) ] ]; try congruence.
    apply (buy_branch price inds sentiment g C).
  - intros A. destruct (action_cases price inds sentiment g)
      as [ (B & _) | [ (_ & C1 & C2) | (B & _) ] ]; try congruence.
    apply (sell_branch price inds sentiment g C1 C2).
  - intros Hg A. destruct (action_cases price inds sentiment g)
      as [ (B & _) | [ (B & _) | (_ & C1 & C2) ] ]; try congruence.
    destruct (hold_branch price inds sentiment g C1 C2) as (_ & E & _).
    rewrite E. destruct (Hg 0%nat) as [L U].
    apply hold_confidence_range; assumption.
  - apply (Range Hs).
  - apply (Range Hs).
  - intros H100 L U.
    destruct (totals_finite_documented inds sentiment) as (Fb & Ft); try assumption.
    { intros ind Hi. split; [ apply Hs | apply H100 ]; exact Hi. }
    apply is_finite_iff in Fb. apply is_finite_iff in Ft.
    split; [ exact Fb | ]. split; [ exact Ft | ].
    intros NH. destruct (Range Hs) as (RB & RS).
    destruct (action (fst (generateTradingSignal price inds sentiment g))) eqn:A.
    + apply RB; [ reflexivity | exact Fb ].
    + apply RS; [ reflexivity | exact Ft ].
    + congruence.
Qed.

(** Beyond the documented strengths the premise on the winning total is
    needed: two strengths of 1e308 add up to infinity, and the confidence
    of the BUY decision is then NaN. *)
Lemma confidence_nan_on_overflow :
  let result := fst (generateTradingSignal 100 hugeBuyIndicators 0 halfDraws) in
  (forall ind, In ind hugeBuyIndicators -> (0 <=? ind_strength ind) = true) /\
  action result = BUY /\
  is_nan (confidence result) = true /\
  (0 <=? confidence result) = false /\ (confidence result <=? 95) = false.
Proof.
  cbv zeta. split.
  - intros ind [ <- | [ <- | [] ] ]; reflexivity.
  - vm_compute. repeat split.
Qed.

(** ** The cap on the confidence *)

(** The share of a winner that meets no opposing strength is 100. *)
Lemma unopposed_ratio (w : float) :
  (w >? 0) = true -> finite w ->
  Math_min 95 (w / (w + 0) * 100) = 95.
Proof.
  intros G Fw.
  assert (F0 : finite 0) by reflexivity.
  assert (E0 : (B2Q 0 == 0)%Q) by by_computation.
  assert (E1 : (B2Q 1 == 1)%Q) by by_computation.
  assert (E100 : (B2Q 100 == 100)%Q) by by_computation.
  unfold gtb in G. apply (ltb_finite _ _ F0 Fw) in G.
  pose proof (add_Rounds w 0 Fw F0 ltac:(lra) ltac:(lra)) as Rs.
  destruct (Rounds_le _ _ w Rs Fw) as (Fs & Us); [ lra | ].
  pose proof (Rounds_ge _ _ w Rs Fw Fs ltac:(lra)) as Ls.
  set (s := w + 0) in *.
  pose proof (div_Rounds w s Fw Fs ltac:(lra) ltac:(lra)) as Rq.
  assert (Q1 : (B2Q w / B2Q s == 1)%Q).
  { assert (B2Q s == B2Q w)%Q by lra. rewrite H. field. lra. }
  rewrite Q1 in Rq.
  destruct (Rounds_le _ _ 1 Rq) as (Fq & Uq); [ reflexivity | lra | ].
  pose proof (Rounds_ge _ _ 1 Rq ltac:(reflexivity) Fq ltac:(lra)) as Lq.
  set (q := w / s) in *.
  pose proof (mul_Rounds q 100 Fq ltac:(reflexivity) ltac:(lra) ltac:(by_computation)) as Rc.
  rewrite E100 in Rc.
  destruct (Rounds_le _ _ 100 Rc) as (Fc & Uc); [ reflexivity | lra | ].
  pose proof (Rounds_ge _ _ 100 Rc ltac:(reflexivity) Fc ltac:(lra)) as Lc.
  set (c := q * 100) in *.
  unfold Math_min.
  replace (is_nan 95) with false by reflexivity.
  replace (is_nan c) with false
    by (symmetry; apply is_nan_iff; apply finite_number; exact Fc).
  cbn [orb].
  assert (A : (95 <? c) = true).
  { apply ltb_finite; [ reflexivity | exact Fc | ].
    assert (B2Q 95 == 95)%Q by by_computation. lra. }
  rewrite A. reflexivity.
Qed.

(** X6: an unopposed decision has confidence exactly 95.  When no indicator
    signals SELL and the sentiment is not negative, a BUY decision with a
    finite total strength gets the share 100, which the cap brings down to
    95; the same holds for a SELL decision that meets no BUY strength.
    The strengths may have any sign. *)
Theorem unopposed_confidence_capped :
  forall (price : float) (inds : list TechnicalIndicator) (sentiment : float)
         (g : Rng),
    let result := fst (generateTradingSignal price inds sentiment g) in
    ((forall ind, In ind inds -> ind_signal ind <> SELL) ->
     (sentiment <? 0) = false ->
     is_finite (totalBuyStrength inds sentiment) = true ->
     action result = BUY -> confidence result = 95) /\
    ((forall ind, In ind inds -> ind_signal ind <> BUY) ->
     (sentiment >? 0) = false ->
     is_finite (totalSellStrength inds sentiment) = true ->
     action result = SELL -> confidence result = 95).
Proof.
  intros price inds sentiment g. cbv zeta.
  split.
  - intros NoSell NotNeg Fb A.
    destruct (sumStrength_none SELL inds NoSell) as (S0 & _).
    assert (Ts : totalSellStrength inds sentiment = 0).
    { unfold totalSellStrength. cbv zeta. rewrite S0, NotNeg. reflexivity. }
    destruct (action_cases price inds sentiment g)
      as [ (_ & C) | [ (B & _) | (B & _) ] ]; try congruence.
    destruct (buy_branch price inds sentiment g C) as (_ & K & _).
    rewrite K, Ts. apply andb_prop in C. destruct C as [C _]. rewrite Ts in C.
    apply unopposed_ratio; [ exact C | apply is_finite_iff; exact Fb ].
  - intros NoBuy NotPos Fs A.
    destruct (sumStrength_none BUY inds NoBuy) as (S0 & _).
    assert (Tb : totalBuyStrength inds sentiment = 0).
    { unfold totalBuyStrength. cbv zeta. rewrite S0, NotPos. reflexivity. }
    destruct (action_cases price inds sentiment g)
      as [ (B & _) | [ (_ & C1 & C2) | (B & _) ] ]; try congruence.
    destruct (sell_branch price inds sentiment g C1 C2) as (_ & K & _).
    rewrite K, Tb. apply andb_prop in C2. destruct C2 as [C2 _]. rewrite Tb in C2.
    rewrite add_comm.
    apply unopposed_ratio; [ exact C2 | apply is_finite_iff; exact Fs ].
Qed.

Local Open Scope Q_scope.

(** ** Binary64 arithmetic: rounding is monotone *)

Lemma Qabs_cases (x : Q) :
  (0 <= x /\ Qabs x == x) \/ (x <= 0 /\ Qabs x == - x).
Proof.
  destruct (Qlt_le_dec x 0) as [ N | P ].
  - right. split; [ lra | apply Qabs_neg; lra ].
  - left. split; [ exact P | apply Qabs_pos; exact P ].
Qed.

(** The rounded number is a representable number nearest to the real. *)
Lemma Rounds_nearest (q : Q) (r f : spec_float) :
  Rounds q r -> SFfinite r = true ->
  valid_binary f = true -> SFfinite f = true -> 0 <= SF2Q f ->
  Qabs (q - SF2Q r) <= Qabs (q - SF2Q f).
Proof.
  intros (m1 & e1 & N & E1 & M & N1 & N2 & X & R) Fr Vf Ff Pf.
  rewrite (rounded_value _ _ _ R Fr).
  pose proof (pow2_pos e1) as Pe.
  destruct N as [Lo Hi Up Dn].
  set (rho := inject_Z m1 * pow2 e1) in *. set (phi := SF2Q f) in *.
  assert (D1 : q - phi <= Qabs (q - phi)) by apply Qle_Qabs.
  assert (D2 : phi - q <= Qabs (q - phi)).
  { rewrite <- Qabs_opp. setoid_replace (- (q - phi)) with (phi - q) by ring.
    apply Qle_Qabs. }
  apply Qabs_Qle_condition.
  assert (Grid : (exists k : Z, phi == inject_Z k * pow2 e1) ->
                 - Qabs (q - phi) <= q - rho <= Qabs (q - phi)).
  { intros (k & K).
    destruct (Z.lt_trichotomy k m1) as [ L | [ Eq | G ] ].
    - assert (T : inject_Z (k + 1) * pow2 e1 <= rho).
      { unfold rho. apply Qmult_le_compat_r; [ | lra ]. rewrite <- Zle_Qle. lia. }
      rewrite inject_Z_succ_mul in T. rewrite <- K in T. split; lra.
    - subst k. fold rho in K. split; lra.
    - assert (T : inject_Z (m1 + 1) * pow2 e1 <= phi).
      { rewrite K. apply Qmult_le_compat_r; [ | lra ]. rewrite <- Zle_Qle. lia. }
      rewrite inject_Z_succ_mul in T. fold rho in T. split; lra. }
  destruct (Z.eq_dec e1 (-1074)) as [ Ee | Ne ].
  - apply Grid. apply (SF_grid f e1 Vf Ff); lia.
  - assert (G : (-1074 < e1)%Z) by lia.
    specialize (N1 G). specialize (N2 G).
    destruct (Qlt_le_dec phi (pow2 (e1 + 52))) as [ Below | Above ].
    + assert (B : pow2 (e1 + 52) <= rho).
      { unfold rho. rewrite pow2_add, (pow2_Z 52) by lia. rewrite (Qmult_comm (pow2 e1)).
        apply Qmult_le_compat_r; [ | lra ]. rewrite <- Zle_Qle. exact N1. }
      destruct (Qlt_le_dec q rho) as [ Up' | Dn' ].
      * assert (T : inject_Z (2 ^ 52 + 1) * pow2 e1 <= rho).
        { unfold rho. apply Qmult_le_compat_r; [ | lra ]. rewrite <- Zle_Qle.
          assert (m1 <> 2 ^ 52)%Z.
          { intros Em. unfold rho in Up'. rewrite Em in Up'.
            rewrite pow2_add, (pow2_Z 52) in N2 by lia. lra. }
          lia. }
        rewrite inject_Z_succ_mul in T.
        rewrite pow2_add, (pow2_Z 52) in Below by lia. split; lra.
      * split; lra.
    + apply Grid. apply (SF_grid f e1 Vf Ff); [ lia | ].
      intros _. rewrite Qabs_pos by exact Pf. exact Above.
Qed.

(** Rounding is monotone: a smaller real never rounds to a larger number. *)
Lemma Rounds_mono (q1 q2 : Q) (r1 r2 : spec_float) :
  Rounds q1 r1 -> Rounds q2 r2 ->
  valid_binary r1 = true -> valid_binary r2 = true ->
  SFfinite r1 = true -> SFfinite r2 = true ->
  q1 < q2 -> SF2Q r1 <= SF2Q r2.
Proof.
  intros R1 R2 V1 V2 F1 F2 L.
  assert (P1 : 0 <= SF2Q r1).
  { rewrite <- (SFrank_finite _ F1).
    destruct R1 as (m & e & _ & _ & _ & _ & _ & _ & R). apply (rounded_rank_nonneg _ _ _ R). }
  assert (P2 : 0 <= SF2Q r2).
  { rewrite <- (SFrank_finite _ F2).
    destruct R2 as (m & e & _ & _ & _ & _ & _ & _ & R). apply (rounded_rank_nonneg _ _ _ R). }
  pose proof (Rounds_nearest q1 r1 r2 R1 F1 V2 F2 P2) as A.
  pose proof (Rounds_nearest q2 r2 r1 R2 F2 V1 F1 P1) as B.
  destruct (Qlt_le_dec (SF2Q r2) (SF2Q r1)) as [ C | C ]; [ exfalso | exact C ].
  destruct (Qabs_cases (q1 - SF2Q r1)) as [ (S1 & E1) | (S1 & E1) ];
    destruct (Qabs_cases (q1 - SF2Q r2)) as [ (S2 & E2) | (S2 & E2) ];
    destruct (Qabs_cases (q2 - SF2Q r2)) as [ (S3 & E3) | (S3 & E3) ];
    destruct (Qabs_cases (q2 - SF2Q r1)) as [ (S4 & E4) | (S4 & E4) ];
    rewrite E1, E2 in A; rewrite E3, E4 in B; lra.
Qed.

(** Two valid non-negative numbers with the same value are the same
    number, up to the sign of zero. *)
Lemma SF2Q_inj (x y : spec_float) :
  valid_binary x = true -> valid_binary y = true ->
  SFfinite x = true -> SFfinite y = true ->
  0 <= SF2Q x -> SF2Q x == SF2Q y ->
  x = y \/ (exists s s', x = S754_zero s /\ y = S754_zero s').
Proof.
  intros Vx Vy Fx Fy Px E.
  destruct x as [ sx | | | sx mx ex ], y as [ sy | | | sy my ey ];
    try discriminate; simpl in *.
  - right. eauto.
  - exfalso. pose proof (mag_pos my ey). destruct sy; lra.
  - exfalso. pose proof (mag_pos mx ex). destruct sx; lra.
  - left. pose proof (mag_pos mx ex). pose proof (mag_pos my ey).
    destruct sx; [ lra | ]. destruct sy; [ lra | ].
    destruct (Z.lt_trichotomy ex ey) as [ L | [ Eq | G ] ].
    + pose proof (mag_lt_exp _ _ _ _ Vx Vy L). lra.
    + subst ey. f_equal.
      assert (C : (mag mx ex ?= mag my ex) = Eq) by (apply (proj1 (Qeq_alt _ _)); exact E).
      rewrite mag_compare_same_exp in C. apply Pos.compare_eq. exact C.
    + pose proof (mag_lt_exp _ _ _ _ Vy Vx G). lra.
Qed.

Local Open Scope float_scope.

Lemma B2Q_inj (x y : float) :
  finite x -> finite y -> (0 <= B2Q x)%Q -> (B2Q x == B2Q y)%Q ->
  x = y \/ (B2Q x == 0 /\ B2Q y == 0)%Q.
Proof.
  intros Fx Fy Px E.
  destruct (SF2Q_inj _ _ (Prim2SF_valid x) (Prim2SF_valid y) Fx Fy Px E)
    as [ H | (s & s' & Hx & Hy) ].
  - left. apply Prim2SF_inj. exact H.
  - right. unfold B2Q. rewrite Hx, Hy. split; reflexivity.
Qed.

(** Multiplication by a positive number and addition are monotone. *)
Lemma mul_mono (x1 x2 k : float) :
  finite x1 -> finite x2 -> finite k ->
  (0 <= B2Q x1)%Q -> (B2Q x1 <= B2Q x2)%Q -> (0 < B2Q k)%Q ->
  finite (x1 * k) -> finite (x2 * k) ->
  (B2Q (x1 * k) <= B2Q (x2 * k))%Q.
Proof.
  intros F1 F2 Fk P1 L Pk G1 G2.
  pose proof (mul_Rounds x1 k F1 Fk P1 ltac:(lra)) as R1.
  pose proof (mul_Rounds x2 k F2 Fk ltac:(lra) ltac:(lra)) as R2.
  destruct (Qlt_le_dec (B2Q x1) (B2Q x2)) as [ S | E ].
  - apply (Rounds_mono _ _ _ _ R1 R2); try apply Prim2SF_valid; try assumption.
    apply Qmult_lt_compat_r; assumption.
  - destruct (B2Q_inj x1 x2 F1 F2 P1 ltac:(lra)) as [ -> | (Z1 & Z2) ]; [ lra | ].
    rewrite Z1 in R1. rewrite Z2 in R2.
    assert (A : (B2Q (x1 * k) <= B2Q 0)%Q).
    { apply (Rounds_le _ _ 0 R1); [ reflexivity | ].
      assert (B2Q 0 == 0)%Q by by_computation. lra. }
    pose proof (Rounds_nonneg _ _ R2 G2).
    assert (B2Q 0 == 0)%Q by by_computation. lra.
Qed.

Lemma add_mono (b w1 w2 : float) :
  finite b -> finite w1 -> finite w2 ->
  (0 <= B2Q b)%Q -> (0 <= B2Q w1)%Q -> (B2Q w1 <= B2Q w2)%Q ->
  finite (b + w1) -> finite (b + w2) ->
  (B2Q (b + w1) <= B2Q (b + w2))%Q.
Proof.
  intros Fb F1 F2 Pb P1 L G1 G2.
  pose proof (add_Rounds b w1 Fb F1 Pb P1) as R1.
  pose proof (add_Rounds b w2 Fb F2 Pb ltac:(lra)) as R2.
  destruct (Qlt_le_dec (B2Q w1) (B2Q w2)) as [ S | E ].
  - apply (Rounds_mono _ _ _ _ R1 R2); try apply Prim2SF_valid; try assumption. lra.
  - destruct (B2Q_inj w1 w2 F1 F2 P1 ltac:(lra)) as [ -> | (Z1 & Z2) ]; [ lra | ].
    rewrite Z1 in R1. rewrite Z2 in R2.
    destruct (Rounds_le _ _ b R1 Fb) as (_ & A); [ lra | ].
    pose proof (Rounds_ge _ _ b R2 Fb G2 ltac:(lra)). lra.
Qed.

(** ** The decision is monotone in the sentiment *)

Lemma buy_weight_mono (s1 s2 : float) :
  (-1 <=? s1) = true -> (s1 <=? s2) = true -> (s2 <=? 1) = true ->
  let w := fun s : float => if s >? 0 then s * 20 else 0 in
  finite (w s1) /\ finite (w s2) /\ (0 <= B2Q (w s1))%Q /\ (B2Q (w s1) <= B2Q (w s2))%Q.
Proof.
  intros L1 L12 U2. cbv zeta. unfold gtb.
  assert (F1' : finite (-1)) by reflexivity. assert (F1 : finite 1) by reflexivity.
  assert (F0 : finite 0) by reflexivity. assert (F20 : finite 20) by reflexivity.
  assert (E0 : (B2Q 0 == 0)%Q) by by_computation.
  assert (E20 : (B2Q 20 == 20)%Q) by by_computation.
  assert (N12 := proj1 (leb_rank _ _) L12). destruct N12 as (N1 & N2 & _).
  assert (U1 : (s1 <=? 1) = true).
  { apply leb_rank. apply leb_rank in L12, U2. destruct L12 as (_ & _ & A).
    destruct U2 as (_ & B & C). repeat split; auto. lra. }
  assert (L2 : (-1 <=? s2) = true).
  { apply leb_rank. apply leb_rank in L12, L1. destruct L12 as (_ & _ & A).
    destruct L1 as (B & _ & C). repeat split; auto. lra. }
  destruct (sentiment_weight s1 L1 U1) as (Fs1 & Bs1 & _ & _ & P1).
  destruct (sentiment_weight s2 L2 U2) as (Fs2 & Bs2 & _ & _ & P2).
  assert (Le : (B2Q s1 <= B2Q s2)%Q) by (apply leb_finite; assumption).
  destruct (0 <? s1) eqn:C1.
  - assert (Q1 : (0 < B2Q s1)%Q) by (rewrite <- E0; apply ltb_finite; assumption).
    assert (C2 : (0 <? s2) = true) by (apply ltb_finite; try assumption; lra).
    destruct (P1 eq_refl) as (G1 & B1 & _). destruct (P2 C2) as (G2 & _). rewrite C2.
    repeat split; try assumption.
    apply mul_mono; try assumption; lra.
  - destruct (0 <? s2) eqn:C2.
    + destruct (P2 eq_refl) as (G2 & B2 & _). repeat split; try assumption; lra.
    + repeat split; try assumption; lra.
Qed.

Lemma sell_weight_anti (s1 s2 : float) :
  (-1 <=? s1) = true -> (s1 <=? s2) = true -> (s2 <=? 1) = true ->
  let w := fun s : float => if s <? 0 then Math_abs (s * 20) else 0 in
  finite (w s1) /\ finite (w s2) /\ (0 <= B2Q (w s2))%Q /\ (B2Q (w s2) <= B2Q (w s1))%Q.
Proof.
  intros L1 L12 U2. cbv zeta.
  assert (F0 : finite 0) by reflexivity. assert (F20 : finite 20) by reflexivity.
  assert (E0 : (B2Q 0 == 0)%Q) by by_computation.
  assert (E20 : (B2Q 20 == 20)%Q) by by_computation.
  assert (N12 := proj1 (leb_rank _ _) L12). destruct N12 as (N1 & N2 & _).
  assert (U1 : (s1 <=? 1) = true).
  { apply leb_rank. apply leb_rank in L12, U2. destruct L12 as (_ & _ & A).
    destruct U2 as (_ & B & C). repeat split; auto. lra. }
  assert (L2 : (-1 <=? s2) = true).
  { apply leb_rank. apply leb_rank in L12, L1. destruct L12 as (_ & _ & A).
    destruct L1 as (B & _ & C). repeat split; auto. lra. }
  destruct (sentiment_weight s1 L1 U1) as (Fs1 & Bs1 & Fa1 & Ba1 & _).
  destruct (sentiment_weight s2 L2 U2) as (Fs2 & Bs2 & Fa2 & Ba2 & _).
  assert (Le : (B2Q s1 <= B2Q s2)%Q) by (apply leb_finite; assumption).
  destruct (s2 <? 0) eqn:C2.
  - assert (Q2 : (B2Q s2 < 0)%Q) by (rewrite <- E0; apply ltb_finite; assumption).
    assert (C1 : (s1 <? 0) = true) by (apply ltb_finite; try assumption; lra).
    rewrite C1. repeat split; try assumption; try lra.
    unfold Math_abs in *. rewrite !abs_mul in *.
    replace (abs 20) with 20 in * by reflexivity.
    apply mul_mono; try assumption; try (apply finite_abs; assumption); try lra.
    + rewrite B2Q_abs. apply Qabs_nonneg.
    + rewrite !B2Q_abs, !Qabs_neg by lra. lra.
  - destruct (s1 <? 0) eqn:C1.
    + repeat split; try assumption; lra.
    + repeat split; try assumption; lra.
Qed.

Lemma totals_mono (inds : list TechnicalIndicator) (s1 s2 : float) :
  (forall ind, In ind inds ->
     (0 <=? ind_strength ind) = true /\ (ind_strength ind <=? 100) = true) ->
  (List.length inds <= 1000)%nat ->
  (-1 <=? s1) = true -> (s1 <=? s2) = true -> (s2 <=? 1) = true ->
  (finite (totalBuyStrength inds s1) /\ finite (totalBuyStrength inds s2)) /\
  (finite (totalSellStrength inds s1) /\ finite (totalSellStrength inds s2)) /\
  (B2Q (totalBuyStrength inds s1) <= B2Q (totalBuyStrength inds s2))%Q /\
  (B2Q (totalSellStrength inds s2) <= B2Q (totalSellStrength inds s1))%Q.
Proof.
  intros H Len L1 L12 U2.
  destruct (sumStrength_bounded BUY inds H Len) as (FB & B0 & B1).
  destruct (sumStrength_bounded SELL inds H Len) as (FS & S0 & S1).
  pose proof (buy_weight_mono s1 s2 L1 L12 U2) as Wb.
  pose proof (sell_weight_anti s1 s2 L1 L12 U2) as Ws.
  cbv zeta beta in Wb, Ws.
  destruct Wb as (Fb1 & Fb2 & Pb & Mb). destruct Ws as (Fs1 & Fs2 & Ps & Ms).
  assert (Sum : forall b w : float, finite b -> finite w ->
                  (0 <= B2Q b <= 100000)%Q -> (0 <= B2Q w <= 20)%Q -> finite (b + w)).
  { intros b w Fb Fw Bb Bw.
    pose proof (add_Rounds _ _ Fb Fw ltac:(lra) ltac:(lra)) as R.
    destruct (Rounds_le_int _ 100020 _ R) as (F & _);
      [ split; [ lia | reflexivity ] | change (inject_Z 100020) with 100020%Q; lra | ].
    exact F. }
  assert (W20 : forall s : float, (-1 <=? s) = true -> (s <=? 1) = true ->
                  (B2Q (if s >? 0 then s * 20 else 0) <= 20)%Q /\
                  (B2Q (if s <? 0 then Math_abs (s * 20) else 0) <= 20)%Q).
  { intros s L U. destruct (sentiment_weight s L U) as (_ & _ & _ & Ba & P).
    assert (E0 : (B2Q 0 == 0)%Q) by by_computation.
    unfold gtb. split.
    - destruct (0 <? s); [ destruct (P eq_refl) as (_ & _ & T); exact T | lra ].
    - destruct (s <? 0); lra. }
  assert (U1 : (s1 <=? 1) = true).
  { apply leb_rank. apply leb_rank in L12, U2. destruct L12 as (N1 & _ & A).
    destruct U2 as (_ & B & C). repeat split; auto. lra. }
  assert (L2 : (-1 <=? s2) = true).
  { apply leb_rank. apply leb_rank in L12, L1. destruct L12 as (_ & N2 & A).
    destruct L1 as (B & _ & C). repeat split; auto. lra. }
  destruct (W20 s1 L1 U1) as (Tb1 & Ts1). destruct (W20 s2 L2 U2) as (Tb2 & Ts2).
  unfold totalBuyStrength, totalSellStrength. cbv zeta.
  assert (Pb2 := Qle_trans _ _ _ Pb Mb). assert (Ps1 := Qle_trans _ _ _ Ps Ms).
  assert (G1 := Sum _ _ FB Fb1 (conj B0 B1) (conj Pb Tb1)).
  assert (G2 := Sum _ _ FB Fb2 (conj B0 B1) (conj Pb2 Tb2)).
  assert (G3 := Sum _ _ FS Fs1 (conj S0 S1) (conj Ps1 Ts1)).
  assert (G4 := Sum _ _ FS Fs2 (conj S0 S1) (conj Ps Ts2)).
  split; [ split; assumption | ]. split; [ split; assumption | ].
  split; apply add_mono; assumption.
Qed.

(** X19: a higher sentiment never makes the recommendation more bearish.
    For up to 1000 indicators with strengths in [0, 100] and two
    sentiments in [-1, 1], the recommendation for the higher sentiment is
    at least as bullish as the one for the lower sentiment (SELL below
    HOLD below BUY): a BUY stays a BUY when the sentiment rises, and a
    SELL stays a SELL when it falls.  The price and the random draws
    play no part. *)
Theorem sentiment_monotone :
  forall (price1 price2 : float) (inds : list TechnicalIndicator)
         (s1 s2 : float) (g1 g2 : Rng),
    (forall ind, In ind inds ->
       (0 <=? ind_strength ind) = true /\ (ind_strength ind <=? 100) = true) ->
    (List.length inds <= 1000)%nat ->
    (-1 <=? s1) = true -> (s1 <=? s2) = true -> (s2 <=? 1) = true ->
    (bullishness (action (fst (generateTradingSignal price1 inds s1 g1))) <=
     bullishness (action (fst (generateTradingSignal price2 inds s2 g2))))%nat.
Proof.
  intros price1 price2 inds s1 s2 g1 g2 H Len L1 L12 U2.
  destruct (totals_mono inds s1 s2 H Len L1 L12 U2)
    as ((Fb1 & Fb2) & (Ft1 & Ft2) & Mb & Ms).
  assert (Up : forall n : bool,
             (totalBuyStrength inds s1 >? totalSellStrength inds s1) && n = true ->
             (totalBuyStrength inds s2 >? totalSellStrength inds s2) && n = true).
  { intros n C. apply andb_prop in C. destruct C as (C & ->). rewrite andb_true_r.
    unfold gtb in *. apply ltb_finite in C; try assumption.
    apply ltb_finite; try assumption. lra. }
  assert (Down : forall n : bool,
             (totalSellStrength inds s2 >? totalBuyStrength inds s2) && n = true ->
             (totalSellStrength inds s1 >? totalBuyStrength inds s1) && n = true /\
             (totalBuyStrength inds s1 >? totalSellStrength inds s1) = false).
  { intros n C. apply andb_prop in C. destruct C as (C & ->). rewrite andb_true_r.
    unfold gtb in *. apply ltb_finite in C; try assumption.
    assert (T : (totalBuyStrength inds s1 <? totalSellStrength inds s1) = true)
      by (apply ltb_finite; try assumption; lra).
    split; [ exact T | apply ltb_asym; exact T ]. }
  destruct (action_cases price1 inds s1 g1)
    as [ (A1 & C) | [ (A1 & C1 & C2) | (A1 & C1 & C2) ] ];
    destruct (action_cases price2 inds s2 g2)
      as [ (A2 & D) | [ (A2 & D1 & D2) | (A2 & D1 & D2) ] ];
    rewrite A1, A2; cbn [bullishness]; try lia.
  - apply Up in C. rewrite C in D1. discriminate.
  - apply Up in C. rewrite C in D1. discriminate.
  - apply Down in D2. destruct D2 as (T & _). rewrite T in C2. discriminate.
Qed.

(** ** The price levels in detail *)

(** The factors applied to the price, within [1e-15] of their real
    values. *)
Lemma level_factors_precise (v : float) :
  finite v -> (B2Q 0.02 <= B2Q v <= B2Q 0.05)%Q ->
  (1 + 2 * B2Q v - (1 # 1000000000000000) <= B2Q (1 + v * 2) /\
   B2Q (1 + v * 2) <= 1 + 2 * B2Q v + (1 # 1000000000000000))%Q /\
  (1 - 2 * B2Q v - (1 # 1000000000000000) <= B2Q (1 - v * 2) /\
   B2Q (1 - v * 2) <= 1 - 2 * B2Q v + (1 # 1000000000000000))%Q /\
  (1 + B2Q v - (1 # 1000000000000000) <= B2Q (1 + v) /\
   B2Q (1 + v) <= 1 + B2Q v + (1 # 1000000000000000))%Q /\
  (1 - B2Q v - (1 # 1000000000000000) <= B2Q (1 - v) /\
   B2Q (1 - v) <= 1 - B2Q v + (1 # 1000000000000000))%Q.
Proof.
  intros Fv [V1 V2].
  destruct (level_factors v Fv (conj V1 V2))
    as ((Fa & A1 & A2) & (Fb & B1 & B2) & (Fc & C1 & C2) & (Fd & D1 & D2)).
  assert (K2 : (19 # 1000 <= B2Q 0.02)%Q) by by_computation.
  assert (K5 : (B2Q 0.05 <= 51 # 1000)%Q) by by_computation.
  assert (F1 : finite 1) by reflexivity.
  assert (F2 : finite 2) by reflexivity.
  assert (E1 : (B2Q 1 == 1)%Q) by by_computation.
  assert (E2 : (B2Q 2 == 2)%Q) by by_computation.
  assert (U : (u64 == 1 # 9007199254740992)%Q) by reflexivity.
  assert (P22 : (pow2 (-1022) <= 1 # 1000)%Q).
  { apply Qle_trans with (pow2 (-10)); [ apply pow2_le; lia | by_computation ]. }
  assert (Nv : (0 <= B2Q v)%Q) by lra.
  (* v * 2 *)
  pose proof (mul_Rounds v 2 Fv F2 Nv ltac:(by_computation)) as Rd.
  rewrite E2 in Rd.
  assert (Fd2 : finite (v * 2)).
  { apply (Rounds_le _ _ 1 Rd F1). rewrite E1. lra. }
  destruct (Rounds_error _ _ Rd) as (X1 & X2); [ lra | exact Fd2 | ].
  rewrite U in X1, X2.
  set (V := B2Q v) in *. set (D := B2Q (v * 2)) in *.
  assert (ND : (0 <= D)%Q) by lra.
  (* the four sums *)
  pose proof (add_Rounds 1 (v * 2) F1 Fd2 ltac:(by_computation) ND) as Ra.
  pose proof (sub_Rounds 1 (v * 2) F1 Fd2 ND ltac:(fold D; rewrite E1; lra)) as Rb.
  pose proof (add_Rounds 1 v F1 Fv ltac:(by_computation) Nv) as Rc.
  pose proof (sub_Rounds 1 v F1 Fv Nv ltac:(fold V; rewrite E1; lra)) as Rs.
  fold D in Ra, Rb. fold V in Rc, Rs. rewrite E1 in Ra, Rb, Rc, Rs.
  destruct (Rounds_error _ _ Ra) as (Y1 & Y2); [ lra | exact Fa | ].
  destruct (Rounds_error _ _ Rb) as (Y3 & Y4); [ lra | exact Fb | ].
  destruct (Rounds_error _ _ Rc) as (Y5 & Y6); [ lra | exact Fc | ].
  destruct (Rounds_error _ _ Rs) as (Y7 & Y8); [ lra | exact Fd | ].
  rewrite U in *.
  repeat split; lra.
Qed.

Lemma scale_le (P a b : Q) : (0 < P)%Q -> (a <= b)%Q -> (P * a <= P * b)%Q.
Proof. intros HP H. apply (proj2 (Qmult_le_l _ _ _ HP)). exact H. Qed.

(** The ratio of the two distances between three levels. *)
Lemma ratio_range (p kt ke ks : float) :
  price_in_range p -> finite kt -> finite ke -> finite ks ->
  (1 # 2 <= B2Q kt <= 2)%Q -> (1 # 2 <= B2Q ke <= 2)%Q -> (1 # 2 <= B2Q ks <= 2)%Q ->
  ((1 # 100 <= B2Q ke - B2Q ks /\
    (2332 # 1000) * (B2Q ke - B2Q ks) <= B2Q kt - B2Q ke /\
    B2Q kt - B2Q ke <= (3005 # 1000) * (B2Q ke - B2Q ks)) \/
   (1 # 100 <= B2Q ks - B2Q ke /\
    (2332 # 1000) * (B2Q ks - B2Q ke) <= B2Q ke - B2Q kt /\
    B2Q ke - B2Q kt <= (3005 # 1000) * (B2Q ks - B2Q ke)))%Q ->
  let r := Math_abs ((p * kt - p * ke) / (p * ke - p * ks)) in
  finite r /\ (B2Q 2.33 <= B2Q r <= B2Q 3.01)%Q.
Proof.
  intros Hp Ft Fe Fs Kt Ke Ks Rel. cbv zeta. unfold Math_abs. rewrite abs_div.
  destruct (price_in_range_bounds p Hp) as (Fp & P1 & P2).
  pose proof (pow2_pos (-1000)) as Q1.
  assert (Pp : (0 < B2Q p)%Q) by lra.
  destruct (price_times p kt Hp Ft Kt) as (FT & T1 & T2 & T3).
  destruct (price_times p ke Hp Fe Ke) as (FE & E1 & E2 & E3).
  destruct (price_times p ks Hp Fs Ks) as (FS & S1 & S2 & S3).
  assert (U : (u64 == 1 # 9007199254740992)%Q) by reflexivity.
  rewrite U in *.
  destruct (scale_bounds _ _ _ _ Pp Kt) as (Xt1 & Xt2).
  destruct (scale_bounds _ _ _ _ Pp Ke) as (Xe1 & Xe2).
  destruct (scale_bounds _ _ _ _ Pp Ks) as (Xs1 & Xs2).
  set (P := B2Q p) in *.
  set (xt := (P * B2Q kt)%Q) in *. set (xe := (P * B2Q ke)%Q) in *.
  set (xs := (P * B2Q ks)%Q) in *.
  set (t := p * kt) in *. set (e := p * ke) in *. set (s := p * ks) in *.
  assert (E1003 : (B2Q 0x1p+1003 == pow2 1000 * 8)%Q) by by_computation.
  assert (E10 : (pow2 (-1000) == pow2 (-1012) * 4096)%Q).
  { change (-1000)%Z with (-1012 + 12)%Z. rewrite pow2_add. reflexivity. }
  assert (E22 : (pow2 (-1022) <= pow2 (-1012))%Q) by (apply pow2_le; lia).
  pose proof (abs_sub_Rounds t e FT FE ltac:(lra) ltac:(lra)) as Rn.
  pose proof (abs_sub_Rounds e s FE FS ltac:(lra) ltac:(lra)) as Rd.
  destruct (Rounds_le _ _ 0x1p+1003 Rn) as (Fn & _); [ reflexivity | | ].
  { rewrite E1003. apply Qabs_Qle_condition. split; lra. }
  destruct (Rounds_le _ _ 0x1p+1003 Rd) as (Fd & _); [ reflexivity | | ].
  { rewrite E1003. apply Qabs_Qle_condition. split; lra. }
  assert (Bounds : ((2331 # 1000) * B2Q (abs (e - s)) <= B2Q (abs (t - e)) /\
                    B2Q (abs (t - e)) <= (3006 # 1000) * B2Q (abs (e - s)) /\
                    0 < B2Q (abs (e - s)))%Q).
  { destruct Rel as [ (G1 & G2 & G3) | (G1 & G2 & G3) ].
    - apply (scale_le P _ _ Pp) in G1, G2, G3.
      assert (H1 : ((1 # 100) * P <= xe - xs)%Q) by (unfold xe, xs; lra).
      assert (H2 : ((2332 # 1000) * (xe - xs) <= xt - xe)%Q) by (unfold xt, xe, xs; lra).
      assert (H3 : (xt - xe <= (3005 # 1000) * (xe - xs))%Q) by (unfold xt, xe, xs; lra).
      rewrite Qabs_pos in Rn by lra. rewrite Qabs_pos in Rd by lra.
      destruct (Rounds_error _ _ Rn) as (N1 & N2); [ lra | exact Fn | ].
      destruct (Rounds_error _ _ Rd) as (D1 & D2); [ lra | exact Fd | ].
      rewrite U in *. repeat split; lra.
    - apply (scale_le P _ _ Pp) in G1, G2, G3.
      assert (H1 : ((1 # 100) * P <= xs - xe)%Q) by (unfold xe, xs; lra).
      assert (H2 : ((2332 # 1000) * (xs - xe) <= xe - xt)%Q) by (unfold xt, xe, xs; lra).
      assert (H3 : (xe - xt <= (3005 # 1000) * (xs - xe))%Q) by (unfold xt, xe, xs; lra).
      rewrite Qabs_neg in Rn by lra. rewrite Qabs_neg in Rd by lra.
      destruct (Rounds_error _ _ Rn) as (N1 & N2); [ lra | exact Fn | ].
      destruct (Rounds_error _ _ Rd) as (D1 & D2); [ lra | exact Fd | ].
      rewrite U in *. repeat split; lra. }
  destruct Bounds as (B1 & B2 & Dpos).
  pose proof (Rounds_nonneg _ _ Rn Fn) as Nn.
  set (n := abs (t - e)) in *. set (d := abs (e - s)) in *.
  pose proof (div_Rounds n d Fn Fd Nn Dpos) as Rq.
  destruct (Qdiv_bounds (B2Q n) (B2Q d) (2331 # 1000) (3006 # 1000) Dpos B1 B2)
    as (Q2 & Q3).
  destruct (Rounds_le _ _ 3.01 Rq) as (Fq & Uq); [ reflexivity | | ].
  { assert (3006 # 1000 <= B2Q 3.01)%Q by by_computation.
    apply Qle_trans with (3006 # 1000)%Q; assumption. }
  split; [ exact Fq | ]. split; [ | exact Uq ].
  apply (Rounds_ge _ _ 2.33 Rq); [ reflexivity | exact Fq | ].
  assert (B2Q 2.33 <= 2331 # 1000)%Q by by_computation.
  apply Qle_trans with (2331 # 1000)%Q; assumption.
Qed.

(** The relative distance of two levels, as a percentage. *)
Lemma potential_range (p khi klo kd : float) :
  price_in_range p -> finite khi -> finite klo -> finite kd ->
  (1 # 2 <= B2Q khi <= 2)%Q -> (1 # 2 <= B2Q klo <= 2)%Q -> (1 # 2 <= B2Q kd <= 2)%Q ->
  ((445 # 10000) * B2Q kd <= B2Q khi - B2Q klo)%Q ->
  (B2Q khi - B2Q klo <= (1057 # 10000) * B2Q kd)%Q ->
  let pct := (p * khi - p * klo) / (p * kd) * 100 in
  finite pct /\ (B2Q 4.4 <= B2Q pct <= B2Q 10.6)%Q.
Proof.
  intros Hp Fh Fl Fk Kh Kl Kd G1 G2. cbv zeta.
  destruct (price_in_range_bounds p Hp) as (Fp & P1 & P2).
  pose proof (pow2_pos (-1000)) as Q1.
  assert (Pp : (0 < B2Q p)%Q) by lra.
  destruct (price_times p khi Hp Fh Kh) as (FH & H1 & H2 & H3).
  destruct (price_times p klo Hp Fl Kl) as (FL & L1 & L2 & L3).
  destruct (price_times p kd Hp Fk Kd) as (FD & D1 & D2 & D3).
  assert (U : (u64 == 1 # 9007199254740992)%Q) by reflexivity.
  rewrite U in *.
  destruct (scale_bounds _ _ _ _ Pp Kh) as (Xh1 & Xh2).
  destruct (scale_bounds _ _ _ _ Pp Kl) as (Xl1 & Xl2).
  destruct (scale_bounds _ _ _ _ Pp Kd) as (Xd1 & Xd2).
  apply (scale_le (B2Q p) _ _ Pp) in G1, G2.
  set (P := B2Q p) in *.
  assert (G1' : ((445 # 10000) * (P * B2Q kd) <= P * B2Q khi - P * B2Q klo)%Q) by lra.
  assert (G2' : (P * B2Q khi - P * B2Q klo <= (1057 # 10000) * (P * B2Q kd))%Q) by lra.
  set (xh := (P * B2Q khi)%Q) in *. set (xl := (P * B2Q klo)%Q) in *.
  set (xd := (P * B2Q kd)%Q) in *.
  set (h := p * khi) in *. set (l := p * klo) in *. set (d := p * kd) in *.
  assert (E10 : (pow2 (-1000) == pow2 (-1012) * 4096)%Q).
  { change (-1000)%Z with (-1012 + 12)%Z. rewrite pow2_add. reflexivity. }
  assert (E22 : (pow2 (-1022) <= pow2 (-1012))%Q) by (apply pow2_le; lia).
  pose proof (sub_Rounds h l FH FL ltac:(lra) ltac:(lra)) as Rn.
  destruct (Rounds_le _ _ h Rn FH) as (Fn & _); [ lra | ].
  destruct (Rounds_error _ _ Rn) as (N1 & N2); [ lra | exact Fn | ].
  rewrite U in N1, N2.
  set (n := h - l) in *.
  assert (Dpos : (0 < B2Q d)%Q) by lra.
  pose proof (div_Rounds n d Fn FD ltac:(lra) Dpos) as Rq.
  destruct (Qdiv_bounds (B2Q n) (B2Q d) (444 # 10000) (1058 # 10000) Dpos)
    as (Q2 & Q3); [ lra | lra | ].
  destruct (Rounds_le _ _ 0.1059 Rq) as (Fq & Uq); [ reflexivity | | ].
  { assert (1058 # 10000 <= B2Q 0.1059)%Q by by_computation.
    apply Qle_trans with (1058 # 10000)%Q; assumption. }
  assert (Lq : (B2Q 0.0443 <= B2Q (n / d))%Q).
  { apply (Rounds_ge _ _ 0.0443 Rq); [ reflexivity | exact Fq | ].
    assert (B2Q 0.0443 <= 444 # 10000)%Q by by_computation.
    apply Qle_trans with (444 # 10000)%Q; assumption. }
  set (q := n / d) in *.
  assert (C1 : (4429 # 100000 <= B2Q 0.0443)%Q) by by_computation.
  assert (C2 : (B2Q 0.1059 <= 10591 # 100000)%Q) by by_computation.
  assert (E100 : (B2Q 100 == 100)%Q) by by_computation.
  pose proof (mul_Rounds q 100 Fq ltac:(reflexivity) ltac:(lra) ltac:(by_computation)) as Rp.
  rewrite E100 in Rp.
  destruct (Rounds_le _ _ 10.6 Rp) as (Fc & Uc); [ reflexivity | | ].
  { assert (10591 # 1000 <= B2Q 10.6)%Q by by_computation. lra. }
  split; [ exact Fc | ]. split; [ | exact Uc ].
  apply (Rounds_ge _ _ 4.4 Rp); [ reflexivity | exact Fc | ].
  assert (B2Q 4.4 <= 4429 # 1000)%Q by by_computation. lra.
Qed.

(** The factors of the three levels of a BUY and of a SELL decision. *)
Lemma buy_factors (v : float) :
  finite v -> (B2Q 0.02 <= B2Q v <= B2Q 0.05)%Q ->
  finite (1 + v * 2) /\ finite (1 - v) /\
  (1 # 2 <= B2Q (1 + v * 2) <= 2)%Q /\ (1 # 2 <= B2Q 0.995 <= 2)%Q /\
  (1 # 2 <= B2Q (1 - v) <= 2)%Q /\
  (1 # 100 <= B2Q 0.995 - B2Q (1 - v))%Q /\
  ((2332 # 1000) * (B2Q 0.995 - B2Q (1 - v)) <= B2Q (1 + v * 2) - B2Q 0.995)%Q /\
  (B2Q (1 + v * 2) - B2Q 0.995 <= (3005 # 1000) * (B2Q 0.995 - B2Q (1 - v)))%Q /\
  ((445 # 10000) * B2Q 0.995 <= B2Q (1 + v * 2) - B2Q 0.995)%Q /\
  (B2Q (1 + v * 2) - B2Q 0.995 <= (1057 # 10000) * B2Q 0.995)%Q.
Proof.
  intros Fv V.
  destruct (level_factors _ Fv V)
    as ((Fa & A1 & A2) & (Fb & B1 & B2) & (Fc & C1 & C2) & (Fd & D1 & D2)).
  destruct (level_factors_precise _ Fv V)
    as ((PA1 & PA2) & (PB1 & PB2) & (PC1 & PC2) & (PD1 & PD2)).
  destruct V as [V1 V2].
  literal 0.995. literal 0.02. literal 0.05.
  repeat split; try assumption; lra.
Qed.

Lemma sell_factors (v : float) :
  finite v -> (B2Q 0.02 <= B2Q v <= B2Q 0.05)%Q ->
  finite (1 - v * 2) /\ finite (1 + v) /\
  (1 # 2 <= B2Q (1 - v * 2) <= 2)%Q /\ (1 # 2 <= B2Q 1.005 <= 2)%Q /\
  (1 # 2 <= B2Q (1 + v) <= 2)%Q /\
  (1 # 100 <= B2Q (1 + v) - B2Q 1.005)%Q /\
  ((2332 # 1000) * (B2Q (1 + v) - B2Q 1.005) <= B2Q 1.005 - B2Q (1 - v * 2))%Q /\
  (B2Q 1.005 - B2Q (1 - v * 2) <= (3005 # 1000) * (B2Q (1 + v) - B2Q 1.005))%Q /\
  ((445 # 10000) * B2Q 1.005 <= B2Q 1.005 - B2Q (1 - v * 2))%Q /\
  (B2Q 1.005 - B2Q (1 - v * 2) <= (1057 # 10000) * B2Q 1.005)%Q.
Proof.
  intros Fv V.
  destruct (level_factors _ Fv V)
    as ((Fa & A1 & A2) & (Fb & B1 & B2) & (Fc & C1 & C2) & (Fd & D1 & D2)).
  destruct (level_factors_precise _ Fv V)
    as ((PA1 & PA2) & (PB1 & PB2) & (PC1 & PC2) & (PD1 & PD2)).
  destruct V as [V1 V2].
  literal 1.005. literal 0.02. literal 0.05.
  repeat split; try assumption; lra.
Qed.

(** The levels of a BUY and of a SELL decision: order, risk/reward ratio
    and potential. *)
Lemma buy_levels_facts (p v : float) :
  price_in_range p -> finite v -> (B2Q 0.02 <= B2Q v <= B2Q 0.05)%Q ->
  let entry := p * 0.995 in
  let target := p * (1 + v * 2) in
  let stop := p * (1 - v) in
  (target >? entry) = true /\ (entry >? stop) = true /\
  (2.33 <=? Math_abs ((target - entry) / (entry - stop))) = true /\
  (Math_abs ((target - entry) / (entry - stop)) <=? 3.01) = true /\
  (4.4 <=? (target - entry) / entry * 100) = true /\
  ((target - entry) / entry * 100 <=? 10.6) = true.
Proof.
  intros Hp Fv V. cbv zeta.
  destruct (buy_factors v Fv V) as (Ft & Fs & Kt & Ke & Ks & G1 & G2 & G3 & G4 & G5).
  assert (Fe : finite 0.995) by reflexivity.
  destruct (ratio_range p (1 + v * 2) 0.995 (1 - v) Hp Ft Fe Fs Kt Ke Ks)
    as (Fr & R1 & R2); [ left; repeat split; assumption | ].
  destruct (potential_range p (1 + v * 2) 0.995 0.995 Hp Ft Fe Fe Kt Ke Ke G4 G5)
    as (Fp & P1 & P2).
  split; [ unfold gtb; apply price_times_lt; try assumption; lra | ].
  split; [ unfold gtb; apply price_times_lt; try assumption; lra | ].
  repeat split; apply leb_finite; try assumption; reflexivity.
Qed.

Lemma sell_levels_facts (p v : float) :
  price_in_range p -> finite v -> (B2Q 0.02 <= B2Q v <= B2Q 0.05)%Q ->
  let entry := p * 1.005 in
  let target := p * (1 - v * 2) in
  let stop := p * (1 + v) in
  (stop >? entry) = true /\ (entry >? target) = true /\
  (2.33 <=? Math_abs ((target - entry) / (entry - stop))) = true /\
  (Math_abs ((target - entry) / (entry - stop)) <=? 3.01) = true /\
  (4.4 <=? (entry - target) / entry * 100) = true /\
  ((entry - target) / entry * 100 <=? 10.6) = true.
Proof.
  intros Hp Fv V. cbv zeta.
  destruct (sell_factors v Fv V) as (Ft & Fs & Kt & Ke & Ks & G1 & G2 & G3 & G4 & G5).
  assert (Fe : finite 1.005) by reflexivity.
  destruct (ratio_range p (1 - v * 2) 1.005 (1 + v) Hp Ft Fe Fs Kt Ke Ks)
    as (Fr & R1 & R2); [ right; repeat split; assumption | ].
  destruct (potential_range p 1.005 (1 - v * 2) 1.005 Hp Fe Ft Fe Ke Kt Ke G4 G5)
    as (Fp & P1 & P2).
  split; [ unfold gtb; apply price_times_lt; try assumption; lra | ].
  split; [ unfold gtb; apply price_times_lt; try assumption; lra | ].
  repeat split; apply leb_finite; try assumption; reflexivity.
Qed.

(** X7: for a BUY or SELL decision at a price in range the risk/reward
    ratio lies between 2.33 and 3.01: the reward is the distance from the
    entry to the target, 2 * volatility + 0.5% of the price, and the risk
    the distance from the entry to the stop, volatility - 0.5%. *)
Theorem risk_reward_range :
  forall (price : float) (inds : list TechnicalIndicator) (sentiment : float)
         (g : Rng),
    price_in_range price -> unit_draws g ->
    let result := fst (generateTradingSignal price inds sentiment g) in
    action result <> HOLD ->
    (2.33 <=? riskReward result) = true /\ (riskReward result <=? 3.01) = true.
Proof.
  intros price inds sentiment g Hp Hg. cbv zeta. intros NH.
  pose proof (riskReward_def price inds sentiment g) as R. cbv zeta in R.
  destruct (Hg 0%nat) as [L U].
  destruct (volatility_range (g 0%nat) L U) as (Fv & V).
  destruct (action_cases price inds sentiment g)
    as [ (_ & C) | [ (_ & K1 & K2) | (B & _) ] ]; [ | | congruence ].
  - destruct (buy_branch price inds sentiment g C) as (_ & _ & E & T & S).
    rewrite R, E, T, S.
    assert (K : 1 - 0.005 = 0.995) by (vm_compute; reflexivity). rewrite K.
    destruct (buy_levels_facts price _ Hp Fv V) as (_ & _ & R1 & R2 & _).
    split; assumption.
  - destruct (sell_branch price inds sentiment g K1 K2) as (_ & _ & E & T & S).
    rewrite R, E, T, S.
    assert (K : 1 + 0.005 = 1.005) by (vm_compute; reflexivity). rewrite K.
    destruct (sell_levels_facts price _ Hp Fv V) as (_ & _ & R1 & R2 & _).
    split; assumption.
Qed.

(** ** The reasoning *)

Section Reasoning.

Variables (price : float) (inds : list TechnicalIndicator) (sentiment : float)
          (g : Rng).

Let tb := totalBuyStrength inds sentiment.
Let ts := totalSellStrength inds sentiment.
Let result := fst (generateTradingSignal price inds sentiment g).

Lemma buy_reasoning :
  (tb >? ts) && (2 <=? countSignals BUY inds)%nat = true ->
  reasoning result =
    [SuggestBuying (countSignals BUY inds)] ++
    (if sentiment >? 0.1 then [PositiveSentiment] else []) ++
    [UpsidePotential
       ((targetPrice result - entryPrice result) / entryPrice result * 100)].
Proof.
  intros C. unfold result, generateTradingSignal. fold tb ts.
  rewrite C. cbv beta iota zeta. unfold Math_random. cbv beta iota zeta.
  destruct (sentiment >? 0.1); reflexivity.
Qed.

Lemma sell_reasoning :
  (tb >? ts) && (2 <=? countSignals BUY inds)%nat = false ->
  (ts >? tb) && (2 <=? countSignals SELL inds)%nat = true ->
  reasoning result =
    [SuggestSelling (countSignals SELL inds)] ++
    (if sentiment <? -0.1 then [NegativeSentiment] else []) ++
    [DownsidePotential
       ((entryPrice result - targetPrice result) / entryPrice result * 100)].
Proof.
  intros C1 C2. unfold result, generateTradingSignal. fold tb ts.
  rewrite C1, C2. cbv beta iota zeta. unfold Math_random. cbv beta iota zeta.
  destruct (sentiment <? -0.1); reflexivity.
Qed.

Lemma hold_reasoning :
  (tb >? ts) && (2 <=? countSignals BUY inds)%nat = false ->
  (ts >? tb) && (2 <=? countSignals SELL inds)%nat = false ->
  reasoning result =
    MixedSignals ::
    (if (0 <? countSignals HOLD inds)%nat
     then [NeutralIndicators (countSignals HOLD inds)] else []).
Proof.
  intros C1 C2. unfold result, generateTradingSignal. fold tb ts.
  rewrite C1, C2. cbv beta iota zeta. unfold Math_random. cbv beta iota zeta.
  destruct (0 <? countSignals HOLD inds)%nat; reflexivity.
Qed.

End Reasoning.

(** X8: the reasoning of a decision at a price in range.  A BUY decision
    cites its number of BUY indicators, which is at least 2, then the
    positive sentiment when the sentiment exceeds 0.1, then an upside
    potential between 4.4% and 10.6%; a SELL decision is the mirror image,
    with a downside potential in the same range; a HOLD decision states
    mixed signals and the number of neutral indicators when there are
    some, and no potential. *)
Theorem reasoning_contents :
  forall (price : float) (inds : list TechnicalIndicator) (sentiment : float)
         (g : Rng),
    price_in_range price -> unit_draws g ->
    let result := fst (generateTradingSignal price inds sentiment g) in
    (action result = BUY ->
     exists percent : float,
       reasoning result =
         [SuggestBuying (countSignals BUY inds)] ++
         (if sentiment >? 0.1 then [PositiveSentiment] else []) ++
         [UpsidePotential percent] /\
       (2 <= countSignals BUY inds)%nat /\
       percent = (targetPrice result - entryPrice result) / entryPrice result * 100 /\
       (4.4 <=? percent) = true /\ (percent <=? 10.6) = true) /\
    (action result = SELL ->
     exists percent : float,
       reasoning result =
         [SuggestSelling (countSignals SELL inds)] ++
         (if sentiment <? -0.1 then [NegativeSentiment] else []) ++
         [DownsidePotential percent] /\
       (2 <= countSignals SELL inds)%nat /\
       percent = (entryPrice result - targetPrice result) / entryPrice result * 100 /\
       (4.4 <=? percent) = true /\ (percent <=? 10.6) = true) /\
    (action result = HOLD ->
     reasoning result =
       MixedSignals ::
       (if (0 <? countSignals HOLD inds)%nat
        then [NeutralIndicators (countSignals HOLD inds)] else [])).
Proof.
  intros price inds sentiment g Hp Hg. cbv zeta.
  destruct (Hg 0%nat) as [L U].
  destruct (volatility_range (g 0%nat) L U) as (Fv & V).
  destruct (action_cases price inds sentiment g)
    as [ (A & C) | [ (A & K1 & K2) | (A & K1 & K2) ] ];
    (split; [ | split ]); intros A'; try congruence.
  - destruct (buy_branch price inds sentiment g C) as (_ & _ & E & T & S).
    eexists. split; [ apply buy_reasoning; exact C | ].
    split; [ apply andb_prop in C; destruct C as [_ C]; apply Nat.leb_le; exact C | ].
    split; [ reflexivity | ].
    rewrite E, T.
    assert (K : 1 - 0.005 = 0.995) by (vm_compute; reflexivity). rewrite K.
    destruct (buy_levels_facts price _ Hp Fv V) as (_ & _ & _ & _ & P1 & P2).
    split; assumption.
  - destruct (sell_branch price inds sentiment g K1 K2) as (_ & _ & E & T & S).
    eexists. split; [ apply sell_reasoning; assumption | ].
    split; [ apply andb_prop in K2; destruct K2 as [_ K2]; apply Nat.leb_le; exact K2 | ].
    split; [ reflexivity | ].
    rewrite E, T.
    assert (K : 1 + 0.005 = 1.005) by (vm_compute; reflexivity). rewrite K.
    destruct (sell_levels_facts price _ Hp Fv V) as (_ & _ & _ & _ & P1 & P2).
    split; assumption.
  - apply hold_reasoning; assumption.
Qed.

(** ** The levels around the price *)

Lemma price_times_below (p k : float) :
  price_in_range p -> finite k -> (1 # 2 <= B2Q k <= 999 # 1000)%Q ->
  (p * k <? p) = true.
Proof.
  intros Hp Fk [K1 K2].
  destruct (price_in_range_bounds p Hp) as (Fp & P1 & P2).
  pose proof (pow2_pos (-1000)) as Q1.
  assert (Pp : (0 < B2Q p)%Q) by lra.
  destruct (price_times p k Hp Fk) as (F & A1 & A2 & A3); [ lra | ].
  destruct (scale_bounds _ _ _ _ Pp (conj K1 K2)) as (S1 & S2).
  assert (U : (u64 == 1 # 9007199254740992)%Q) by reflexivity.
  rewrite U in *.
  apply ltb_finite; try assumption. lra.
Qed.

Lemma price_times_above (p k : float) :
  price_in_range p -> finite k -> (1001 # 1000 <= B2Q k <= 2)%Q ->
  (p <? p * k) = true.
Proof.
  intros Hp Fk [K1 K2].
  destruct (price_in_range_bounds p Hp) as (Fp & P1 & P2).
  pose proof (pow2_pos (-1000)) as Q1.
  assert (Pp : (0 < B2Q p)%Q) by lra.
  destruct (price_times p k Hp Fk) as (F & A1 & A2 & A3); [ lra | ].
  destruct (scale_bounds _ _ _ _ Pp (conj K1 K2)) as (S1 & S2).
  assert (U : (u64 == 1 # 9007199254740992)%Q) by reflexivity.
  rewrite U in *.
  apply ltb_finite; try assumption. lra.
Qed.

(** X18: the levels of a decision bracket the price.  For a BUY decision at
    a price in range the entry is below the price and the target above it,
    the stop is less than 6% below the price and the target less than 11%
    above it; a SELL decision is the mirror image. *)
Theorem levels_around_price :
  forall (price : float) (inds : list TechnicalIndicator) (sentiment : float)
         (g : Rng),
    price_in_range price -> unit_draws g ->
    let result := fst (generateTradingSignal price inds sentiment g) in
    (action result = BUY ->
     (price * 0.94 <? stopLoss result) = true /\
     (stopLoss result <? entryPrice result) = true /\
     (entryPrice result <? price) = true /\
     (price <? targetPrice result) = true /\
     (targetPrice result <? price * 1.11) = true) /\
    (action result = SELL ->
     (price * 0.89 <? targetPrice result) = true /\
     (targetPrice result <? price) = true /\
     (price <? entryPrice result) = true /\
     (entryPrice result <? stopLoss result) = true /\
     (stopLoss result <? price * 1.06) = true).
Proof.
  intros price inds sentiment g Hp Hg. cbv zeta.
  destruct (Hg 0%nat) as [L U].
  destruct (volatility_range (g 0%nat) L U) as (Fv & V).
  destruct (level_factors _ Fv V)
    as ((Fa & A1 & A2) & (Fb & B1 & B2) & (Fc & C1 & C2) & (Fd & D1 & D2)).
  destruct (level_factors_precise _ Fv V)
    as ((PA1 & PA2) & (PB1 & PB2) & (PC1 & PC2) & (PD1 & PD2)).
  destruct V as [V1 V2].
  assert (K2 : (19 # 1000 <= B2Q 0.02)%Q) by by_computation.
  assert (K5 : (B2Q 0.05 <= 50001 # 1000000)%Q) by by_computation.
  destruct (action_cases price inds sentiment g)
    as [ (A & C) | [ (A & K1 & K3) | (A & K1 & K3) ] ];
    split; intros A'; try congruence.
  - destruct (buy_branch price inds sentiment g C) as (_ & _ & E & T & S).
    rewrite E, T, S.
    assert (K : 1 - 0.005 = 0.995) by (vm_compute; reflexivity). rewrite K.
    assert (E1 : (994 # 1000 <= B2Q 0.995)%Q) by by_computation.
    assert (E2 : (B2Q 0.995 <= 996 # 1000)%Q) by by_computation.
    assert (E3 : (B2Q 0.94 <= 9401 # 10000)%Q) by by_computation.
    assert (E4 : (1109 # 1000 <= B2Q 1.11)%Q) by by_computation.
    assert (E5 : (1 # 2 <= B2Q 0.94)%Q) by by_computation.
    assert (E6 : (B2Q 1.11 <= 2)%Q) by by_computation.
    split; [ apply price_times_lt; try assumption; try reflexivity; lra | ].
    split; [ apply price_times_lt; try assumption; try reflexivity; lra | ].
    split; [ apply price_times_below; try assumption; try reflexivity; lra | ].
    split; [ apply price_times_above; try assumption; lra | ].
    apply price_times_lt; try assumption; try reflexivity; lra.
  - destruct (sell_branch price inds sentiment g K1 K3) as (_ & _ & E & T & S).
    rewrite E, T, S.
    assert (K : 1 + 0.005 = 1.005) by (vm_compute; reflexivity). rewrite K.
    assert (E1 : (1004 # 1000 <= B2Q 1.005)%Q) by by_computation.
    assert (E2 : (B2Q 1.005 <= 1006 # 1000)%Q) by by_computation.
    assert (E3 : (B2Q 0.89 <= 8901 # 10000)%Q) by by_computation.
    assert (E4 : (1059 # 1000 <= B2Q 1.06)%Q) by by_computation.
    assert (E5 : (1 # 2 <= B2Q 0.89)%Q) by by_computation.
    assert (E6 : (B2Q 1.06 <= 2)%Q) by by_computation.
    split; [ apply price_times_lt; try assumption; try reflexivity; lra | ].
    split; [ apply price_times_below; try assumption; lra | ].
    split; [ apply price_times_above; try assumption; try reflexivity; lra | ].
    split; [ apply price_times_lt; try assumption; try reflexivity; lra | ].
    apply price_times_lt; try assumption; try reflexivity; lra.
Qed.

(** ** The order of the price levels *)

(** Rounding among the subnormal numbers: a real that lies on one side of
    the midpoint between two neighbours of the grid [2^-1074] rounds to
    that side. *)
Lemma subnormal_round (q : Q) (x p : float) :
  Rounds q (Prim2SF x) -> finite p -> (q < pow2 (-1021))%Q ->
  finite x /\
  ((q < B2Q p + (1 # 2) * pow2 (-1074))%Q -> (B2Q x <= B2Q p)%Q) /\
  ((q < B2Q p - (1 # 2) * pow2 (-1074))%Q -> (B2Q x <= B2Q p - pow2 (-1074))%Q) /\
  ((B2Q p - (1 # 2) * pow2 (-1074) < q)%Q -> (B2Q p <= B2Q x)%Q) /\
  ((B2Q p + (1 # 2) * pow2 (-1074) < q)%Q -> (B2Q p + pow2 (-1074) <= B2Q x)%Q).
Proof.
  intros R Fp Hq.
  pose proof (pow2_pos (-1074)) as Pu.
  assert (Fx : finite x).
  { apply (Rounds_finite_below q _ (-1074) R); [ lia | exact Hq | ].
    assert (pow2 (-1021) <= pow2 1023)%Q by (apply pow2_le; lia).
    assert (pow2 (-1074) <= pow2 1023)%Q by (apply pow2_le; lia).
    assert (pow2 1024 == 2 * pow2 1023)%Q by (apply (pow2_succ 1023)).
    lra. }
  split; [ exact Fx | ].
  destruct (Rounds_abs_error q _ (-1074) R Fx ltac:(lia) Hq) as (A & B).
  fold (B2Q x) in A, B.
  destruct (float_grid x (-1074) Fx ltac:(lia) ltac:(lia)) as (kx & Kx).
  destruct (float_grid p (-1074) Fp ltac:(lia) ltac:(lia)) as (kp & Kp).
  rewrite Kx, Kp in *.
  pose proof (inject_Z_succ_mul kp (pow2 (-1074))) as S1.
  pose proof (inject_Z_succ_mul (kp - 1) (pow2 (-1074))) as S2.
  replace (kp - 1 + 1)%Z with kp in S2 by lia.
  pose proof (inject_Z_succ_mul kx (pow2 (-1074))) as S3.
  repeat split; intros H.
  - assert (T : (inject_Z kx * pow2 (-1074) < inject_Z (kp + 1) * pow2 (-1074))%Q) by lra.
    apply lattice_lt in T.
    apply Qmult_le_compat_r; [ | lra ]. rewrite <- Zle_Qle. lia.
  - assert (T : (inject_Z kx * pow2 (-1074) < inject_Z kp * pow2 (-1074))%Q) by lra.
    apply lattice_lt in T.
    apply Qle_trans with (inject_Z (kp - 1) * pow2 (-1074))%Q; [ | lra ].
    apply Qmult_le_compat_r; [ | lra ]. rewrite <- Zle_Qle. lia.
  - assert (T : (inject_Z kp * pow2 (-1074) < inject_Z (kx + 1) * pow2 (-1074))%Q) by lra.
    apply lattice_lt in T.
    apply Qmult_le_compat_r; [ | lra ]. rewrite <- Zle_Qle. lia.
  - assert (T : (inject_Z kp * pow2 (-1074) < inject_Z kx * pow2 (-1074))%Q) by lra.
    apply lattice_lt in T.
    apply Qle_trans with (inject_Z (kp + 1) * pow2 (-1074))%Q; [ lra | ].
    apply Qmult_le_compat_r; [ | lra ]. rewrite <- Zle_Qle. lia.
Qed.

(** A product that is not finite is +infinity, above every finite
    number. *)
Lemma Rounds_ltb_overflow (q : Q) (x y : float) :
  Rounds q (Prim2SF y) -> finite x -> ~ finite y -> (x <? y) = true.
Proof.
  intros R Fx Ny. apply ltb_rank.
  split; [ apply finite_number; exact Fx | ].
  split; [ exact (Rounds_not_nan _ _ R) | ].
  rewrite (rank_finite x Fx).
  pose proof (SF2Q_lt_max _ (Prim2SF_valid x)) as M. fold (B2Q x) in M.
  destruct R as (m1 & e1 & _ & _ & _ & _ & _ & _ & R).
  unfold rank, finite in *. inversion R as [ s E H | p e2 E1 E2 H | E H ];
    rewrite <- H in *; simpl in *; congruence.
Qed.

(** Two factors at least 0.0149 apart give strictly ordered products of
    every price from 90 * 2^-1074 on, as long as the smaller product is
    finite. *)
Lemma times_lt_far (p k1 k2 : float) :
  finite p -> (90 * pow2 (-1074) <= B2Q p)%Q ->
  finite k1 -> finite k2 -> (0 <= B2Q k1)%Q -> (B2Q k2 <= 2)%Q ->
  (B2Q k1 + (149 # 10000) <= B2Q k2)%Q ->
  finite (p * k1) -> (p * k1 <? p * k2) = true.
Proof.
  intros Fp Lp F1 F2 N1 U2 G Fa.
  pose proof (pow2_pos (-1074)) as Pu.
  assert (Np : (0 <= B2Q p)%Q) by lra.
  pose proof (mul_Rounds p k1 Fp F1 Np N1) as R1.
  pose proof (mul_Rounds p k2 Fp F2 Np ltac:(lra)) as R2.
  destruct (SFfinite (Prim2SF (p * k2))) eqn:Fb.
  - destruct (Rounds_approx _ _ R1 Fa) as (_ & A).
    destruct (Rounds_approx _ _ R2 Fb) as (B & _).
    apply ltb_finite; try assumption.
    assert (X : (B2Q p * (B2Q k1 + (149 # 10000)) <= B2Q p * B2Q k2)%Q).
    { rewrite !(Qmult_comm (B2Q p)). apply Qmult_le_compat_r; lra. }
    assert (Y : (B2Q p * B2Q k2 <= B2Q p * 2)%Q).
    { rewrite !(Qmult_comm (B2Q p)). apply Qmult_le_compat_r; lra. }
    assert (Z : (0 <= B2Q p * B2Q k1)%Q) by (apply Qmult_le_0_compat; lra).
    rewrite Qmult_plus_distr_r in X.
    assert (U : (u64 == 1 # 9007199254740992)%Q) by reflexivity.
    assert (H : (pow2 (-1074) == 2 * pow2 (-1075))%Q) by (apply (pow2_succ (-1075))).
    rewrite U in *.
    set (x1 := (B2Q p * B2Q k1)%Q) in *. set (x2 := (B2Q p * B2Q k2)%Q) in *.
    lra.
  - apply (Rounds_ltb_overflow _ _ _ R2 Fa). unfold finite. congruence.
Qed.

(** The factors of the two stops, compared with the numbers [1 - 0.02]
    and [1 + 0.02] that the smallest volatility gives. *)
Lemma stop_factors (v : float) :
  finite v -> (B2Q 0.02 <= B2Q v <= B2Q 0.05)%Q ->
  (B2Q (1 - v) <= B2Q (1 - 0.02))%Q /\ (B2Q (1 + 0.02) <= B2Q (1 + v))%Q.
Proof.
  intros Fv [V1 V2].
  destruct (level_factors v Fv (conj V1 V2)) as (_ & _ & (Fc & C1 & C2) & _).
  assert (F1 : finite 1) by reflexivity.
  assert (E1 : (B2Q 1 == 1)%Q) by by_computation.
  assert (K2 : (0 <= B2Q 0.02)%Q) by by_computation.
  assert (K5 : (B2Q 0.05 <= 1 # 2)%Q) by by_computation.
  split.
  - pose proof (sub_Rounds 1 v F1 Fv ltac:(lra) ltac:(lra)) as R.
    apply (Rounds_le_near _ _ (1 - 0.02) (-53) R);
      [ reflexivity | lia | by_computation | by_computation | ].
    assert (B2Q 1 - B2Q 0.02 < B2Q (1 - 0.02) + (1 # 2) * pow2 (-53))%Q by by_computation.
    lra.
  - pose proof (add_Rounds 1 v F1 Fv ltac:(lra) ltac:(lra)) as R.
    assert (P0 : (pow2 0 == 1)%Q) by by_computation.
    assert (P1 : (pow2 1 == 2)%Q) by by_computation.
    apply (Rounds_ge_near _ _ (1 + 0.02) (-52) R);
      [ exact Fc | reflexivity | lia | | | ].
    + change (-52 + 52)%Z with 0%Z. lra.
    + change (-52 + 53)%Z with 1%Z. lra.
    + assert (B2Q (1 + 0.02) - (1 # 2) * pow2 (-52) < B2Q 1 + B2Q 0.02)%Q
        by by_computation.
      lra.
Qed.

Lemma pow2_m1021 : (pow2 (-1021) == 9007199254740992 * pow2 (-1074))%Q.
Proof.
  change (-1021)%Z with (53 + -1074)%Z. rewrite pow2_add, (pow2_Z 53) by lia.
  reflexivity.
Qed.

Lemma times_le_price (p k : float) :
  finite p -> (0 <= B2Q p)%Q -> finite k -> (0 <= B2Q k <= 1)%Q ->
  finite (p * k).
Proof.
  intros Fp Np Fk [K0 K1].
  pose proof (mul_Rounds p k Fp Fk Np K0) as R.
  destruct (Rounds_le _ _ p R Fp) as (F & _); [ | exact F ].
  rewrite <- (Qmult_1_r (B2Q p)) at 2.
  rewrite !(Qmult_comm (B2Q p)). apply Qmult_le_compat_r; lra.
Qed.

(** The levels of a BUY decision are strictly ordered from the price
    25 * 2^-1074 on. *)
Lemma buy_order (p v : float) :
  finite p -> (25 * pow2 (-1074) <= B2Q p)%Q ->
  finite v -> (B2Q 0.02 <= B2Q v <= B2Q 0.05)%Q ->
  (p * (1 - v) <? p * 0.995) = true /\ (p * 0.995 <? p * (1 + v * 2)) = true.
Proof.
  intros Fp Lp Fv V.
  pose proof (pow2_pos (-1074)) as Pu.
  assert (Np : (0 <= B2Q p)%Q) by lra.
  destruct (level_factors v Fv V) as ((Fa & A1 & A2) & _ & _ & (Fb & B1 & B2)).
  destruct (level_factors_precise v Fv V) as ((A3 & _) & _).
  destruct (stop_factors v Fv V) as (B3 & _).
  assert (Fc : finite 0.995) by reflexivity.
  assert (K2 : (B2Q 0.02 == 5764607523034235 # 288230376151711744)%Q) by by_computation.
  assert (C1 : (B2Q 0.995 == 8962163258467287 # 9007199254740992)%Q) by by_computation.
  assert (C2 : (B2Q (1 - 0.02) == 2206763817411543 # 2251799813685248)%Q) by by_computation.
  pose proof (mul_Rounds p (1 - v) Fp Fb Np ltac:(lra)) as Rs.
  pose proof (mul_Rounds p 0.995 Fp Fc Np ltac:(lra)) as Re.
  pose proof (mul_Rounds p (1 + v * 2) Fp Fa Np ltac:(lra)) as Rt.
  assert (Xs : (B2Q p * B2Q (1 - v) <= B2Q p * B2Q (1 - 0.02))%Q).
  { rewrite !(Qmult_comm (B2Q p)). apply Qmult_le_compat_r; lra. }
  assert (Xt : (B2Q p * (10399 # 10000) <= B2Q p * B2Q (1 + v * 2))%Q).
  { rewrite !(Qmult_comm (B2Q p)). apply Qmult_le_compat_r; lra. }
  assert (Yt : (B2Q p * B2Q (1 + v * 2) <= B2Q p * 2)%Q).
  { rewrite !(Qmult_comm (B2Q p)). apply Qmult_le_compat_r; lra. }
  assert (Zs : (0 <= B2Q p * B2Q (1 - v))%Q) by (apply Qmult_le_0_compat; lra).
  rewrite C1 in *. rewrite C2 in *.
  destruct (Qlt_le_dec (B2Q p) (90 * pow2 (-1074))) as [ Small | Large ].
  - pose proof pow2_m1021 as E.
    destruct (subnormal_round _ _ p Rs Fp) as (Fs & _ & S2 & _); [ lra | ].
    destruct (subnormal_round _ _ p Re Fp) as (Fe & E1 & _ & E3 & _); [ lra | ].
    destruct (subnormal_round _ _ p Rt Fp) as (Ft & _ & _ & _ & T4); [ lra | ].
    specialize (S2 ltac:(lra)). specialize (E1 ltac:(lra)).
    specialize (E3 ltac:(lra)). specialize (T4 ltac:(lra)).
    split; apply ltb_finite; try assumption; lra.
  - split.
    + apply times_lt_far; try assumption; try lra.
      apply times_le_price; try assumption; lra.
    + apply times_lt_far; try assumption; try lra.
      apply times_le_price; try assumption; lra.
Qed.

(** The levels of a SELL decision are strictly ordered from the price
    25 * 2^-1074 up to the largest price whose entry level is finite. *)
Lemma sell_order (p v : float) :
  finite p -> (25 * pow2 (-1074) <= B2Q p)%Q -> (B2Q p <= B2Q maxSellPrice)%Q ->
  finite v -> (B2Q 0.02 <= B2Q v <= B2Q 0.05)%Q ->
  (p * (1 - v * 2) <? p * 1.005) = true /\ (p * 1.005 <? p * (1 + v)) = true.
Proof.
  intros Fp Lp Up Fv V.
  pose proof (pow2_pos (-1074)) as Pu.
  assert (Np : (0 <= B2Q p)%Q) by lra.
  destruct (level_factors v Fv V) as (_ & (Fa & A1 & A2) & (Fb & B1 & B2) & _).
  destruct (level_factors_precise v Fv V) as (_ & (_ & A3) & _).
  destruct (stop_factors v Fv V) as (_ & B3).
  assert (Fc : finite 1.005) by reflexivity.
  assert (K2 : (B2Q 0.02 == 5764607523034235 # 288230376151711744)%Q) by by_computation.
  assert (C1 : (B2Q 1.005 == 4526117625507348 # 4503599627370496)%Q) by by_computation.
  assert (C2 : (B2Q (1 + 0.02) == 4593671619917906 # 4503599627370496)%Q) by by_computation.
  pose proof (mul_Rounds p (1 + v) Fp Fb Np ltac:(lra)) as Rs.
  pose proof (mul_Rounds p 1.005 Fp Fc Np ltac:(lra)) as Re.
  pose proof (mul_Rounds p (1 - v * 2) Fp Fa Np ltac:(lra)) as Rt.
  assert (Xs : (B2Q p * B2Q (1 + 0.02) <= B2Q p * B2Q (1 + v))%Q).
  { rewrite !(Qmult_comm (B2Q p)). apply Qmult_le_compat_r; lra. }
  assert (Ys : (B2Q p * B2Q (1 + v) <= B2Q p * 2)%Q).
  { rewrite !(Qmult_comm (B2Q p)). apply Qmult_le_compat_r; lra. }
  assert (Xt : (B2Q p * B2Q (1 - v * 2) <= B2Q p * (9601 # 10000))%Q).
  { rewrite !(Qmult_comm (B2Q p)). apply Qmult_le_compat_r; lra. }
  assert (Zt : (0 <= B2Q p * B2Q (1 - v * 2))%Q) by (apply Qmult_le_0_compat; lra).
  rewrite C1 in *. rewrite C2 in *.
  destruct (Qlt_le_dec (B2Q p) (90 * pow2 (-1074))) as [ Small | Large ].
  - pose proof pow2_m1021 as E.
    destruct (subnormal_round _ _ p Rs Fp) as (Fs & _ & _ & _ & S4); [ lra | ].
    destruct (subnormal_round _ _ p Re Fp) as (Fe & E1 & _ & E3 & _); [ lra | ].
    destruct (subnormal_round _ _ p Rt Fp) as (Ft & _ & T2 & _ & _); [ lra | ].
    specialize (S4 ltac:(lra)). specialize (E1 ltac:(lra)).
    specialize (E3 ltac:(lra)). specialize (T2 ltac:(lra)).
    split; apply ltb_finite; try assumption; lra.
  - assert (Fe : finite (p * 1.005)).
    { apply (Rounds_finite_below _ _ 971 Re); [ lia | | ].
      - assert (B2Q maxSellPrice * (4526117625507348 # 4503599627370496)
                < pow2 (971 + 53))%Q by by_computation.
        lra.
      - assert (B2Q maxSellPrice * (4526117625507348 # 4503599627370496)
                + (1 # 2) * pow2 971 < pow2 1024)%Q by by_computation.
        lra. }
    split.
    + apply times_lt_far; try assumption; try lra.
      apply times_le_price; try assumption; lra.
    + apply times_lt_far; try assumption; try lra.
Qed.

Lemma minOrderedPrice_value : (B2Q minOrderedPrice == 25 * pow2 (-1074))%Q.
Proof. by_computation. Qed.

(** C4: for every BUY decision the levels are entry = price * 0.995,
    target = price * (1 + 2 * volatility) and stop = price * (1 - volatility),
    at every price.  With draws in [0, 1) the sampled volatility is strictly
    positive, and target > entry > stop at every finite price from
    25 * 2^-1074 (about 1.24e-322) on, the largest binary64 number
    included. *)
Theorem buy_levels_ordered :
  forall (price : float) (inds : list TechnicalIndicator) (sentiment : float)
         (g : Rng),
    let result := fst (generateTradingSignal price inds sentiment g) in
    let volatility := sampleVolatility (g 0%nat) in
    action result = BUY ->
    entryPrice result = price * 0.995 /\
    targetPrice result = price * (1 + volatility * 2) /\
    stopLoss result = price * (1 - volatility) /\
    (unit_draws g ->
     (0 <? volatility) = true /\
     ((minOrderedPrice <=? price) = true -> is_finite price = true ->
      (targetPrice result >? entryPrice result) = true /\
      (entryPrice result >? stopLoss result) = true)).
Proof.
  intros price inds sentiment g. cbv zeta. intros A.
  destruct (action_cases price inds sentiment g)
    as [ (_ & C) | [ (B & _) | (B & _) ] ]; try congruence.
  destruct (buy_branch price inds sentiment g C) as (_ & _ & E & T & S).
  assert (K : 1 - 0.005 = 0.995) by (vm_compute; reflexivity).
  rewrite K in E. rewrite E, T, S.
  split; [ reflexivity | ]. split; [ reflexivity | ]. split; [ reflexivity | ].
  intros Hg. destruct (Hg 0%nat) as [L U].
  destruct (volatility_range (g 0%nat) L U) as (Fv & V).
  split.
  - apply ltb_finite; [ reflexivity | exact Fv | ].
    assert (B2Q 0 < B2Q 0.02)%Q by by_computation. lra.
  - intros Lo Fin. apply is_finite_iff in Fin.
    apply leb_finite in Lo; [ | reflexivity | exact Fin ].
    rewrite minOrderedPrice_value in Lo.
    destruct (buy_order price _ Fin Lo Fv V) as (O1 & O2).
    unfold gtb. split; assumption.
Qed.

(** C5: for every SELL decision the levels are entry = price * 1.005,
    target = price * (1 - 2 * volatility) and stop = price * (1 + volatility),
    at every price.  With draws in [0, 1) the sampled volatility lies
    between 0.02 and 0.05, and stop > entry > target at every price from
    25 * 2^-1074 (about 1.24e-322) up to the largest price whose entry
    level is a finite number (about 1.7887e308). *)
Theorem sell_levels_ordered :
  forall (price : float) (inds : list TechnicalIndicator) (sentiment : float)
         (g : Rng),
    let result := fst (generateTradingSignal price inds sentiment g) in
    let volatility := sampleVolatility (g 0%nat) in
    action result = SELL ->
    entryPrice result = price * 1.005 /\
    targetPrice result = price * (1 - volatility * 2) /\
    stopLoss result = price * (1 + volatility) /\
    (unit_draws g ->
     (0.02 <=? volatility) = true /\ (volatility <=? 0.05) = true /\
     ((minOrderedPrice <=? price) = true -> (price <=? maxSellPrice) = true ->
      (stopLoss result >? entryPrice result) = true /\
      (entryPrice result >? targetPrice result) = true)).
Proof.
  intros price inds sentiment g. cbv zeta. intros A.
  destruct (action_cases price inds sentiment g)
    as [ (B & _) | [ (_ & C1 & C2) | (B & _) ] ]; try congruence.
  destruct (sell_branch price inds sentiment g C1 C2) as (_ & _ & E & T & S).
  assert (K : 1 + 0.005 = 1.005) by (vm_compute; reflexivity).
  rewrite K in E. rewrite E, T, S.
  split; [ reflexivity | ]. split; [ reflexivity | ]. split; [ reflexivity | ].
  intros Hg. destruct (Hg 0%nat) as [L U].
  destruct (volatility_range (g 0%nat) L U) as (Fv & V).
  split; [ | split ].
  - apply leb_finite; [ reflexivity | exact Fv | lra ].
  - apply leb_finite; [ exact Fv | reflexivity | lra ].
  - intros Lo Hi.
    destruct (between_finite minOrderedPrice price maxSellPrice) as (Fin & P1 & P2);
      try assumption; try reflexivity.
    rewrite minOrderedPrice_value in P1.
    destruct (sell_order price _ Fin P1 P2 Fv V) as (O1 & O2).
    unfold gtb. split; assumption.
Qed.

(** The two bounds on the price cannot be improved: one step below
    [minOrderedPrice] the stop of a BUY and of a SELL decision coincides
    with the entry when the draw is 0, and one step above [maxSellPrice]
    the entry and the stop of a SELL decision are both infinite. *)
Lemma level_bounds_sharp :
  let below := 0x18p-1074 in
  let above := 0x1.fd73e68701462p+1023 in
  unit_draws zeroDraws /\
  (below <? minOrderedPrice) = true /\ (maxSellPrice <? above) = true /\
  (let result := fst (generateTradingSignal below scenarioIndicators 0.2 zeroDraws) in
   action result = BUY /\ stopLoss result = entryPrice result /\
   (entryPrice result >? stopLoss result) = false) /\
  (let result := fst (generateTradingSignal below twoSellIndicators 0 zeroDraws) in
   action result = SELL /\ stopLoss result = entryPrice result /\
   (stopLoss result >? entryPrice result) = false) /\
  (let result := fst (generateTradingSignal above twoSellIndicators 0 zeroDraws) in
   action result = SELL /\ stopLoss result = infinity /\
   entryPrice result = infinity /\
   (stopLoss result >? entryPrice result) = false).
Proof.
  cbv zeta. split.
  - intros n. split; reflexivity.
  - vm_compute. repeat split.
Qed.

(** * The generated signal data *)

Lemma afterDraws_unit (k : nat) (g : Rng) :
  unit_draws g -> unit_draws (afterDraws k g).
Proof. intros H n. apply H. Qed.

(** The parts of the generated data, with the draws each one consumes. *)
Lemma generateSignalData_fields (g : Rng) :
  let price := 100 + g 0%nat * 400 in
  let sentiment := (g 1%nat - 0.5) * 2 in
  let inds := fst (calculateTechnicalIndicators price (afterDraws 2 g)) in
  let s := fst (generateTradingSignal price inds sentiment (afterDraws 7 g)) in
  fst (generateSignalData g) =
  mkSignalData price s inds sentiment (riskLevelOf (confidence s)).
Proof.
  cbv zeta. unfold generateSignalData, calculateTechnicalIndicators, Math_random.
  cbv beta iota zeta. cbn [fst afterDraws Nat.add].
  change (fun n : nat => g (S (S (S (S (S (S (S n))))))))
    with (afterDraws 7 g).
  destruct (generateTradingSignal _ _ _ (afterDraws 7 g)) as [s g']. reflexivity.
Qed.

(** The price [100 + r * 400] and the sentiment [(r - 0.5) * 2]. *)
Lemma generated_price (r : float) :
  (0 <=? r) = true -> (r <? 1) = true ->
  let price := 100 + r * 400 in
  (100 <=? price) = true /\ (price <=? 500) = true /\ price_in_range price.
Proof.
  intros L U. destruct (unit_draw_range r L U) as (Fr & R0 & R1). cbv zeta.
  assert (E400 : (B2Q 400 == 400)%Q) by by_computation.
  assert (E100 : (B2Q 100 == 100)%Q) by by_computation.
  assert (E500 : (B2Q 500 == 500)%Q) by by_computation.
  pose proof (mul_Rounds r 400 Fr ltac:(reflexivity) ltac:(lra) ltac:(by_computation)) as Rt.
  rewrite E400 in Rt.
  destruct (Rounds_le _ _ 400 Rt) as (Ft & Ut); [ reflexivity | lra | ].
  pose proof (Rounds_nonneg _ _ Rt Ft) as Lt.
  pose proof (add_Rounds 100 (r * 400) ltac:(reflexivity) Ft ltac:(by_computation) Lt) as Rp.
  rewrite E100 in Rp.
  destruct (Rounds_le _ _ 500 Rp) as (Fp & Up); [ reflexivity | lra | ].
  pose proof (Rounds_ge _ _ 100 Rp ltac:(reflexivity) Fp ltac:(lra)) as Lp.
  split; [ apply leb_finite; [ reflexivity | exact Fp | exact Lp ] | ].
  split; [ apply leb_finite; [ exact Fp | reflexivity | exact Up ] | ].
  split; apply leb_finite; try assumption; try reflexivity.
  - assert (B2Q 1e-300 <= 100)%Q by by_computation. lra.
  - assert (500 <= B2Q 1e300)%Q by by_computation. lra.
Qed.

Lemma generated_sentiment (r : float) :
  (0 <=? r) = true -> (r <? 1) = true ->
  let sentiment := (r - 0.5) * 2 in
  (-1 <=? sentiment) = true /\ (sentiment <=? 1) = true.
Proof.
  intros L U. destruct (unit_draw_range r L U) as (Fr & R0 & R1). cbv zeta.
  assert (Fh : finite 0.5) by reflexivity.
  assert (Eh : (B2Q 0.5 == 1 # 2)%Q) by by_computation.
  assert (E2 : (B2Q 2 == 2)%Q) by by_computation.
  assert (E1 : (B2Q 1 == 1)%Q) by by_computation.
  assert (Em : (B2Q (-1) == - (1))%Q) by by_computation.
  pose proof (abs_sub_Rounds r 0.5 Fr Fh R0 ltac:(by_computation)) as Ra.
  rewrite Eh in Ra.
  assert (Ah : (Qabs (B2Q r - (1 # 2)) <= 1 # 2)%Q)
    by (apply Qabs_Qle_condition; split; lra).
  destruct (Rounds_le _ _ 0.5 Ra Fh) as (Fa & Ua); [ rewrite Eh; exact Ah | ].
  rewrite Eh in Ua. pose proof (Rounds_nonneg _ _ Ra Fa) as La.
  set (a := abs (r - 0.5)) in *.
  pose proof (mul_Rounds a 2 Fa ltac:(reflexivity) La ltac:(by_computation)) as Rm.
  rewrite E2 in Rm.
  destruct (Rounds_le _ _ 1 Rm) as (Fm & Um); [ reflexivity | lra | ].
  assert (Em2 : a * 2 = abs ((r - 0.5) * 2)) by (rewrite abs_mul; reflexivity).
  set (s := (r - 0.5) * 2) in *.
  assert (Fs : finite s) by (apply finite_abs; rewrite <- Em2; exact Fm).
  assert (Bs : (- (1) <= B2Q s <= 1)%Q).
  { apply Qabs_Qle_condition. rewrite <- B2Q_abs, <- Em2. lra. }
  split; apply leb_finite; try assumption; try reflexivity; lra.
Qed.

(** X14: the inputs that [generateSignalData] draws.  The price lies in
    [100, 500], hence in the range of realistic prices, and the sentiment
    in [-1, 1]; the indicators are computed at that price from the next
    five draws and the decision is taken on them with the draws that
    follow. *)
Theorem generated_inputs_in_range :
  forall g : Rng,
    unit_draws g ->
    let data := fst (generateSignalData g) in
    (100 <=? currentPrice data) = true /\ (currentPrice data <=? 500) = true /\
    price_in_range (currentPrice data) /\
    (-1 <=? marketSentiment data) = true /\ (marketSentiment data <=? 1) = true /\
    indicators data =
      fst (calculateTechnicalIndicators (currentPrice data) (afterDraws 2 g)) /\
    signal data =
      fst (generateTradingSignal (currentPrice data) (indicators data)
             (marketSentiment data) (afterDraws 7 g)).
Proof.
  intros g Hg. cbv zeta.
  pose proof (generateSignalData_fields g) as E. cbv zeta in E. rewrite E.
  cbn [currentPrice marketSentiment indicators signal].
  destruct (Hg 0%nat) as [L0 U0]. destruct (Hg 1%nat) as [L1 U1].
  destruct (generated_price _ L0 U0) as (P1 & P2 & P3).
  destruct (generated_sentiment _ L1 U1) as (S1 & S2).
  split; [ exact P1 | ]. split; [ exact P2 | ]. split; [ exact P3 | ].
  split; [ exact S1 | ]. split; [ exact S2 | ]. split; reflexivity.
Qed.

(** The facts that every generated decision rests on. *)
Lemma generated_setting (g : Rng) :
  unit_draws g ->
  let price := 100 + g 0%nat * 400 in
  let sentiment := (g 1%nat - 0.5) * 2 in
  let inds := fst (calculateTechnicalIndicators price (afterDraws 2 g)) in
  price_in_range price /\ unit_draws (afterDraws 7 g) /\
  (forall ind, In ind inds -> (0 <=? ind_strength ind) = true) /\
  finite (totalBuyStrength inds sentiment + totalSellStrength inds sentiment).
Proof.
  intros Hg. cbv zeta.
  destruct (Hg 0%nat) as [L0 U0]. destruct (Hg 1%nat) as [L1 U1].
  destruct (generated_price _ L0 U0) as (_ & _ & Hp).
  destruct (generated_sentiment _ L1 U1) as (S1 & S2).
  pose proof (afterDraws_unit 2 g Hg) as Hg2.
  pose proof (indicators_strength_leb _ _ Hp Hg2) as Hs.
  split; [ exact Hp | ]. split; [ apply afterDraws_unit; exact Hg | ].
  split; [ intros ind Hi; apply (Hs ind Hi) | ].
  apply totals_finite; try assumption.
  rewrite calculateTechnicalIndicators_list. cbn [List.length]. lia.
Qed.

(** X15: every generated decision has a confidence in [50, 95], so the
    confidence shown is never NaN.  The risk level follows from it: a HOLD
    decision has a confidence of at most 70 and is never rated LOW risk; a
    LOW risk rating means a BUY or SELL decision with confidence above
    80. *)
Theorem generated_confidence_and_risk :
  forall g : Rng,
    unit_draws g ->
    let data := fst (generateSignalData g) in
    (50 <=? confidence (signal data)) = true /\
    (confidence (signal data) <=? 95) = true /\
    is_nan (confidence (signal data)) = false /\
    (action (signal data) = HOLD ->
     (confidence (signal data) <=? 70) = true /\ riskLevel data <> LOW) /\
    (riskLevel data = LOW ->
     action (signal data) <> HOLD /\ (confidence (signal data) >? 80) = true).
Proof.
  intros g Hg. cbv zeta.
  pose proof (generateSignalData_fields g) as E. cbv zeta in E. rewrite E.
  cbn [signal riskLevel].
  destruct (generated_setting g Hg) as (Hp & Hg7 & Hs & Ft).
  set (price := 100 + g 0%nat * 400) in *.
  set (sentiment := (g 1%nat - 0.5) * 2) in *.
  set (inds := fst (calculateTechnicalIndicators price (afterDraws 2 g))) in *.
  destruct (decision_confidence_range price inds sentiment (afterDraws 7 g) Hs Hg7 Ft)
    as (C1 & C2).
  set (s := fst (generateTradingSignal price inds sentiment (afterDraws 7 g))) in *.
  assert (Hold : action s = HOLD ->
                 (confidence s <=? 70) = true /\ riskLevelOf (confidence s) <> LOW).
  { intros A.
    destruct (action_cases price inds sentiment (afterDraws 7 g))
      as [ (B & _) | [ (B & _) | (_ & K1 & K2) ] ]; fold s in B || idtac;
      try congruence.
    destruct (hold_branch price inds sentiment (afterDraws 7 g) K1 K2) as (_ & K & _).
    fold s in K. destruct (Hg7 0%nat) as [L U].
    destruct (hold_confidence_range _ L U) as (_ & H2). rewrite <- K in H2.
    split; [ exact H2 | ].
    unfold riskLevelOf, gtb.
    assert (N : (80 <? confidence s) = false).
    { destruct (80 <? confidence s) eqn:X; [ | reflexivity ].
      apply ltb_rank in X. apply leb_rank in H2.
      destruct X as (_ & _ & X). destruct H2 as (_ & _ & H2).
      assert (rank 70 < rank 80)%Q by by_computation. lra. }
    rewrite N. destruct (60 <? confidence s); discriminate. }
  split; [ exact C1 | ]. split; [ exact C2 | ].
  split; [ apply is_nan_iff; apply leb_rank in C1; tauto | ].
  split; [ exact Hold | ].
  intros Low. split.
  - intros A. apply (proj2 (Hold A)). exact Low.
  - unfold riskLevelOf in Low. destruct (confidence s >? 80); [ reflexivity | ].
    destruct (confidence s >? 60); discriminate.
Qed.

(** X16: the price levels of every generated decision.  A BUY decision has
    target > entry > stop and a SELL decision stop > entry > target, each
    with a risk/reward ratio between 2.33 and 3.01; a HOLD decision has
    its three levels at the current price and the ratio NaN. *)
Theorem generated_levels :
  forall g : Rng,
    unit_draws g ->
    let data := fst (generateSignalData g) in
    let s := signal data in
    (action s = BUY ->
     (targetPrice s >? entryPrice s) = true /\ (entryPrice s >? stopLoss s) = true /\
     (2.33 <=? riskReward s) = true /\ (riskReward s <=? 3.01) = true) /\
    (action s = SELL ->
     (stopLoss s >? entryPrice s) = true /\ (entryPrice s >? targetPrice s) = true /\
     (2.33 <=? riskReward s) = true /\ (riskReward s <=? 3.01) = true) /\
    (action s = HOLD ->
     entryPrice s = currentPrice data /\ targetPrice s = currentPrice data /\
     stopLoss s = currentPrice data /\ is_nan (riskReward s) = true).
Proof.
  intros g Hg. cbv zeta.
  pose proof (generateSignalData_fields g) as E. cbv zeta in E. rewrite E.
  cbn [signal currentPrice].
  destruct (generated_setting g Hg) as (Hp & Hg7 & _ & _).
  set (price := 100 + g 0%nat * 400) in *.
  set (sentiment := (g 1%nat - 0.5) * 2) in *.
  set (inds := fst (calculateTechnicalIndicators price (afterDraws 2 g))) in *.
  pose proof (riskReward_def price inds sentiment (afterDraws 7 g)) as R.
  cbv zeta in R.
  destruct (Hg7 0%nat) as [L U].
  destruct (volatility_range _ L U) as (Fv & V).
  destruct (action_cases price inds sentiment (afterDraws 7 g))
    as [ (A & C) | [ (A & K1 & K2) | (A & K1 & K2) ] ];
    (split; [ | split ]); intros A'; try congruence.
  - destruct (buy_branch price inds sentiment (afterDraws 7 g) C) as (_ & _ & En & T & S).
    rewrite R, En, T, S.
    assert (K : 1 - 0.005 = 0.995) by (vm_compute; reflexivity). rewrite K.
    destruct (buy_levels_facts price _ Hp Fv V) as (O1 & O2 & R1 & R2 & _).
    repeat split; assumption.
  - destruct (sell_branch price inds sentiment (afterDraws 7 g) K1 K2)
      as (_ & _ & En & T & S).
    rewrite R, En, T, S.
    assert (K : 1 + 0.005 = 1.005) by (vm_compute; reflexivity). rewrite K.
    destruct (sell_levels_facts price _ Hp Fv V) as (O1 & O2 & R1 & R2 & _).
    repeat split; assumption.
  - destruct (hold_branch price inds sentiment (afterDraws 7 g) K1 K2)
      as (_ & _ & En & T & S & R').
    rewrite En, T, S, R'. repeat split. apply hold_ratio_nan.
Qed.

(** ** The votes of the generated indicators *)

Lemma bollinger_signal_hold (price : float) :
  price_in_range price -> ind_signal (bollingerIndicator price) = HOLD.
Proof.
  intros Hp. destruct (bollingerPosition_near_50 price Hp) as (Fb & B1 & B2).
  unfold bollingerIndicator. cbv zeta. cbn [ind_signal]. unfold gtb.
  set (bb := bollingerPosition price) in *.
  assert (L : (bb <? 20) = false).
  { destruct (bb <? 20) eqn:E; [ | reflexivity ].
    apply ltb_finite in E; [ | exact Fb | reflexivity ].
    literal 20. lra. }
  assert (G : (80 <? bb) = false).
  { destruct (80 <? bb) eqn:E; [ | reflexivity ].
    apply ltb_finite in E; [ | reflexivity | exact Fb ].
    literal 80. lra. }
  rewrite L, G. reflexivity.
Qed.

Lemma countSignals_cons (s : Signal) (i : TechnicalIndicator)
    (l : list TechnicalIndicator) :
  countSignals s (i :: l) =
  ((if Signal_eqb (ind_signal i) s then 1 else 0) + countSignals s l)%nat.
Proof.
  unfold countSignals, withSignal. cbn [filter].
  destruct (Signal_eqb (ind_signal i) s); reflexivity.
Qed.

(** X17: the votes of the five generated indicators.  The Bollinger Bands
    indicator always abstains and the MA Cross indicator never does, so
    between one and four indicators are neutral and at most four agree on
    BUY or on SELL; a generated HOLD decision always reports its neutral
    indicators. *)
Theorem generated_votes :
  forall g : Rng,
    unit_draws g ->
    let data := fst (generateSignalData g) in
    let inds := indicators data in
    List.length inds = 5%nat /\
    (1 <= countSignals HOLD inds <= 4)%nat /\
    (countSignals BUY inds <= 4)%nat /\ (countSignals SELL inds <= 4)%nat /\
    (1 <= countSignals BUY inds + countSignals SELL inds)%nat /\
    (action (signal data) = HOLD ->
     reasoning (signal data) =
       [ MixedSignals; NeutralIndicators (countSignals HOLD inds) ]).
Proof.
  intros g Hg. cbv zeta.
  pose proof (generateSignalData_fields g) as E. cbv zeta in E. rewrite E.
  cbn [signal indicators].
  destruct (generated_setting g Hg) as (Hp & Hg7 & _ & _).
  set (price := 100 + g 0%nat * 400) in *.
  set (sentiment := (g 1%nat - 0.5) * 2) in *.
  pose proof (bollinger_signal_hold price Hp) as HB.
  assert (Counts :
    let inds := fst (calculateTechnicalIndicators price (afterDraws 2 g)) in
    List.length inds = 5%nat /\
    (1 <= countSignals HOLD inds <= 4)%nat /\
    (countSignals BUY inds <= 4)%nat /\ (countSignals SELL inds <= 4)%nat /\
    (1 <= countSignals BUY inds + countSignals SELL inds)%nat).
  { cbv zeta. rewrite calculateTechnicalIndicators_list.
    set (i1 := rsiIndicator _). set (i2 := macdIndicator _).
    set (i3 := maCrossIndicator _ _). set (i5 := volumeIndicator _).
    assert (H3 : ind_signal i3 <> HOLD).
    { unfold i3, maCrossIndicator. cbn [ind_signal].
      destruct (_ >? _); discriminate. }
    rewrite !countSignals_cons. rewrite HB.
    change (countSignals HOLD []) with 0%nat.
    change (countSignals BUY []) with 0%nat.
    change (countSignals SELL []) with 0%nat.
    cbn [List.length].
    destruct (ind_signal i1), (ind_signal i2), (ind_signal i3), (ind_signal i5);
      cbn [Signal_eqb]; try congruence; repeat split; lia. }
  cbv zeta in Counts. destruct Counts as (Len & (H1 & H4) & B4 & S4 & BS).
  set (inds := fst (calculateTechnicalIndicators price (afterDraws 2 g))) in *.
  split; [ exact Len | ]. split; [ split; assumption | ].
  split; [ exact B4 | ]. split; [ exact S4 | ]. split; [ exact BS | ].
  intros A.
  destruct (action_cases price inds sentiment (afterDraws 7 g))
    as [ (B & _) | [ (B & _) | (_ & K1 & K2) ] ]; try congruence.
  rewrite (hold_reasoning price inds sentiment (afterDraws 7 g) K1 K2).
  assert (P : (0 <? countSignals HOLD inds)%nat = true) by (apply Nat.ltb_lt; lia).
  rewrite P. reflexivity.
Qed.

(** * Concrete instances

    Each theorem above that has premises is applied here to a concrete
    input on which the premises hold by computation. *)

Lemma halfDraws_unit : unit_draws halfDraws.
Proof. intros n. split; reflexivity. Defined.

Lemma decide_buy_and_sell_witness :
  ((totalBuyStrength scenarioIndicators 0.2
      >? totalSellStrength scenarioIndicators 0.2) = true /\
   (2 <= countSignals BUY scenarioIndicators)%nat /\
   action (fst (generateTradingSignal 100 scenarioIndicators 0.2 halfDraws)) = BUY) /\
  ((totalSellStrength twoSellIndicators 0
      >? totalBuyStrength twoSellIndicators 0) = true /\
   (2 <= countSignals SELL twoSellIndicators)%nat /\
   action (fst (generateTradingSignal 100 twoSellIndicators 0 halfDraws)) = SELL).
Proof.
  assert (B1 : (totalBuyStrength scenarioIndicators 0.2
                  >? totalSellStrength scenarioIndicators 0.2) = true)
    by (vm_compute; reflexivity).
  assert (B2 : (2 <= countSignals BUY scenarioIndicators)%nat)
    by (vm_compute; apply le_n).
  assert (S1 : (totalSellStrength twoSellIndicators 0
                  >? totalBuyStrength twoSellIndicators 0) = true)
    by (vm_compute; reflexivity).
  assert (S2 : (2 <= countSignals SELL twoSellIndicators)%nat)
    by (vm_compute; apply le_n).
  split.
  - split; [ exact B1 | split; [ exact B2 | ] ].
    exact (proj1 (decide_buy_and_sell 100 scenarioIndicators 0.2 halfDraws) B1 B2).
  - split; [ exact S1 | split; [ exact S2 | ] ].
    exact (proj2 (decide_buy_and_sell 100 twoSellIndicators 0 halfDraws) S1 S2).
Defined.

Lemma decide_hold_otherwise_witness :
  countSignals BUY oneBuyIndicators = 1%nat /\
  (totalBuyStrength oneBuyIndicators 0
     >? totalSellStrength oneBuyIndicators 0) = true /\
  action (fst (generateTradingSignal 100 oneBuyIndicators 0 halfDraws)) = HOLD.
Proof.
  assert (N : countSignals BUY oneBuyIndicators = 1%nat) by reflexivity.
  assert (S : (totalBuyStrength oneBuyIndicators 0
                 >? totalSellStrength oneBuyIndicators 0) = true)
    by (vm_compute; reflexivity).
  split; [ exact N | split; [ exact S | ] ].
  exact (proj2 (decide_hold_otherwise 100 oneBuyIndicators 0 halfDraws) N S).
Defined.

Lemma price_100_in_range : price_in_range 100.
Proof. split; reflexivity. Defined.

Lemma risk_reward_unguarded_witness :
  action (fst (generateTradingSignal 100 fiveHoldIndicators 0 halfDraws)) = HOLD /\
  is_nan (riskReward (fst (generateTradingSignal 100 fiveHoldIndicators 0 halfDraws)))
    = true /\
  price_in_range 100 /\ unit_draws halfDraws /\
  action (fst (generateTradingSignal 100 scenarioIndicators 0.2 halfDraws)) <> HOLD /\
  (0 <=? riskReward (fst (generateTradingSignal 100 scenarioIndicators 0.2 halfDraws)))
    = true.
Proof.
  assert (A : action (fst (generateTradingSignal 100 fiveHoldIndicators 0 halfDraws))
              = HOLD) by (vm_compute; reflexivity).
  assert (B : action (fst (generateTradingSignal 100 scenarioIndicators 0.2 halfDraws))
              <> HOLD) by (vm_compute; discriminate).
  split; [ exact A | split ].
  - exact (proj1 (proj2 (proj2 (proj2
      (risk_reward_unguarded 100 fiveHoldIndicators 0 halfDraws)) A))).
  - split; [ exact price_100_in_range | split; [ exact halfDraws_unit | ] ].
    split; [ exact B | ].
    exact (proj1 (proj1 (proj2
      (risk_reward_unguarded 100 scenarioIndicators 0.2 halfDraws))
      price_100_in_range halfDraws_unit B)).
Defined.

Lemma buy_levels_ordered_witness :
  action (fst (generateTradingSignal 100 scenarioIndicators 0.2 halfDraws)) = BUY /\
  unit_draws halfDraws /\
  (minOrderedPrice <=? 100) = true /\ is_finite 100 = true /\
  entryPrice (fst (generateTradingSignal 100 scenarioIndicators 0.2 halfDraws))
    = 100 * 0.995 /\
  (targetPrice (fst (generateTradingSignal 100 scenarioIndicators 0.2 halfDraws))
     >? entryPrice (fst (generateTradingSignal 100 scenarioIndicators 0.2 halfDraws)))
    = true /\
  (entryPrice (fst (generateTradingSignal 100 scenarioIndicators 0.2 halfDraws))
     >? stopLoss (fst (generateTradingSignal 100 scenarioIndicators 0.2 halfDraws)))
    = true.
Proof.
  assert (A : action (fst (generateTradingSignal 100 scenarioIndicators 0.2 halfDraws))
              = BUY) by (vm_compute; reflexivity).
  assert (L : (minOrderedPrice <=? 100) = true) by reflexivity.
  assert (F : is_finite 100 = true) by reflexivity.
  pose proof (buy_levels_ordered 100 scenarioIndicators 0.2 halfDraws A) as T.
  destruct T as (E & _ & _ & O).
  split; [ exact A | split; [ exact halfDraws_unit | ] ].
  split; [ exact L | split; [ exact F | split; [ exact E | ] ] ].
  exact (proj2 (O halfDraws_unit) L F).
Defined.

Lemma sell_levels_ordered_witness :
  action (fst (generateTradingSignal 100 twoSellIndicators 0 halfDraws)) = SELL /\
  unit_draws halfDraws /\
  (minOrderedPrice <=? 100) = true /\ (100 <=? maxSellPrice) = true /\
  entryPrice (fst (generateTradingSignal 100 twoSellIndicators 0 halfDraws))
    = 100 * 1.005 /\
  (stopLoss (fst (generateTradingSignal 100 twoSellIndicators 0 halfDraws))
     >? entryPrice (fst (generateTradingSignal 100 twoSellIndicators 0 halfDraws)))
    = true /\
  (entryPrice (fst (generateTradingSignal 100 twoSellIndicators 0 halfDraws))
     >? targetPrice (fst (generateTradingSignal 100 twoSellIndicators 0 halfDraws)))
    = true.
Proof.
  assert (A : action (fst (generateTradingSignal 100 twoSellIndicators 0 halfDraws))
              = SELL) by (vm_compute; reflexivity).
  assert (L : (minOrderedPrice <=? 100) = true) by reflexivity.
  assert (U : (100 <=? maxSellPrice) = true) by reflexivity.
  pose proof (sell_levels_ordered 100 twoSellIndicators 0 halfDraws A) as T.
  destruct T as (E & _ & _ & O).
  split; [ exact A | split; [ exact halfDraws_unit | ] ].
  split; [ exact L | split; [ exact U | split; [ exact E | ] ] ].
  exact (proj2 (proj2 (O halfDraws_unit)) L U).
Defined.

Lemma scenario_strengths_nonneg :
  forall ind, In ind scenarioIndicators -> (0 <=? ind_strength ind) = true.
Proof. intros ind [ <- | [ <- | [ <- | [] ] ] ]; reflexivity. Defined.

Lemma scenario_strengths_at_most_100 :
  forall ind, In ind scenarioIndicators -> (ind_strength ind <=? 100) = true.
Proof. intros ind [ <- | [ <- | [ <- | [] ] ] ]; reflexivity. Defined.

Lemma confidence_ranges_witness :
  (forall ind, In ind scenarioIndicators -> (0 <=? ind_strength ind) = true) /\
  (forall ind, In ind scenarioIndicators -> (ind_strength ind <=? 100) = true) /\
  (-1 <=? 0.2) = true /\ (0.2 <=? 1) = true /\
  action (fst (generateTradingSignal 100 scenarioIndicators 0.2 halfDraws)) = BUY /\
  is_finite (totalBuyStrength scenarioIndicators 0.2) = true /\
  (0 <=? confidence (fst (generateTradingSignal 100 scenarioIndicators 0.2 halfDraws)))
    = true /\
  (confidence (fst (generateTradingSignal 100 scenarioIndicators 0.2 halfDraws))
     <=? 95) = true.
Proof.
  assert (A : action (fst (generateTradingSignal 100 scenarioIndicators 0.2 halfDraws))
              = BUY) by (vm_compute; reflexivity).
  assert (L : (-1 <=? 0.2) = true) by reflexivity.
  assert (U : (0.2 <=? 1) = true) by reflexivity.
  pose proof (confidence_ranges 100 scenarioIndicators 0.2 halfDraws) as T.
  cbv zeta in T. destruct T as (_ & _ & _ & T).
  destruct (T scenario_strengths_nonneg) as (_ & _ & D).
  destruct (D scenario_strengths_at_most_100 L U) as (Fb & _ & R).
  assert (N : action (fst (generateTradingSignal 100 scenarioIndicators 0.2 halfDraws))
              <> HOLD) by (rewrite A; discriminate).
  split; [ exact scenario_strengths_nonneg | ].
  split; [ exact scenario_strengths_at_most_100 | ].
  split; [ exact L | split; [ exact U | split; [ exact A | split; [ exact Fb | ] ] ] ].
  exact (R N).
Defined.

Lemma risk_tier_step_function_witness :
  (85 >? 80) = true /\ riskLevelOf 85 = LOW /\
  (65 <=? 85) = true /\
  (riskOrder (riskLevelOf 85) <= riskOrder (riskLevelOf 65))%nat.
Proof.
  assert (G : (85 >? 80) = true) by reflexivity.
  assert (L : (65 <=? 85) = true) by reflexivity.
  split; [ exact G | split ].
  - exact (proj2 (proj1 (proj1 risk_tier_step_function 85)) G).
  - split; [ exact L | ].
    exact (proj1 (proj2 risk_tier_step_function) 65 85 L).
Defined.

Lemma hold_levels_equal_price_witness :
  (forall ind, In ind fiveHoldIndicators -> ind_signal ind = HOLD) /\
  (0 =? 0) = true /\
  action (fst (generateTradingSignal 100 fiveHoldIndicators 0 halfDraws)) = HOLD /\
  entryPrice (fst (generateTradingSignal 100 fiveHoldIndicators 0 halfDraws)) = 100 /\
  targetPrice (fst (generateTradingSignal 100 fiveHoldIndicators 0 halfDraws)) = 100 /\
  stopLoss (fst (generateTradingSignal 100 fiveHoldIndicators 0 halfDraws)) = 100.
Proof.
  assert (H : forall ind, In ind fiveHoldIndicators -> ind_signal ind = HOLD).
  { intros ind [ <- | [ <- | [ <- | [ <- | [ <- | [] ] ] ] ] ]; reflexivity. }
  assert (Z : (0 =? 0) = true) by reflexivity.
  split; [ exact H | split; [ exact Z | ] ].
  exact (proj2 (hold_levels_equal_price 100 fiveHoldIndicators 0 halfDraws) H Z).
Defined.

Lemma bollinger_always_hold_witness :
  price_in_range 100 /\
  ind_signal (bollingerIndicator 100) = HOLD /\
  (49.99999999999 <=? ind_value (bollingerIndicator 100)) = true /\
  (ind_value (bollingerIndicator 100) <=? 50.00000000001) = true.
Proof.
  split; [ exact price_100_in_range | ].
  pose proof (bollinger_always_hold 100 halfDraws price_100_in_range) as B.
  cbv zeta in B.
  exact (conj (proj1 (proj2 B))
           (conj (proj1 (proj2 (proj2 B))) (proj1 (proj2 (proj2 (proj2 B)))))).
Defined.

(** * Concrete instances of the further properties *)

Lemma hold_indicators_ignored_witness :
  ind_signal neutralIndicator = HOLD /\
  action (fst (generateTradingSignal 100 (neutralIndicator :: scenarioIndicators)
                 0.2 halfDraws)) =
  action (fst (generateTradingSignal 100 scenarioIndicators 0.2 halfDraws)) /\
  confidence (fst (generateTradingSignal 100 (neutralIndicator :: scenarioIndicators)
                     0.2 halfDraws)) =
  confidence (fst (generateTradingSignal 100 scenarioIndicators 0.2 halfDraws)).
Proof.
  assert (S : ind_signal neutralIndicator = HOLD) by reflexivity.
  pose proof (proj2 (proj2 (hold_indicators_ignored 100 scenarioIndicators 0.2 halfDraws))
                [] scenarioIndicators neutralIndicator eq_refl S) as T.
  cbv zeta in T. destruct T as (A & C & _).
  split; [ exact S | split; [ exact A | exact C ] ].
Defined.

Lemma rsi_indicator_bounds_witness :
  unit_draws halfDraws /\
  ind_signal (rsiIndicator (halfDraws 0%nat * 100)) = HOLD /\
  (ind_strength (rsiIndicator (halfDraws 0%nat * 100)) <=? 40) = true.
Proof.
  pose proof (rsi_indicator_bounds 100 halfDraws halfDraws_unit) as T. cbv zeta in T.
  assert (S : ind_signal (rsiIndicator (halfDraws 0%nat * 100)) = HOLD)
    by (vm_compute; reflexivity).
  destruct T as (_ & _ & _ & _ & _ & _ & _ & _ & H).
  split; [ exact halfDraws_unit | split; [ exact S | exact (H S) ] ].
Defined.

Lemma macd_indicator_bounds_witness :
  unit_draws halfDraws /\
  ind_signal (macdIndicator ((halfDraws 1%nat - 0.5) * 5)) = HOLD /\
  (ind_strength (macdIndicator ((halfDraws 1%nat - 0.5) * 5)) <=? 20) = true.
Proof.
  pose proof (macd_indicator_bounds 100 halfDraws halfDraws_unit) as T. cbv zeta in T.
  assert (S : ind_signal (macdIndicator ((halfDraws 1%nat - 0.5) * 5)) = HOLD)
    by (vm_compute; reflexivity).
  destruct T as (_ & _ & _ & _ & _ & _ & _ & _ & H).
  split; [ exact halfDraws_unit | split; [ exact S | exact (H S) ] ].
Defined.

Lemma ma_cross_indicator_bounds_witness :
  price_in_range 100 /\ unit_draws halfDraws /\
  ind_signal (maCrossIndicator (100 * (0.95 + halfDraws 2%nat * 0.1))
                               (100 * (0.92 + halfDraws 3%nat * 0.16))) <> HOLD /\
  (ind_strength (maCrossIndicator (100 * (0.95 + halfDraws 2%nat * 0.1))
                                  (100 * (0.92 + halfDraws 3%nat * 0.16))) <=? 71) = true.
Proof.
  pose proof (ma_cross_indicator_bounds 100 halfDraws price_100_in_range halfDraws_unit) as T.
  cbv zeta in T. destruct T as (_ & N & _ & _ & _ & S & _).
  split; [ exact price_100_in_range | split; [ exact halfDraws_unit | ] ].
  split; [ exact N | exact S ].
Defined.

Lemma indicator_strengths_bounded_witness :
  price_in_range 100 /\ unit_draws halfDraws /\
  In (volumeIndicator (halfDraws 4%nat * 100))
     (fst (calculateTechnicalIndicators 100 halfDraws)) /\
  Math_min 100 (ind_strength (volumeIndicator (halfDraws 4%nat * 100))) =
  ind_strength (volumeIndicator (halfDraws 4%nat * 100)).
Proof.
  pose proof (indicator_strengths_bounded 100 halfDraws price_100_in_range halfDraws_unit) as T.
  cbv zeta in T. destruct T as (_ & H).
  assert (I : In (volumeIndicator (halfDraws 4%nat * 100))
                 (fst (calculateTechnicalIndicators 100 halfDraws))).
  { right; right; right; right; left. reflexivity. }
  split; [ exact price_100_in_range | split; [ exact halfDraws_unit | ] ].
  split; [ exact I | exact (proj2 (proj2 (proj2 (H _ I)))) ].
Defined.

Lemma volume_indicator_bounds_witness :
  unit_draws halfDraws /\
  (0 <=? ind_value (volumeIndicator (halfDraws 4%nat * 100))) = true /\
  (ind_value (volumeIndicator (halfDraws 4%nat * 100)) <=? 100) = true.
Proof.
  pose proof (volume_indicator_bounds 100 halfDraws halfDraws_unit) as T. cbv zeta in T.
  destruct T as (_ & _ & L & U & _).
  split; [ exact halfDraws_unit | split; [ exact L | exact U ] ].
Defined.

Lemma confidence_at_least_half_witness :
  (forall ind, In ind scenarioIndicators -> (0 <=? ind_strength ind) = true) /\
  unit_draws halfDraws /\
  is_finite (totalBuyStrength scenarioIndicators 0.2 +
             totalSellStrength scenarioIndicators 0.2) = true /\
  (50 <=? confidence (fst (generateTradingSignal 100 scenarioIndicators 0.2 halfDraws)))
    = true /\
  (confidence (fst (generateTradingSignal 100 scenarioIndicators 0.2 halfDraws)) <=? 95)
    = true.
Proof.
  pose proof (confidence_at_least_half 100 scenarioIndicators 0.2 halfDraws
                scenario_strengths_nonneg halfDraws_unit) as T.
  cbv zeta in T. destruct T as (H & _).
  assert (F : is_finite (totalBuyStrength scenarioIndicators 0.2 +
                         totalSellStrength scenarioIndicators 0.2) = true)
    by (vm_compute; reflexivity).
  split; [ exact scenario_strengths_nonneg | split; [ exact halfDraws_unit | ] ].
  split; [ exact F | exact (H F) ].
Defined.

Lemma risk_reward_range_witness :
  price_in_range 100 /\ unit_draws halfDraws /\
  action (fst (generateTradingSignal 100 scenarioIndicators 0.2 halfDraws)) <> HOLD /\
  (2.33 <=? riskReward (fst (generateTradingSignal 100 scenarioIndicators 0.2 halfDraws)))
    = true /\
  (riskReward (fst (generateTradingSignal 100 scenarioIndicators 0.2 halfDraws)) <=? 3.01)
    = true.
Proof.
  assert (B : action (fst (generateTradingSignal 100 scenarioIndicators 0.2 halfDraws))
              <> HOLD) by (vm_compute; discriminate).
  pose proof (risk_reward_range 100 scenarioIndicators 0.2 halfDraws
                price_100_in_range halfDraws_unit B) as T.
  split; [ exact price_100_in_range | split; [ exact halfDraws_unit | ] ].
  split; [ exact B | exact T ].
Defined.

Lemma reasoning_contents_witness :
  price_in_range 100 /\ unit_draws halfDraws /\
  action (fst (generateTradingSignal 100 scenarioIndicators 0.2 halfDraws)) = BUY /\
  exists percent : float,
    reasoning (fst (generateTradingSignal 100 scenarioIndicators 0.2 halfDraws)) =
      [SuggestBuying 2; PositiveSentiment; UpsidePotential percent] /\
    (4.4 <=? percent) = true /\ (percent <=? 10.6) = true.
Proof.
  assert (A : action (fst (generateTradingSignal 100 scenarioIndicators 0.2 halfDraws))
              = BUY) by (vm_compute; reflexivity).
  pose proof (proj1 (reasoning_contents 100 scenarioIndicators 0.2 halfDraws
                       price_100_in_range halfDraws_unit) A) as T.
  destruct T as (percent & R & _ & _ & L & U).
  split; [ exact price_100_in_range | split; [ exact halfDraws_unit | ] ].
  split; [ exact A | ]. exists percent. split; [ exact R | split; [ exact L | exact U ] ].
Defined.

Lemma degenerate_inputs_hold_witness :
  (List.length (@nil TechnicalIndicator) <= 1)%nat /\
  action (fst (generateTradingSignal 100 [] 1 halfDraws)) = HOLD /\
  (exists ind, In ind nanStrengthIndicators /\ ind_signal ind <> HOLD /\
               is_nan (ind_strength ind) = true) /\
  action (fst (generateTradingSignal 100 nanStrengthIndicators 0.2 halfDraws)) = HOLD.
Proof.
  assert (L : (List.length (@nil TechnicalIndicator) <= 1)%nat) by (apply le_S, le_n).
  assert (N : exists ind, In ind nanStrengthIndicators /\ ind_signal ind <> HOLD /\
                          is_nan (ind_strength ind) = true).
  { eexists. split; [ left; reflexivity | ]. split; [ discriminate | reflexivity ]. }
  split; [ exact L | split ].
  - exact (proj1 (degenerate_inputs_hold 100 [] 1 halfDraws) L).
  - split; [ exact N | ].
    exact (proj1 (proj1 (proj2 (degenerate_inputs_hold 100 nanStrengthIndicators 0.2
                                  halfDraws)) N)).
Defined.

Lemma generated_inputs_in_range_witness :
  unit_draws halfDraws /\
  (100 <=? currentPrice (fst (generateSignalData halfDraws))) = true /\
  (currentPrice (fst (generateSignalData halfDraws)) <=? 500) = true /\
  (-1 <=? marketSentiment (fst (generateSignalData halfDraws))) = true /\
  (marketSentiment (fst (generateSignalData halfDraws)) <=? 1) = true.
Proof.
  pose proof (generated_inputs_in_range halfDraws halfDraws_unit) as T. cbv zeta in T.
  destruct T as (P1 & P2 & _ & S1 & S2 & _).
  split; [ exact halfDraws_unit | ]. repeat split; assumption.
Defined.

Lemma generated_confidence_and_risk_witness :
  unit_draws halfDraws /\
  (50 <=? confidence (signal (fst (generateSignalData halfDraws)))) = true /\
  (confidence (signal (fst (generateSignalData halfDraws))) <=? 95) = true.
Proof.
  pose proof (generated_confidence_and_risk halfDraws halfDraws_unit) as T. cbv zeta in T.
  destruct T as (C1 & C2 & _).
  split; [ exact halfDraws_unit | split; [ exact C1 | exact C2 ] ].
Defined.

Lemma generated_levels_witness :
  unit_draws halfDraws /\
  action (signal (fst (generateSignalData halfDraws))) = HOLD /\
  entryPrice (signal (fst (generateSignalData halfDraws))) =
    currentPrice (fst (generateSignalData halfDraws)) /\
  is_nan (riskReward (signal (fst (generateSignalData halfDraws)))) = true.
Proof.
  pose proof (generated_levels halfDraws halfDraws_unit) as T. cbv zeta in T.
  assert (A : action (signal (fst (generateSignalData halfDraws))) = HOLD)
    by (vm_compute; reflexivity).
  destruct T as (_ & _ & H). destruct (H A) as (E & _ & _ & N).
  split; [ exact halfDraws_unit | split; [ exact A | split; [ exact E | exact N ] ] ].
Defined.

Lemma generated_votes_witness :
  unit_draws halfDraws /\
  List.length (indicators (fst (generateSignalData halfDraws))) = 5%nat /\
  (1 <= countSignals HOLD (indicators (fst (generateSignalData halfDraws))) <= 4)%nat.
Proof.
  pose proof (generated_votes halfDraws halfDraws_unit) as T. cbv zeta in T.
  destruct T as (L & H & _).
  split; [ exact halfDraws_unit | split; [ exact L | exact H ] ].
Defined.

Lemma unopposed_confidence_capped_witness :
  (forall ind, In ind signedBuyIndicators -> ind_signal ind <> SELL) /\
  (0 <? 0) = false /\
  is_finite (totalBuyStrength signedBuyIndicators 0) = true /\
  action (fst (generateTradingSignal 100 signedBuyIndicators 0 halfDraws)) = BUY /\
  confidence (fst (generateTradingSignal 100 signedBuyIndicators 0 halfDraws)) = 95.
Proof.
  assert (N : forall ind, In ind signedBuyIndicators -> ind_signal ind <> SELL).
  { intros ind [ <- | [ <- | [] ] ]; discriminate. }
  assert (Z : (0 <? 0) = false) by reflexivity.
  assert (F : is_finite (totalBuyStrength signedBuyIndicators 0) = true)
    by (vm_compute; reflexivity).
  assert (A : action (fst (generateTradingSignal 100 signedBuyIndicators 0 halfDraws))
              = BUY) by (vm_compute; reflexivity).
  split; [ exact N | split; [ exact Z | ] ].
  split; [ exact F | split; [ exact A | ] ].
  exact (proj1 (unopposed_confidence_capped 100 signedBuyIndicators 0 halfDraws) N Z F A).
Defined.

Lemma levels_around_price_witness :
  price_in_range 100 /\ unit_draws halfDraws /\
  action (fst (generateTradingSignal 100 scenarioIndicators 0.2 halfDraws)) = BUY /\
  (entryPrice (fst (generateTradingSignal 100 scenarioIndicators 0.2 halfDraws)) <? 100)
    = true /\
  (100 <? targetPrice (fst (generateTradingSignal 100 scenarioIndicators 0.2 halfDraws)))
    = true.
Proof.
  assert (A : action (fst (generateTradingSignal 100 scenarioIndicators 0.2 halfDraws))
              = BUY) by (vm_compute; reflexivity).
  pose proof (proj1 (levels_around_price 100 scenarioIndicators 0.2 halfDraws
                       price_100_in_range halfDraws_unit) A) as T.
  destruct T as (_ & _ & E & T & _).
  split; [ exact price_100_in_range | split; [ exact halfDraws_unit | ] ].
  split; [ exact A | split; [ exact E | exact T ] ].
Defined.

Lemma scenario_strengths_in_range :
  forall ind, In ind scenarioIndicators ->
    (0 <=? ind_strength ind) = true /\ (ind_strength ind <=? 100) = true.
Proof. intros ind [ <- | [ <- | [ <- | [] ] ] ]; split; reflexivity. Defined.

Lemma sentiment_monotone_witness :
  (forall ind, In ind scenarioIndicators ->
     (0 <=? ind_strength ind) = true /\ (ind_strength ind <=? 100) = true) /\
  (List.length scenarioIndicators <= 1000)%nat /\
  (-1 <=? -0.5) = true /\ (-0.5 <=? 0.2) = true /\ (0.2 <=? 1) = true /\
  (bullishness (action (fst (generateTradingSignal 100 scenarioIndicators (-0.5) halfDraws)))
   <= bullishness (action (fst (generateTradingSignal 250 scenarioIndicators 0.2 halfDraws))))%nat.
Proof.
  assert (Len : (List.length scenarioIndicators <= 1000)%nat) by (simpl; lia).
  assert (L1 : (-1 <=? -0.5) = true) by reflexivity.
  assert (L12 : (-0.5 <=? 0.2) = true) by reflexivity.
  assert (U2 : (0.2 <=? 1) = true) by reflexivity.
  split; [ exact scenario_strengths_in_range | ].
  split; [ exact Len | ]. split; [ exact L1 | ]. split; [ exact L12 | ].
  split; [ exact U2 | ].
  exact (sentiment_monotone 100 250 scenarioIndicators (-0.5) 0.2 halfDraws halfDraws
           scenario_strengths_in_range Len L1 L12 U2).
Defined.
